(** * Splitter front end: line cleaning, amount extraction, payment summary

    A shallow embedding of the computational parts of the React front end
    ([App.jsx], [components/DataTable.jsx], [components/Summary.jsx],
    [components/FileUpload.jsx]):

    - [App.cleanLineContent] and [App.calculateTotalAmount];
    - [DataTable.isAmount] and [DataTable.formatAmount];
    - [Summary.formatAmount] and the [paymentTotals] memo of
      [PaymentSummaryTable];
    - the search over the raw lines and the name of the report file of
      [App] (module [AppView]);
    - the summary, the search, the pages, the page controls, the columns
      and the cells of [DataTable] (module [Table]);
    - [SummaryCard] and the cells of the payment table (module [Cards]);
    - [validateFile] and the two handlers of [FileUpload].

    The code leans on the JavaScript runtime (regular expressions, string
    methods, IEEE-754 numbers, [parseFloat], [Math.round],
    [Number.prototype.toString], [Intl.NumberFormat]); module [JS] models the
    fragment of the runtime that the code uses.  JavaScript strings are
    sequences of UTF-16 code units, numbers are binary64 floats. *)

From Stdlib Require Import ZArith NArith PArith List Bool String Ascii Lia.
From Stdlib Require Import Floats.
From Stdlib Require Import Permutation Sorted.
Import ListNotations.

Set Warnings "-inexact-float".

(* ================================================================== *)
(** * The JavaScript runtime fragment                                   *)
(* ================================================================== *)

Module JS.

(** ** Strings *)

(** A JavaScript string: its UTF-16 code units. *)
Definition jsstring := list N.

(** An ASCII literal as a JavaScript string. *)
Definition lit (s : string) : jsstring :=
  map N_of_ascii (list_ascii_of_string s).

(** Code units the source names. *)
Definition c_peso : N := 8369.      (* U+20B1, the peso sign *)
Definition c_space : N := 32.
Definition c_bar : N := 124.        (* | *)
Definition c_caret : N := 94.       (* ^ *)
Definition c_comma : N := 44.
Definition c_dot : N := 46.
Definition c_minus : N := 45.
Definition c_plus : N := 43.
Definition c_zero : N := 48.

Definition is_char (c : N) : N -> bool := N.eqb c.

Definition in_range (lo hi c : N) : bool := (lo <=? c)%N && (c <=? hi)%N.

(** [\d] (no [u] flag): the ASCII digits. *)
Definition isDigit (c : N) : bool := in_range 48 57 c.

(** [\w]: ASCII letters, digits and the underscore. *)
Definition isWordChar (c : N) : bool :=
  in_range 97 122 c || in_range 65 90 c || isDigit c || (c =? 95)%N.

(** [\s], which is also the set [String.prototype.trim] removes:
    WhiteSpace and LineTerminator of ECMA-262. *)
Definition isWhiteSpace (c : N) : bool :=
  in_range 9 13 c || (c =? 32)%N || (c =? 160)%N || (c =? 5760)%N
  || in_range 8192 8202 c || (c =? 8232)%N || (c =? 8233)%N
  || (c =? 8239)%N || (c =? 8287)%N || (c =? 12288)%N || (c =? 65279)%N.

Fixpoint jsstring_eqb (a b : jsstring) : bool :=
  match a, b with
  | [], [] => true
  | x :: a', y :: b' => (x =? y)%N && jsstring_eqb a' b'
  | _, _ => false
  end.

(** ** Regular expressions

    Every regular expression of the source is a sequence of assertions and
    of greedily quantified one-character classes, so the pattern syntax
    modelled is that fragment.  Matching is the backtracking of ECMA-262: a
    quantified class first takes as many characters as it can and gives
    them back one at a time while the rest of the pattern fails. *)

Inductive assertion : Type :=
  | AssertStart        (* ^ , no m flag *)
  | AssertEnd          (* $ , no m flag *)
  | AssertWordBoundary (* \b *).

Inductive item : Type :=
  | Assert (a : assertion)
  | Rep (cls : N -> bool) (lo : nat) (hi : option nat).
      (* cls{lo,hi}; hi = None for an open upper bound *)

Definition regex := list item.

Definition Chr (c : N) : item := Rep (is_char c) 1 (Some 1).
Definition Class (cls : N -> bool) : item := Rep cls 1 (Some 1).
Definition Plus (cls : N -> bool) : item := Rep cls 1 None.

Definition isWordOpt (o : option N) : bool :=
  match o with Some c => isWordChar c | None => false end.

(** Whether an assertion holds at a cursor: [prev] is the code unit just
    before the cursor (none at the start of the input), [rest] what
    follows it. *)
Definition holds (a : assertion) (prev : option N) (rest : jsstring) : bool :=
  match a with
  | AssertStart => match prev with None => true | Some _ => false end
  | AssertEnd => match rest with [] => true | _ :: _ => false end
  | AssertWordBoundary => xorb (isWordOpt prev) (isWordOpt (hd_error rest))
  end.

(** How many leading characters of [rest] a quantified class can take. *)
Fixpoint greedy (cls : N -> bool) (hi : option nat) (rest : jsstring) : nat :=
  match hi with
  | Some 0 => 0
  | _ =>
    match rest with
    | c :: rest' =>
        if cls c then S (greedy cls (option_map pred hi) rest') else 0
    | [] => 0
    end
  end.

(** The code unit before the cursor once [k] characters of [rest] are
    consumed. *)
Definition prev_after (k : nat) (prev : option N) (rest : jsstring)
  : option N :=
  match k with
  | 0 => prev
  | S k' => match nth_error rest k' with Some c => Some c | None => prev end
  end.

(** Try the continuation [f] after [k], [k-1], ..., [lo] repetitions. *)
Fixpoint tryDown (f : nat -> option nat) (lo k : nat) : option nat :=
  if k <? lo then None
  else match f k with
       | Some r => Some (k + r)
       | None => match k with
                 | 0 => None
                 | S k' => tryDown f lo k'
                 end
       end.

(** [matchFrom re prev rest]: the length of the match of [re] that starts
    at the cursor, if there is one. *)
Fixpoint matchFrom (re : regex) (prev : option N) (rest : jsstring)
  : option nat :=
  match re with
  | [] => Some 0
  | Assert a :: re' =>
      if holds a prev rest then matchFrom re' prev rest else None
  | Rep cls lo hi :: re' =>
      tryDown (fun k => matchFrom re' (prev_after k prev rest) (skipn k rest))
              lo (greedy cls hi rest)
  end.

(** [RegExp.prototype.test] for a pattern without the [g] flag: is there a
    match starting at some position, scanning from the left. *)
Fixpoint testFrom (re : regex) (prev : option N) (rest : jsstring) : bool :=
  match matchFrom re prev rest with
  | Some _ => true
  | None => match rest with
            | [] => false
            | c :: rest' => testFrom re (Some c) rest'
            end
  end.

Definition RegExp_test (re : regex) (s : jsstring) : bool :=
  testFrom re None s.

(** All the matches of a [g] pattern, left to right.  [skip] counts the
    characters still inside the previous match, where no attempt starts;
    after an empty match the scan advances by one character. *)
Fixpoint matchesFrom (re : regex) (prev : option N) (rest : jsstring)
  (skip : nat) : list jsstring :=
  match skip with
  | S k =>
      match rest with
      | [] => []
      | c :: rest' => matchesFrom re (Some c) rest' k
      end
  | 0 =>
      match matchFrom re prev rest with
      | Some n =>
          firstn n rest ::
          match rest with
          | [] => []
          | c :: rest' => matchesFrom re (Some c) rest' (pred n)
          end
      | None =>
          match rest with
          | [] => []
          | c :: rest' => matchesFrom re (Some c) rest' 0
          end
      end
  end.

(** [String.prototype.match] with a [g] pattern: [null] when nothing
    matches, otherwise the array of the matched substrings. *)
Definition String_match (s : jsstring) (re : regex) : option (list jsstring) :=
  match matchesFrom re None s 0 with
  | [] => None
  | ms => Some ms
  end.

(** [String.prototype.replace] with a [g] pattern and a replacement string
    without [$] patterns. *)
Fixpoint replaceFrom (re : regex) (by_ : jsstring) (prev : option N)
  (rest : jsstring) (skip : nat) : jsstring :=
  match skip with
  | S k =>
      match rest with
      | [] => []
      | c :: rest' => replaceFrom re by_ (Some c) rest' k
      end
  | 0 =>
      match matchFrom re prev rest with
      | Some n =>
          by_ ++
          match rest with
          | [] => []
          | c :: rest' =>
              match n with
              | 0 => c :: replaceFrom re by_ (Some c) rest' 0
              | S n' => replaceFrom re by_ (Some c) rest' n'
              end
          end
      | None =>
          match rest with
          | [] => []
          | c :: rest' => c :: replaceFrom re by_ (Some c) rest' 0
          end
      end
  end.

Definition String_replace (s : jsstring) (re : regex) (by_ : jsstring)
  : jsstring :=
  replaceFrom re by_ None s 0.

(** [String.prototype.trim]. *)
Fixpoint trimStart (s : jsstring) : jsstring :=
  match s with
  | c :: s' => if isWhiteSpace c then trimStart s' else s
  | [] => []
  end.

Definition trimEnd (s : jsstring) : jsstring := rev (trimStart (rev s)).

Definition String_trim (s : jsstring) : jsstring := trimEnd (trimStart s).

(** [s.includes(c)] for a one-character needle. *)
Definition String_includes (s : jsstring) (c : N) : bool :=
  existsb (is_char c) s.

(** [s.split(c)] for a one-character separator. *)
Fixpoint String_split (s : jsstring) (c : N) : list jsstring :=
  match s with
  | [] => [[]]
  | x :: s' =>
      if (x =? c)%N then [] :: String_split s' c
      else match String_split s' c with
           | piece :: pieces => (x :: piece) :: pieces
           | [] => [[x]]
           end
  end.

(** ** Numbers

    A JavaScript number is a binary64 float; [PrimFloat] is that format with
    round-to-nearest-even arithmetic and a single NaN. *)

Definition number := float.

Definition signedZero (neg : bool) : number := if neg then neg_zero else zero.
Definition signedInfinity (neg : bool) : number :=
  if neg then neg_infinity else infinity.

(** The decimal digits of [n >= 0], most significant first. *)
Fixpoint digitsFuel (fuel : nat) (n : Z) : jsstring :=
  match fuel with
  | 0 => []
  | S fuel' =>
      if (n <? 10)%Z then [(c_zero + Z.to_N n)%N]
      else digitsFuel fuel' (n / 10) ++ [(c_zero + Z.to_N (n mod 10))%N]
  end.

Definition decimalOfZ (n : Z) : jsstring :=
  digitsFuel (S (Z.to_nat (Z.log2 n))) n.

(** The value [± m * 10^e] rounded to the nearest binary64, ties to even
    (StringToNumber, [parseFloat]).  The first two tests only keep the
    powers of ten small: with [nd] digits in [m] the value lies in
    [10^(e+nd-1), 10^(e+nd)), so it is beyond the largest finite double in
    the first case and below half the smallest one in the second. *)
Definition decimalToNumber (neg : bool) (m e : Z) : number :=
  match m with
  | Zpos p =>
      let nd := Z.of_nat (List.length (decimalOfZ m)) in
      if (310 <? e + nd)%Z then signedInfinity neg
      else if (e + nd <? -330)%Z then signedZero neg
      else if (0 <=? e)%Z then
        SF2Prim (binary_normalize prec emax (cond_Zopp neg (m * 10 ^ e)) 0 false)
      else
        SF2Prim (SFdiv prec emax (S754_finite neg p 0)
                   (S754_finite false (Z.to_pos (10 ^ (- e))) 0))
  | _ => signedZero neg
  end.

Fixpoint span (cls : N -> bool) (s : jsstring) : jsstring * jsstring :=
  match s with
  | c :: s' =>
      if cls c then let '(a, b) := span cls s' in (c :: a, b) else ([], s)
  | [] => ([], [])
  end.

Fixpoint stripPrefix (p s : jsstring) : option jsstring :=
  match p, s with
  | [], _ => Some s
  | x :: p', y :: s' => if (x =? y)%N then stripPrefix p' s' else None
  | _ :: _, [] => None
  end.

Definition digitVal (c : N) : Z := Z.of_N (c - c_zero).

Definition digitsToZ (ds : jsstring) : Z :=
  fold_left (fun acc c => (acc * 10 + digitVal c)%Z) ds 0%Z.

(** An optional sign: whether it is a minus, and what follows it. *)
Definition takeSign (s : jsstring) : bool * jsstring :=
  match s with
  | c :: s' =>
      if (c =? c_minus)%N then (true, s')
      else if (c =? c_plus)%N then (false, s')
      else (false, s)
  | [] => (false, s)
  end.

(** An optional ExponentPart: [e] or [E], an optional sign, digits. *)
Definition takeExponent (s : jsstring) : Z :=
  match s with
  | c :: s' =>
      if (c =? 101)%N || (c =? 69)%N then
        let '(neg, s'') := takeSign s' in
        match fst (span isDigit s'') with
        | [] => 0%Z
        | ds => cond_Zopp neg (digitsToZ ds)
        end
      else 0%Z
  | [] => 0%Z
  end.

(** [parseFloat]: leading white space is skipped, then the longest prefix
    that is a StrDecimalLiteral is converted; NaN when there is none. *)
Definition parseFloat (input : jsstring) : number :=
  let '(neg, s) := takeSign (trimStart input) in
  match stripPrefix (lit "Infinity") s with
  | Some _ => signedInfinity neg
  | None =>
      let '(ip, s1) := span isDigit s in
      let '(fp, s2) :=
        match s1 with
        | c :: s1' => if (c =? c_dot)%N then span isDigit s1' else ([], s1)
        | [] => ([], s1)
        end in
      match ip ++ fp with
      | [] => nan
      | ds =>
          decimalToNumber neg (digitsToZ ds)
            (takeExponent s2 - Z.of_nat (List.length fp))
      end
  end.

Definition isNaN (x : number) : bool := is_nan x.

(** [Math.round]: the integer closest to [x], the larger one at a tie; a
    result that is zero keeps the sign of [x]. *)
Definition Math_round (x : number) : number :=
  match Prim2SF x with
  | S754_finite s m e =>
      if (0 <=? e)%Z then x
      else
        let n := ((2 * cond_Zopp s (Zpos m) + 2 ^ (- e)) / 2 ^ (1 - e))%Z in
        if (n =? 0)%Z then signedZero s
        else SF2Prim (binary_normalize prec emax n 0 false)
  | _ => x
  end.

(** [Number.prototype.toString()], radix 10: the shortest digit string that
    converts back to [x] (the closest to [x] among those, the even one at a
    tie), laid out in positional or exponent notation by its magnitude. *)

(** [floor (num / den * 10^t)] for positive [num], [den]. *)
Definition scaledFloor (num den t : Z) : Z :=
  if (0 <=? t)%Z then (num * 10 ^ t / den)%Z else (num / (den * 10 ^ (- t)))%Z.

(** The [n] with [10^(n-1) <= num/den < 10^n], searched upwards from an
    underestimate taken from the binary logarithms. *)
Fixpoint magnitudeFrom (fuel : nat) (num den n : Z) : Z :=
  match fuel with
  | 0 => n
  | S fuel' =>
      if (scaledFloor num den (- n) =? 0)%Z then n
      else magnitudeFrom fuel' num den (n + 1)
  end.

Definition magnitude (num den : Z) : Z :=
  magnitudeFrom 8 num den ((Z.log2 num - Z.log2 den - 1) * 30103 / 100000 - 1)%Z.

(** With [k] digits: the digits [s] and the exponent [n] of the decimal
    [s * 10^(n-k)] that converts back to [x], if one of the two [k]-digit
    neighbours of [x] does. *)
Definition shortestAt (x : number) (num den n0 : Z) (k : Z) : option (Z * Z) :=
  let lo := scaledFloor num den (k - n0) in
  let hi := (lo + 1)%Z in
  let back s := PrimFloat.Leibniz.eqb (decimalToNumber false s (n0 - k)) x in
  (* twice the distance to [x], scaled by [den * 10^400] to stay integral *)
  let dist s :=
    Z.abs (2 * s * den * 10 ^ (n0 - k + 400) - 2 * num * 10 ^ 400)%Z in
  let norm s := if (s =? 10 ^ k)%Z then (10 ^ (k - 1), n0 + 1)%Z else (s, n0) in
  match back lo && (0 <? lo)%Z, back hi with
  | true, true =>
      match (dist lo ?= dist hi)%Z with
      | Lt => Some (norm lo)
      | Gt => Some (norm hi)
      | Eq => Some (norm (if Z.even lo then lo else hi))
      end
  | true, false => Some (norm lo)
  | false, true => Some (norm hi)
  | false, false => None
  end.

Fixpoint shortestFrom (fuel : nat) (x : number) (num den n0 k : Z)
  : Z * Z * Z :=
  match fuel with
  | 0 => (scaledFloor num den (k - n0), n0, k)
  | S fuel' =>
      match shortestAt x num den n0 k with
      | Some (s, n) => (s, n, k)
      | None => shortestFrom fuel' x num den n0 (k + 1)
      end
  end.

Definition zeros (n : Z) : jsstring := repeat c_zero (Z.to_nat n).

Definition layoutNumber (s n k : Z) : jsstring :=
  let ds := decimalOfZ s in
  if (k <=? n)%Z && (n <=? 21)%Z then ds ++ zeros (n - k)
  else if (0 <? n)%Z && (n <=? 21)%Z then
    firstn (Z.to_nat n) ds ++ [c_dot] ++ skipn (Z.to_nat n) ds
  else if (-6 <? n)%Z && (n <=? 0)%Z then
    lit "0." ++ zeros (- n) ++ ds
  else
    let e := (n - 1)%Z in
    let es := (if (e <? 0)%Z then c_minus else c_plus) :: decimalOfZ (Z.abs e) in
    match ds with
    | [d] => d :: 101%N :: es
    | d :: ds' => d :: c_dot :: ds' ++ 101%N :: es
    | [] => []
    end.

(** The shortest decimal of a finite non-zero number [± m * 2^e]:
    [(s, n, k)] with [k] digits [s] and the value [s * 10^(n-k)]. *)
Definition shortestDecimal (x : number) (m : positive) (e : Z) : Z * Z * Z :=
  let num := (if (0 <=? e)%Z then Zpos m * 2 ^ e else Zpos m)%Z in
  let den := (if (0 <=? e)%Z then 1 else 2 ^ (- e))%Z in
  shortestFrom 17 (abs x) num den (magnitude num den) 1.

Definition Number_toString (x : number) : jsstring :=
  match Prim2SF x with
  | S754_nan => lit "NaN"
  | S754_zero _ => lit "0"
  | S754_infinity s => (if s then [c_minus] else []) ++ lit "Infinity"
  | S754_finite s m e =>
      let '(d, n, k) := shortestDecimal x m e in
      (if s then [c_minus] else []) ++ layoutNumber d n k
  end.

(** ** Values, conversions, exceptions *)

(** The values a record field or a function argument holds. *)
Inductive value : Type :=
  | JUndefined
  | JNull
  | JBool (b : bool)
  | JNum (x : number)
  | JStr (s : jsstring).

(** ToBoolean: what [!v], [v || d] and [if (v)] look at. *)
Definition ToBoolean (v : value) : bool :=
  match v with
  | JUndefined | JNull => false
  | JBool b => b
  | JNum x => negb (is_zero x || is_nan x)
  | JStr s => match s with [] => false | _ :: _ => true end
  end.

(** ToString. *)
Definition ToString (v : value) : jsstring :=
  match v with
  | JUndefined => lit "undefined"
  | JNull => lit "null"
  | JBool b => if b then lit "true" else lit "false"
  | JNum x => Number_toString x
  | JStr s => s
  end.

(** Strict equality [v === s] against a string. *)
Definition strictEqualsString (v : value) (s : jsstring) : bool :=
  match v with
  | JStr t => jsstring_eqb t s
  | _ => false
  end.

Inductive error : Type := RangeError | TypeError.

(** The outcome of an expression that may throw. *)
Inductive completion (A : Type) : Type :=
  | Normal (a : A)
  | Throw (e : error).
Arguments Normal {A} a.
Arguments Throw {A} e.

(** ** Number formatting in the [en-PH] locale

    [Intl.NumberFormat('en-PH', {minimumFractionDigits, maximumFractionDigits})]
    and [Number.prototype.toLocaleString] with the same arguments: decimal
    point [.], groups of three digits separated by [,]; the shortest decimal
    of the value is rounded at [maximumFractionDigits] (ties away from zero,
    as the ICU-based engines do) and trailing zeros are dropped down to
    [minimumFractionDigits]; with [style: 'currency'] and [currency: 'PHP']
    the peso sign goes before the digits and after a minus sign.  A digit
    option above the limit, or a maximum below the minimum, is a
    RangeError. *)

Definition c_infinity : N := 8734.   (* U+221E *)

(** The largest digit option: 100 since ECMA-402 2023 (20 before). *)
Definition fractionDigitsLimit : nat := 100.

(** Exactly [d] digits: [r mod 10^d], zero padded. *)
Fixpoint fixedDigits (d : nat) (r : Z) : jsstring :=
  match d with
  | 0 => []
  | S d' => fixedDigits d' (r / 10) ++ [(c_zero + Z.to_N (r mod 10))%N]
  end.

(** [Number.prototype.toFixed(f)]: the exact value rounded at [f] fraction
    digits (the larger neighbour at a tie); ["NaN"] for NaN, and the
    [toString] form from [10^21] on, infinities included. *)
Definition Number_toFixed (x : number) (f : nat) : jsstring :=
  match Prim2SF x with
  | S754_nan => lit "NaN"
  | S754_infinity _ => Number_toString x
  | S754_zero _ =>
      lit "0" ++ match f with 0 => [] | S _ => c_dot :: fixedDigits f 0 end
  | S754_finite s m e =>
      let num := (if (0 <=? e)%Z then Zpos m * 2 ^ e else Zpos m)%Z in
      let den := (if (0 <=? e)%Z then 1 else 2 ^ (- e))%Z in
      if (10 ^ 21 * den <=? num)%Z then Number_toString x
      else
        let scale := (10 ^ Z.of_nat f)%Z in
        let n := ((2 * num * scale + den) / (2 * den))%Z in
        (if s then [c_minus] else [])
        ++ decimalOfZ (n / scale)
        ++ match f with
           | 0 => []
           | S _ => c_dot :: fixedDigits f (n mod scale)
           end
  end.

(** Commas between groups of three digits; [n] digits are still to come. *)
Fixpoint groupFrom (first : bool) (n : nat) (ds : jsstring) : jsstring :=
  match ds with
  | [] => []
  | c :: ds' =>
      (if negb first && (n mod 3 =? 0) then [c_comma] else [])
      ++ c :: groupFrom false (pred n) ds'
  end.

Definition group (ds : jsstring) : jsstring :=
  groupFrom true (List.length ds) ds.

Fixpoint dropZeros (k : nat) (rds : jsstring) : jsstring :=
  match k, rds with
  | S k', c :: rds' => if (c =? c_zero)%N then dropZeros k' rds' else rds
  | _, _ => rds
  end.

(** The fraction digits: [maxFD] of them, without the trailing zeros beyond
    the first [minFD]. *)
Definition fractionDigits (minFD maxFD : nat) (r : Z) : jsstring :=
  rev (dropZeros (maxFD - minFD) (rev (fixedDigits maxFD r))).

(** [|v|] rounded to [maxFD] fraction digits and scaled by [10^maxFD], for
    the decimal [v = s * 10^q]. *)
Definition roundScaled (s q : Z) (maxFD : nat) : Z :=
  let t := (q + Z.of_nat maxFD)%Z in
  if (0 <=? t)%Z then (s * 10 ^ t)%Z
  else ((2 * s + 10 ^ (- t)) / (2 * 10 ^ (- t)))%Z.

(** Integer digits in groups, then the fraction digits, of [n / 10^maxFD]. *)
Definition layoutFixed (n : Z) (minFD maxFD : nat) : jsstring :=
  let scale := (10 ^ Z.of_nat maxFD)%Z in
  let frac := fractionDigits minFD maxFD (n mod scale) in
  group (decimalOfZ (n / scale))
  ++ match frac with [] => [] | _ :: _ => c_dot :: frac end.

(** The digits of [|x|] for a number [x] that is not NaN. *)
Definition formatMagnitude (x : number) (minFD maxFD : nat) : jsstring :=
  match Prim2SF x with
  | S754_finite _ m e =>
      let '(s, n, k) := shortestDecimal x m e in
      layoutFixed (roundScaled s (n - k) maxFD) minFD maxFD
  | S754_infinity _ => [c_infinity]
  | _ => layoutFixed 0 minFD maxFD
  end.

Definition signOf (x : spec_float) : bool :=
  match x with
  | S754_finite s _ _ | S754_infinity s | S754_zero s => s
  | S754_nan => false
  end.

Inductive style : Type := StyleDecimal | StyleCurrencyPHP.

Definition NumberFormat_enPH (st : style) (minFD maxFD : nat) (x : number)
  : completion jsstring :=
  if (fractionDigitsLimit <? minFD) || (fractionDigitsLimit <? maxFD)
     || (maxFD <? minFD)
  then Throw RangeError
  else
    let sx := Prim2SF x in
    let body :=
      match sx with
      | S754_nan => lit "NaN"
      | _ => formatMagnitude x minFD maxFD
      end in
    Normal ((if signOf sx then [c_minus] else [])
            ++ match st with
               | StyleDecimal => []
               | StyleCurrencyPHP => [c_peso]
               end
            ++ body).

End JS.

(* ================================================================== *)
(** * App.jsx                                                           *)
(* ================================================================== *)

Module App.
Import JS.

(** [cleanLineContent]: an empty string for a falsy [line]; otherwise the
    four [replace] calls and [trim], which only strings have (a TypeError
    for any other truthy value). *)
Definition cleanLineContent (line : value) : completion jsstring :=
  if negb (ToBoolean line) then Normal []
  else
    match line with
    | JStr line =>
        let cleanedLine :=
          String_trim
            (String_replace
               (String_replace
                  (String_replace
                     (String_replace line [Chr c_bar] (lit " "))
                     [Chr c_caret] (lit " "))
                  [Chr c_comma] (lit " "))
               [Plus isWhiteSpace] (lit " ")) in
        Normal cleanedLine
    | _ => Throw TypeError
    end.

(** [/\b\d+\.\d{1,4}\b/g] *)
Definition amountRegex : regex :=
  [Assert AssertWordBoundary; Plus isDigit; Chr c_dot;
   Rep isDigit 1 (Some 4); Assert AssertWordBoundary].

(** [calculateTotalAmount]; [contents] is [None] for an argument that is
    falsy or not an array, otherwise the lines of the array. *)
Definition calculateTotalAmount (contents : option (list jsstring)) : number :=
  match contents with
  | None => zero
  | Some contents =>
      let total :=
        fold_left
          (fun total line =>
             match String_match line amountRegex with
             | Some matches =>
                 fold_left
                   (fun total match_ =>
                      let amount := parseFloat match_ in
                      if negb (isNaN amount) && (0 <? amount)%float
                         && (amount <? 1000000)%float
                      then
                        let roundedAmount :=
                          (Math_round (amount * 100) / 100)%float in
                        (total + roundedAmount)%float
                      else total)
                   matches total
             | None => total
             end)
          contents zero in
      (Math_round (total * 100) / 100)%float
  end.

(** ** The specification's names for the parts of [calculateTotalAmount] *)

(** The substrings of a line that the amount pattern matches. *)
Definition amountTokens (text : jsstring) : list jsstring :=
  match String_match text amountRegex with
  | Some matches => matches
  | None => []
  end.

(** The test a parsed token passes to be added. *)
Definition inRange (amount : number) : bool :=
  negb (isNaN amount) && (0 <? amount)%float && (amount <? 1000000)%float.

(** [Math.round(x * 100) / 100], the rounding used for a token and for the
    total. *)
Definition round2 (x : number) : number := (Math_round (x * 100) / 100)%float.

(** [extractAmounts]: the amounts [calculateTotalAmount] adds for one line,
    in the order in which it adds them. *)
Definition extractAmounts (text : jsstring) : list number :=
  map round2 (filter inRange (map parseFloat (amountTokens text))).

(** [sumAmounts]: the total of a single text. *)
Definition sumAmounts (text : jsstring) : number :=
  calculateTotalAmount (Some [text]).

(** Left-to-right floating-point sum, starting from [0]. *)
Definition sumNumbers (xs : list number) : number :=
  fold_left (fun acc x => (acc + x)%float) xs zero.

End App.

(* ================================================================== *)
(** * components/DataTable.jsx                                          *)
(* ================================================================== *)

Module DataTable.
Import JS.

(** [/[₱,\s]/g] *)
Definition stripRegex : regex :=
  [Class (fun c => is_char c_peso c || is_char c_comma c || isWhiteSpace c)].

(** [/^\d+\.\d+$/] *)
Definition decimalRegex : regex :=
  [Assert AssertStart; Plus isDigit; Chr c_dot; Plus isDigit; Assert AssertEnd].

(** [isAmount] *)
Definition isAmount (value : value) : bool :=
  if negb (ToBoolean value) then false
  else
    let cleanValue :=
      String_replace (String_trim (ToString value)) stripRegex [] in
    let isAmountValue := RegExp_test decimalRegex cleanValue in
    isAmountValue.

Definition zeroString : jsstring := c_peso :: lit "0.00".

(** The body of the [try] block of [formatAmount]. *)
Definition formatAmount_try (amount : value) : completion jsstring :=
  if negb (ToBoolean amount) then Normal zeroString
  else
    let cleanAmount :=
      String_replace (String_trim (ToString amount)) stripRegex [] in
    let numAmount := parseFloat cleanAmount in
    if isNaN numAmount then Normal zeroString
    else
      let decimalPlaces :=
        if String_includes cleanAmount c_dot
        then List.length (nth 1 (String_split cleanAmount c_dot) [])
        else 0 in
      if decimalPlaces =? 1 then
        match NumberFormat_enPH StyleDecimal 1 1 numAmount with
        | Normal s => Normal (c_peso :: s)
        | Throw e => Throw e
        end
      else if decimalPlaces =? 2 then
        NumberFormat_enPH StyleCurrencyPHP 2 2 numAmount
      else
        match NumberFormat_enPH StyleDecimal decimalPlaces decimalPlaces
                numAmount with
        | Normal s => Normal (c_peso :: s)
        | Throw e => Throw e
        end.

(** [formatAmount]: the [catch] clause returns the zero string. *)
Definition formatAmount (amount : value) : jsstring :=
  match formatAmount_try amount with
  | Normal s => s
  | Throw _ => zeroString
  end.

End DataTable.

(* ================================================================== *)
(** * components/Summary.jsx                                            *)
(* ================================================================== *)

Module Summary.
Import JS.

Definition PAYMENT_MODELS : list jsstring :=
  map lit
    ["All"; "Bayad Center"; "Bancnet"; "BDO"; "ECPay"; "SM"; "Eprime"; "LBC";
     "Metrobank"; "Cebuana"; "PrimeTap"; "AllEasy"; "PNB"; "UnionBank";
     "BDO-New"; "Unknown"]%string.

Definition zeroString : jsstring := c_peso :: lit "0.00".

(** [/[₱,]/g] *)
Definition pesoCommaRegex : regex :=
  [Class (fun c => is_char c_peso c || is_char c_comma c)].

(** The body of the [try] block of [formatAmount].  [numAmount] is the
    number [format] sees: the parsed string, or the argument itself
    converted by ToNumber. *)
Definition formatAmount_try (amount : value) : completion jsstring :=
  if negb (ToBoolean amount) then Normal zeroString
  else
    let numAmount :=
      match amount with
      | JStr s => parseFloat (String_replace s pesoCommaRegex [])
      | JNum x => x
      | JBool b => if b then one else zero
      | JNull => zero
      | JUndefined => nan
      end in
    NumberFormat_enPH StyleCurrencyPHP 2 2 numAmount.

(** [formatAmount]: the [catch] clause returns the zero string. *)
Definition formatAmount (amount : value) : jsstring :=
  match formatAmount_try amount with
  | Normal s => s
  | Throw _ => zeroString
  end.

(** ** [PaymentSummaryTable]: the [paymentTotals] memo *)

(** An element of [entries], with the two fields the memo reads. *)
Record entry : Type := {
  paymentType : value;
  amount : value
}.

(** A value of the [totals] object: [{ count, amount }].  [count] starts
    at 0 and grows by 1 per entry, so it is modelled by a natural number. *)
Record bucket : Type := {
  count : nat;
  bucket_amount : number
}.

(** The [totals] object: its own properties in creation order. *)
Definition object := list (jsstring * bucket).

(** The properties every object inherits from [Object.prototype]; all of
    them hold a truthy value. *)
Definition Object_prototype_keys : list jsstring :=
  map lit
    ["constructor"; "__defineGetter__"; "__defineSetter__"; "hasOwnProperty";
     "__lookupGetter__"; "__lookupSetter__"; "isPrototypeOf";
     "propertyIsEnumerable"; "toString"; "valueOf"; "__proto__";
     "toLocaleString"]%string.

Definition inherited (key : jsstring) : bool :=
  existsb (jsstring_eqb key) Object_prototype_keys.

Fixpoint hasOwn (o : object) (key : jsstring) : bool :=
  match o with
  | [] => false
  | (k, _) :: o' => jsstring_eqb k key || hasOwn o' key
  end.

(** Update of the own property [key], if there is one. *)
Fixpoint update (o : object) (key : jsstring) (f : bucket -> bucket) : object :=
  match o with
  | [] => []
  | (k, b) :: o' =>
      if jsstring_eqb k key then (k, f b) :: o' else (k, b) :: update o' key f
  end.

(** An array index: the canonical decimal string of an integer below
    [2^32 - 1]. *)
Definition isArrayIndex (key : jsstring) : bool :=
  forallb isDigit key
  && match key with
     | [] => false
     | [_] => true
     | c :: _ => negb (c =? c_zero)%N
     end
  && (List.length key <=? 10)
  && (digitsToZ key <=? 4294967294)%Z.

Fixpoint insertIndex (kv : jsstring * bucket) (l : object) : object :=
  match l with
  | [] => [kv]
  | kv' :: l' =>
      if (digitsToZ (fst kv) <? digitsToZ (fst kv'))%Z then kv :: l
      else kv' :: insertIndex kv l'
  end.

(** [Object.entries]: array-index keys in ascending numeric order, then
    the other keys in creation order. *)
Definition Object_entries (o : object) : list (jsstring * bucket) :=
  fold_right insertIndex [] (filter (fun kv => isArrayIndex (fst kv)) o)
  ++ filter (fun kv => negb (isArrayIndex (fst kv))) o.

(** A row of the table. *)
Record item : Type := {
  type : jsstring;
  item_count : nat;
  item_amount : number;
  percentage : number
}.

(** [Array.prototype.sort] with [(a, b) => b.amount - a.amount], as a
    stable insertion sort: [a] goes before [b] when the comparator is
    negative; a NaN difference counts as [0].  This is the order of the
    language when no amount is NaN: the comparator is then consistent and
    the sort of the language is stable.  With an amount that is NaN the
    comparator is not consistent and the language leaves the order to the
    engine, which this sort does not follow. *)
Definition comparefn (a b : item) : number :=
  (item_amount b - item_amount a)%float.

Fixpoint insertItem (x : item) (l : list item) : list item :=
  match l with
  | [] => [x]
  | y :: l' =>
      if (comparefn y x <? 0)%float then y :: insertItem x l' else x :: l
  end.

Definition Array_sort (l : list item) : list item :=
  fold_right insertItem [] l.

(** [entry.paymentType || 'Unknown'], as the property key it is used for. *)
Definition typeOf (entry : entry) : jsstring :=
  if ToBoolean (paymentType entry) then ToString (paymentType entry)
  else lit "Unknown".

(** [parseFloat(entry.amount?.toString().replace(/[₱,]/g, '')) || 0]: the
    optional chain yields [undefined] for a missing or null amount, which
    [parseFloat] converts to the string ["undefined"]. *)
Definition amountOf (entry : entry) : number :=
  let parsed :=
    match amount entry with
    | JUndefined | JNull => parseFloat (ToString JUndefined)
    | a => parseFloat (String_replace (ToString a) pesoCommaRegex [])
    end in
  if ToBoolean (JNum parsed) then parsed else zero.

(** The body of [filteredEntries.forEach]. *)
Definition accumulate (state : object * number) (entry : entry)
  : object * number :=
  let '(totals, grandTotal) := state in
  let type := typeOf entry in
  let amount := amountOf entry in
  (* if (!totals[type]) totals[type] = { count: 0, amount: 0 } *)
  let totals :=
    if negb (hasOwn totals type || inherited type)
    then totals ++ [(type, {| count := 0; bucket_amount := zero |})]
    else totals in
  (* totals[type].count += 1; totals[type].amount += amount: on an
     inherited property this changes the built-in, not [totals] *)
  let totals :=
    update totals type
      (fun b => {| count := count b + 1;
                   bucket_amount := (bucket_amount b + amount)%float |}) in
  (totals, (grandTotal + amount)%float).

Definition filteredEntries (entries : list entry) (selectedModel : jsstring)
  : list entry :=
  if jsstring_eqb selectedModel (lit "All") then entries
  else filter (fun entry =>
                 strictEqualsString (paymentType entry) selectedModel)
              entries.

(** The percentage cell of a row: [{percentage.toFixed(2)}%]. *)
Definition percentageCell (it : item) : jsstring :=
  Number_toFixed (percentage it) 2 ++ lit "%".

(** The percentage cell of the grand-total row is the literal [100%]. *)
Definition grandTotalPercentageCell : jsstring := lit "100%".

Record totalsResult : Type := {
  items : list item;
  grandTotal : number
}.

(** [paymentTotals]; [entries] is [None] for a prop that is falsy or not an
    array. *)
Definition paymentTotals (entries : option (list entry))
  (selectedModel : jsstring) : totalsResult :=
  match entries with
  | None => {| items := []; grandTotal := zero |}
  | Some entries =>
      let '(totals, grandTotal) :=
        fold_left accumulate (filteredEntries entries selectedModel)
                  ([], zero) in
      let sortedTotals :=
        Array_sort
          (map (fun '(type, value) =>
                  {| type := type;
                     item_count := count value;
                     item_amount := bucket_amount value;
                     percentage :=
                       (bucket_amount value / grandTotal * 100)%float |})
               (Object_entries totals)) in
      {| items := sortedTotals; grandTotal := grandTotal |}
  end.

End Summary.

(* ================================================================== *)
(** * Vocabulary of the properties                                      *)
(* ================================================================== *)

Module Terms.
Import JS.

(** ** Amount tokens *)

(** The shape the amount pattern asks for: digits, a point, one to four
    digits. *)
Definition amountToken (token : jsstring) : Prop :=
  exists ip fp,
    token = ip ++ c_dot :: fp
    /\ ip <> []
    /\ forallb isDigit ip = true
    /\ forallb isDigit fp = true
    /\ 1 <= List.length fp <= 4.

(** [token] is an amount token at the cursor, delimited by word boundaries:
    the code unit before it ([prev]) and the one after it are not word
    characters (letters, digits, underscore), or are missing. *)
Definition tokenAt (prev : option N) (rest token : jsstring) : Prop :=
  exists rest',
    rest = token ++ rest'
    /\ amountToken token
    /\ isWordOpt prev = false
    /\ isWordOpt (hd_error rest') = false.

(** The last code unit of a text that follows [prev]. *)
Definition lastOf (prev : option N) (s : jsstring) : option N :=
  match s with
  | [] => prev
  | _ :: _ => Some (last s 0%N)
  end.

(** The left-to-right scan for delimited amount tokens: at each cursor the
    token that starts there is taken and the scan resumes after it; where
    none starts, the scan moves one code unit on. *)
Inductive Scan : option N -> jsstring -> list jsstring -> Prop :=
  | Scan_end (prev : option N) :
      Scan prev [] []
  | Scan_skip (prev : option N) (c : N) (rest : jsstring)
              (tokens : list jsstring) :
      (forall token, ~ tokenAt prev (c :: rest) token) ->
      Scan (Some c) rest tokens ->
      Scan prev (c :: rest) tokens
  | Scan_token (prev : option N) (token rest : jsstring)
               (tokens : list jsstring) :
      tokenAt prev (token ++ rest) token ->
      Scan (lastOf prev token) rest tokens ->
      Scan prev (token ++ rest) (token :: tokens).

(** The length of the amount token at the cursor, computed directly. *)
Definition tokenLength (prev : option N) (rest : jsstring) : option nat :=
  if isWordOpt prev then None
  else
    let '(ip, r1) := span isDigit rest in
    match ip, r1 with
    | _ :: _, c :: r2 =>
        if (c =? c_dot)%N then
          let '(fp, r3) := span isDigit r2 in
          if (1 <=? List.length fp) && (List.length fp <=? 4)
             && negb (isWordOpt (hd_error r3))
          then Some (List.length ip + (1 + List.length fp))
          else None
        else None
    | _, _ => None
    end.

(** ** Cleaned lines *)

(** Runs of white space squeezed to one space each; [inRun] tells whether
    the cursor is inside a run. *)
Fixpoint squeeze (inRun : bool) (s : jsstring) : jsstring :=
  match s with
  | [] => []
  | c :: s' =>
      if isWhiteSpace c
      then if inRun then squeeze true s' else c_space :: squeeze true s'
      else c :: squeeze false s'
  end.

(** Every white-space character is a space and no white space follows it. *)
Fixpoint tidy (s : jsstring) : bool :=
  match s with
  | [] => true
  | c :: s' =>
      if isWhiteSpace c
      then (c =? c_space)%N
           && match s' with [] => true | d :: _ => negb (isWhiteSpace d) end
           && tidy s'
      else tidy s'
  end.

Definition isSeparator (c : N) : bool :=
  is_char c_bar c || is_char c_caret c || is_char c_comma c.

Definition noSeparator (s : jsstring) : bool :=
  forallb (fun c => negb (isSeparator c)) s.

(** Each of [|], [^], [,] replaced by a space, one after the other. *)
Definition unseparate (s : jsstring) : jsstring :=
  map (fun c => if (c_comma =? c)%N then c_space else c)
    (map (fun c => if (c_caret =? c)%N then c_space else c)
       (map (fun c => if (c_bar =? c)%N then c_space else c) s)).

(** [clean]: what [cleanLineContent] returns for a string. *)
Definition clean (s : jsstring) : jsstring :=
  match App.cleanLineContent (JStr s) with
  | Normal t => t
  | Throw _ => []
  end.

(** ** Field values that look like amounts *)

(** The characters [isAmount] and [DataTable.formatAmount] strip: the peso
    sign, commas and white space. *)
Definition isStripped (c : N) : bool :=
  is_char c_peso c || is_char c_comma c || isWhiteSpace c.

Definition stripped (s : jsstring) : jsstring :=
  filter (fun c => negb (isStripped c)) s.

(** The whole string is digits, a point, digits. *)
Definition digitsDotDigits (s : jsstring) : Prop :=
  exists ip fp,
    s = ip ++ c_dot :: fp
    /\ ip <> [] /\ fp <> []
    /\ forallb isDigit ip = true
    /\ forallb isDigit fp = true.

(** The same, computed. *)
Definition decimalShape (s : jsstring) : bool :=
  let '(ip, r1) := span isDigit s in
  match ip, r1 with
  | _ :: _, c :: r2 =>
      (c =? c_dot)%N
      && let '(fp, r3) := span isDigit r2 in
         match fp, r3 with
         | _ :: _, [] => true
         | _, _ => false
         end
  | _, _ => false
  end.

(** ** Rendered amounts *)

(** The number of characters after the last point of a rendered amount,
    if it has a point. *)
Fixpoint afterLastDot (s : jsstring) : option nat :=
  match s with
  | [] => None
  | c :: s' =>
      match afterLastDot s' with
      | Some n => Some n
      | None => if (c =? c_dot)%N then Some (List.length s') else None
      end
  end.

(** The decimal places a rendered amount shows. *)
Definition decimalPlaces (s : jsstring) : nat :=
  match afterLastDot s with Some n => n | None => 0 end.

(** A formatter keeps the precision of its source: an amount string with
    [d] fraction digits is rendered with [d] decimal places. *)
Definition preservesPrecision (format : value -> jsstring) : Prop :=
  forall ip fp : jsstring,
    ip <> [] -> fp <> [] ->
    forallb isDigit ip = true -> forallb isDigit fp = true ->
    decimalPlaces (format (JStr (ip ++ c_dot :: fp))) = List.length fp.

(** ** The payment summary *)

(** The value of the own property [key] of [totals]. *)
Fixpoint lookup (o : Summary.object) (key : jsstring)
  : option Summary.bucket :=
  match o with
  | [] => None
  | (k, b) :: o' => if jsstring_eqb k key then Some b else lookup o' key
  end.

(** The entries that are counted under [key]. *)
Definition bucketed (entries : list Summary.entry) (key : jsstring)
  : list Summary.entry :=
  filter (fun entry => jsstring_eqb (Summary.typeOf entry) key) entries.

(** One more entry in a bucket, which is created at [{0, 0}] if missing. *)
Definition addTo (ob : option Summary.bucket) (entry : Summary.entry)
  : option Summary.bucket :=
  let b :=
    match ob with
    | Some b => b
    | None => {| Summary.count := 0; Summary.bucket_amount := zero |}
    end in
  Some {| Summary.count := Summary.count b + 1;
          Summary.bucket_amount :=
            (Summary.bucket_amount b + Summary.amountOf entry)%float |}.

(** The row made from a property of [totals]. *)
Definition rowOf (grandTotal : number) (kv : jsstring * Summary.bucket)
  : Summary.item :=
  {| Summary.type := fst kv;
     Summary.item_count := Summary.count (snd kv);
     Summary.item_amount := Summary.bucket_amount (snd kv);
     Summary.percentage :=
       (Summary.bucket_amount (snd kv) / grandTotal * 100)%float |}.

(** Left-to-right sum of the amounts of some entries, from [start]. *)
Definition sumFrom (start : number) (entries : list Summary.entry) : number :=
  fold_left (fun acc entry => (acc + Summary.amountOf entry)%float)
            entries start.

(** The final state of the loop of [paymentTotals] over a view: the
    [totals] object and the grand total. *)
Definition loopState (view : list Summary.entry) : Summary.object * number :=
  fold_left Summary.accumulate view ([], zero).

(** ** The extraction as the specification words it

    Tokens are the maximal runs of digits and points (any other character
    is a token boundary); a token is an amount when the whole of it is
    digits, a point, and one to four digits. *)

Definition isAmountChar (c : N) : bool := isDigit c || is_char c_dot c.

Definition flush (cur : jsstring) : list jsstring :=
  match cur with [] => [] | _ :: _ => [cur] end.

Fixpoint runs (cls : N -> bool) (cur : jsstring) (s : jsstring)
  : list jsstring :=
  match s with
  | [] => flush cur
  | c :: s' =>
      if cls c then runs cls (cur ++ [c]) s'
      else flush cur ++ runs cls [] s'
  end.

Definition wholeAmount (token : jsstring) : bool :=
  let '(ip, r1) := span isDigit token in
  match ip, r1 with
  | _ :: _, c :: r2 =>
      (c =? c_dot)%N
      && let '(fp, r3) := span isDigit r2 in
         (1 <=? List.length fp) && (List.length fp <=? 4)
         && match r3 with [] => true | _ :: _ => false end
  | _, _ => false
  end.

Definition specTokens (text : jsstring) : list jsstring :=
  filter wholeAmount (runs isAmountChar [] text).

Definition specExtractAmounts (text : jsstring) : list number :=
  map App.round2 (filter App.inRange (map parseFloat (specTokens text))).

(** ** Rounding to two decimals as the specification words it

    Half-up rounding to two decimal places is exact arithmetic on the
    amount: the hundredths nearest to it, the larger number of them at a
    tie.  The amount of a token is the decimal number it writes; the
    amount of a number is the value it holds. *)





(** ** [Math.round] in exact terms *)



End Terms.

(* ================================================================== *)
(** * More of the runtime: string search, arrays, objects              *)
(* ================================================================== *)

Module Runtime.
Import JS.

(** ** Strings *)

(** [s.includes(search)], [s.indexOf(search) !== -1]: [search] occurs at
    some position of [s]. *)
Fixpoint String_includes_string (s search : jsstring) : bool :=
  match stripPrefix search s with
  | Some _ => true
  | None =>
      match s with
      | [] => false
      | _ :: s' => String_includes_string s' search
      end
  end.

(** [s.split(sep)] for a separator string that is not empty: the pieces
    between the occurrences of [sep], found from the left; [skip] counts
    the characters still inside the occurrence just found. *)
Fixpoint splitFrom (sep s : jsstring) (skip : nat) : list jsstring :=
  match s with
  | [] => [[]]
  | c :: s' =>
      match skip with
      | S k => splitFrom sep s' k
      | 0 =>
          match stripPrefix sep s with
          | Some _ => [] :: splitFrom sep s' (pred (List.length sep))
          | None =>
              match splitFrom sep s' 0 with
              | piece :: pieces => (c :: piece) :: pieces
              | [] => [[c]]
              end
          end
      end
  end.

(** [s.split(sep)]; an empty separator splits between the code units. *)
Definition String_split_string (s sep : jsstring) : list jsstring :=
  match sep with
  | [] => map (fun c => [c]) s
  | _ :: _ => splitFrom sep s 0
  end.

(** [s.lastIndexOf(c)] for a one-character needle: [-1] when [c] does not
    occur. *)
Fixpoint lastIndexFrom (i : Z) (s : jsstring) (c : N) (found : Z) : Z :=
  match s with
  | [] => found
  | x :: s' => lastIndexFrom (i + 1) s' c (if (x =? c)%N then i else found)
  end.

Definition String_lastIndexOf (s : jsstring) (c : N) : Z :=
  lastIndexFrom 0 s c (-1).

(** [s.substring(start)]: [start] is clamped to [0 .. s.length]. *)
Definition String_substring (s : jsstring) (start : Z) : jsstring :=
  skipn (Z.to_nat (Z.max 0 (Z.min start (Z.of_nat (List.length s))))) s.

(** ** Arrays

    Array lengths and indices are integers far below [2^53], where the
    arithmetic of numbers is exact: they are modelled by [Z]. *)

(** A relative index of [slice]: counted from the end when negative,
    clamped to [0 .. len]. *)
Definition relativeIndex (len i : Z) : Z :=
  if (i <? 0)%Z then Z.max (len + i) 0 else Z.min i len.

(** [Array.prototype.slice(start, end)] and [String.prototype.slice]. *)
Definition slice {A : Type} (l : list A) (start end_ : Z) : list A :=
  let len := Z.of_nat (List.length l) in
  let k := relativeIndex len start in
  let final := relativeIndex len end_ in
  firstn (Z.to_nat (final - k)) (skipn (Z.to_nat k) l).

(** [Array.prototype.join(sep)] on an array of strings. *)
Fixpoint Array_join (l : list jsstring) (sep : jsstring) : jsstring :=
  match l with
  | [] => []
  | [x] => x
  | x :: l' => x ++ sep ++ Array_join l' sep
  end.

(** [Array.prototype.sort(comparefn)] as a stable insertion sort: [a] goes
    before [b] when [comparefn a b] is negative; a NaN counts as [0].  This
    is the order of the language for a consistent comparator, such as a
    difference of numbers none of which is NaN.  With a comparator that is
    not consistent (a difference with a NaN operand) the language leaves
    the order to the engine, which this sort does not follow. *)
Fixpoint insertBy {A : Type} (comparefn : A -> A -> number) (x : A)
  (l : list A) : list A :=
  match l with
  | [] => [x]
  | y :: l' =>
      if (comparefn y x <? 0)%float then y :: insertBy comparefn x l'
      else x :: l
  end.

Definition Array_sort {A : Type} (comparefn : A -> A -> number) (l : list A)
  : list A :=
  fold_right (insertBy comparefn) [] l.

(** [Math.ceil(a / b)] for an array length [a] and a positive integer [b].
    The quotient is not always a binary64 number, but for a length below
    [2^32] its rounding error is below [2^-21], while a quotient that is
    not an integer is at least [1 / b] away from the integers: for the
    page size the ceiling is the exact one. *)
Definition Math_ceil_div (a b : Z) : Z := (- ((- a) / b))%Z.

(** [new Set()], [add], [Array.from]: the elements in insertion order. *)
Definition Set_add (keys : list jsstring) (key : jsstring) : list jsstring :=
  if existsb (jsstring_eqb key) keys then keys else keys ++ [key].

(** ** Objects

    An object by its own enumerable string-keyed properties, in creation
    order. *)
Definition props (A : Type) : Type := list (jsstring * A).

Fixpoint insertIndexed {A : Type} (kv : jsstring * A) (l : props A)
  : props A :=
  match l with
  | [] => [kv]
  | kv' :: l' =>
      if (digitsToZ (fst kv) <? digitsToZ (fst kv'))%Z then kv :: l
      else kv' :: insertIndexed kv l'
  end.

(** [Object.entries]: array-index keys in ascending numeric order, then
    the other keys in creation order. *)
Definition Object_entries {A : Type} (o : props A) : list (jsstring * A) :=
  fold_right insertIndexed []
    (filter (fun kv => Summary.isArrayIndex (fst kv)) o)
  ++ filter (fun kv => negb (Summary.isArrayIndex (fst kv))) o.

Definition Object_keys {A : Type} (o : props A) : list jsstring :=
  map fst (Object_entries o).

Definition Object_values {A : Type} (o : props A) : list A :=
  map snd (Object_entries o).

(** The own property [key], if there is one. *)
Fixpoint getOwn {A : Type} (o : props A) (key : jsstring) : option A :=
  match o with
  | [] => None
  | (k, v) :: o' => if jsstring_eqb k key then Some v else getOwn o' key
  end.

(** ** Thrown [Error] objects *)

(** The outcome of a function that returns or throws [new Error(message)]. *)
Inductive outcome (A : Type) : Type :=
  | Returns (a : A)
  | Throws (message : jsstring).
Arguments Returns {A} a.
Arguments Throws {A} message.

End Runtime.

(* ================================================================== *)
(** * App.jsx: the search over the raw lines, the report file name      *)
(* ================================================================== *)

Module AppView.
Import JS Runtime.

Section Search.

(** [String.prototype.toLowerCase], the Unicode mapping of the engine. *)
Variable toLowerCase : jsstring -> jsstring.


End Search.

(** [uploadedFile?.name || 'report']; [name] is [None] without an uploaded
    file. *)
Definition originalFileName (name : option jsstring) : jsstring :=
  match name with
  | Some (c :: s) => c :: s
  | _ => lit "report"
  end.

(** [originalFileName.split('.').slice(0, -1).join('.')] *)
Definition baseFileName (name : option jsstring) : jsstring :=
  Array_join (slice (String_split (originalFileName name) c_dot) 0 (-1))
             (lit ".").

Definition c_quote : N := 34.       (* the double quote *)
Definition c_colon : N := 58.

(** The name the report is saved under, in [handleGenerateReport]:
    [contentDisposition] is the response header, if there is one, and
    [toISOString] the value of [new Date().toISOString()]. *)
Definition filename (contentDisposition : option jsstring)
  (baseFileName toISOString : jsstring) : completion jsstring :=
  match contentDisposition with
  | Some (c :: header) =>
      (* contentDisposition.split('filename=')[1], without its double
         quotes *)
      match nth_error (String_split_string (c :: header) (lit "filename=")) 1
      with
      | Some piece => Normal (String_replace piece [Chr c_quote] [])
      | None => Throw TypeError
      end
  | _ =>
      Normal (baseFileName ++ lit "_"
              ++ String_replace (slice toISOString 0 19)
                   [Class (is_char c_colon)] []
              ++ lit ".zip")
  end.

End AppView.

(* ================================================================== *)
(** * components/DataTable.jsx: the memos, the pages, the cells         *)
(* ================================================================== *)

Module Table.
Import JS Runtime.

(** A row of [data]: an object whose fields hold primitive values. *)
Definition row : Type := props value.

(** [row.amount] *)
Definition amountField (r : row) : value :=
  match getOwn r (lit "amount") with
  | Some v => v
  | None => JUndefined
  end.

Record summaryResult : Type := {
  totalRows : nat;
  amountCount : nat;
  totalAmount : number
}.

(** The body of [data.forEach] in the [summary] memo. *)
Definition addRow (state : number * nat) (r : row) : number * nat :=
  let '(totalAmount, amountCount) := state in
  if ToBoolean (amountField r) then
    let cleanValue :=
      String_replace (String_trim (ToString (amountField r)))
                     DataTable.stripRegex [] in
    let amount := parseFloat cleanValue in
    if negb (isNaN amount)
    then ((totalAmount + amount)%float, amountCount + 1)
    else (totalAmount, amountCount)
  else (totalAmount, amountCount).

(** The [summary] memo; [data] is [None] for a prop that is falsy or not an
    array, and the result is [None] for [null]. *)
Definition summary (data : option (list row)) : option summaryResult :=
  match data with
  | None => None
  | Some data =>
      let '(totalAmount, amountCount) := fold_left addRow data (zero, 0) in
      Some {| totalRows := List.length data;
              amountCount := amountCount;
              totalAmount := totalAmount |}
  end.

Section Search.

Variable toLowerCase : jsstring -> jsstring.

(** The [filteredData] memo. *)
Definition filteredData (data : option (list row)) (searchTerm : jsstring)
  : list row :=
  match data with
  | None => []
  | Some data =>
      if ToBoolean (JStr searchTerm) then
        filter
          (fun row =>
             existsb
               (fun value =>
                  ToBoolean value
                  && String_includes_string (toLowerCase (ToString value))
                       (toLowerCase searchTerm))
               (Object_values row))
          data
      else data
  end.

End Search.

(** ** Pagination *)

Definition rowsPerPage : Z := 50.

Definition totalPages {A : Type} (filteredData : list A) : Z :=
  Math_ceil_div (Z.of_nat (List.length filteredData)) rowsPerPage.

Definition startIndex (currentPage : Z) : Z :=
  ((currentPage - 1) * rowsPerPage)%Z.

Definition endIndex (currentPage : Z) : Z :=
  (startIndex currentPage + rowsPerPage)%Z.

Definition currentData {A : Type} (filteredData : list A) (currentPage : Z)
  : list A :=
  slice filteredData (startIndex currentPage) (endIndex currentPage).

(** ** The page controls *)

(** The four buttons of the pagination bar. *)
Inductive button : Type := First | Previous | Next | Last.

(** The [disabled] attribute of a button. *)
Definition disabled (b : button) (currentPage totalPages : Z) : bool :=
  match b with
  | First | Previous => (currentPage =? 1)%Z
  | Next | Last => (currentPage =? totalPages)%Z
  end.

(** The page that the [onClick] of a button hands to [handlePageChange]. *)
Definition clicked (b : button) (currentPage totalPages : Z) : Z :=
  match b with
  | First => 1
  | Previous => currentPage - 1
  | Next => currentPage + 1
  | Last => totalPages
  end%Z.

(** The state of the component: [useState('')] and [useState(1)]. *)
Record state : Type := {
  searchTerm : jsstring;
  currentPage : Z
}.

Definition initialState : state := {| searchTerm := []; currentPage := 1 |}.

(** What the user does: a click on a button, or a change of the search
    box to [value]. *)
Inductive event : Type :=
  | Click (b : button)
  | Change (value : jsstring).

Section Controls.

Variable toLowerCase : jsstring -> jsstring.

(** The [data] prop, an array that is not empty. *)
Variable data : list row.

(** The rows that match the search of a state. *)
Definition shownRows (st : state) : list row :=
  filteredData toLowerCase (Some data) (searchTerm st).

(** The state after an event.  The buttons are there when
    [totalPages > 1], and a button that is disabled takes no click; the
    search box sets the term and goes back to the first page. *)
Definition handle (st : state) (e : event) : state :=
  match e with
  | Change value => {| searchTerm := value; currentPage := 1 |}
  | Click b =>
      let totalPages := totalPages (shownRows st) in
      if (1 <? totalPages)%Z
         && negb (disabled b (currentPage st) totalPages)
      then {| searchTerm := searchTerm st;
              currentPage := clicked b (currentPage st) totalPages |}
      else st
  end.

End Controls.

(** ** Columns *)

(** The [columns] memo: the keys of the rows, first seen first, without
    [raw_lines] and [line_number]. *)
Definition columns (data : list row) : list jsstring :=
  fold_left
    (fun keys row =>
       fold_left
         (fun keys key =>
            if negb (jsstring_eqb key (lit "raw_lines"))
               && negb (jsstring_eqb key (lit "line_number"))
            then Set_add keys key
            else keys)
         (Object_keys row) keys)
    data [].

(** ** Cells *)

(** [/^\d+$/] *)
Definition digitsRegex : regex :=
  [Assert AssertStart; Plus isDigit; Assert AssertEnd].

(** [value && value.length > 30]: only strings have a length. *)
Definition isLong (value : value) : bool :=
  ToBoolean value
  && match value with
     | JStr s => 30 <? List.length s
     | _ => false
     end.

(** The class of the cell of [value] in [column]. *)
Definition className (column : jsstring) (value : value) : jsstring :=
  if jsstring_eqb column (lit "amount") || DataTable.isAmount value
  then lit "amount"
  else if RegExp_test digitsRegex (ToString value) then lit "code"
  else if isLong value then lit "long-text"
  else lit "text".

(** What the cell shows. *)
Definition cellContent (column : jsstring) (value : value) : JS.value :=
  if jsstring_eqb column (lit "amount") || DataTable.isAmount value
  then JStr (DataTable.formatAmount value)
  else value.

(** The cell of [value] in [column]: none for the column [raw_lines]. *)
Definition cell (column : jsstring) (value : value)
  : option (jsstring * JS.value) :=
  if jsstring_eqb column (lit "raw_lines") then None
  else Some (className column value, cellContent column value).

End Table.

(* ================================================================== *)
(** * components/Summary.jsx: the cards and the rows of the table       *)
(* ================================================================== *)

Module Cards.
Import JS Runtime.

(** [SummaryCard]: the five largest entries of [data]; [data] is [None]
    for a falsy prop. *)
Definition sortedData (data : option (props number))
  : list (jsstring * number) :=
  let safeData := match data with Some data => data | None => [] end in
  slice
    (Array_sort (fun a b => (snd b - snd a)%float) (Object_entries safeData))
    0 5.

Section Badge.

Variable toLowerCase : jsstring -> jsstring.

(** [/[^a-z0-9]/g] *)
Definition notLowerAlnum : regex :=
  [Class (fun c => negb (in_range 97 122 c || in_range 48 57 c))].

(** The class of the badge of a payment type:
    [type.toLowerCase().replace(/[^a-z0-9]/g, '-')]. *)
Definition badgeClass (type : jsstring) : jsstring :=
  String_replace (toLowerCase type) notLowerAlnum (lit "-").

End Badge.

(** The cells of the grand-total row. *)
Definition grandTotalCount (r : Summary.totalsResult) : nat :=
  fold_left (fun sum item => sum + Summary.item_count item)
            (Summary.items r) 0.

Definition grandTotalAmountCell (r : Summary.totalsResult) : jsstring :=
  Summary.formatAmount (JNum (Summary.grandTotal r)).

(** The amount cell of a row. *)
Definition amountCell (it : Summary.item) : jsstring :=
  Summary.formatAmount (JNum (Summary.item_amount it)).

End Cards.

(* ================================================================== *)
(** * components/FileUpload.jsx                                         *)
(* ================================================================== *)

Module FileUpload.
Import JS Runtime.

(** The fields of a [File] that [validateFile] reads. *)
Record file : Type := {
  type : jsstring;
  name : jsstring;
  size : Z
}.

Definition validTypes : list jsstring :=
  map lit [".txt"; ".csv"; "text/plain"; "text/csv"]%string.

Definition maxSize : Z := (10 * 1024 * 1024)%Z.

Section Validation.

Variable toLowerCase : jsstring -> jsstring.

(** [file.type || file.name.substring(file.name.lastIndexOf('.'))] *)
Definition fileType (f : file) : jsstring :=
  match type f with
  | _ :: _ => type f
  | [] => String_substring (name f) (String_lastIndexOf (name f) c_dot)
  end.

(** [validateFile]; [file] is [None] for [undefined]. *)
Definition validateFile (file : option file) : outcome bool :=
  match file with
  | None => Throws (lit "No file selected")
  | Some file =>
      if negb (existsb
                 (fun type =>
                    String_includes_string (toLowerCase (fileType file))
                      (toLowerCase type))
                 validTypes)
      then Throws (lit "Please upload a .txt or .csv file")
      else if (maxSize <? size file)%Z
      then Throws (lit "File size must be less than 10MB")
      else Returns true
  end.

(** What a handler does, in order. *)
Inductive action : Type :=
  | OnFileUpload (f : file)
  | Alert (message : jsstring)
  | ResetInput.

(** The [try] block of both handlers, with its [catch]: [files] is
    [event.target.files] or [event.dataTransfer.files]. *)
Definition tryUpload (files : list file) : list action :=
  match validateFile (hd_error files) with
  | Returns ok =>
      match hd_error files with
      | Some f => if ok then [OnFileUpload f] else []
      | None => []
      end
  | Throws message => [Alert message]
  end.

(** [handleFileChange]: the [finally] clause resets the input. *)
Definition handleFileChange (files : list file) : list action :=
  tryUpload files ++ [ResetInput].

(** [handleDrop] *)
Definition handleDrop (files : list file) : list action :=
  tryUpload files.

End Validation.

End FileUpload.

(* ================================================================== *)
(** * Vocabulary of the further properties                              *)
(* ================================================================== *)

Module Props.
Import JS Runtime.

(** ** Lines *)

(** A character of a field of a line: neither white space nor one of the
    separators [|], [^], [,]. *)
Definition inField (c : N) : bool :=
  negb (isWhiteSpace c || Terms.isSeparator c).

(** The fields of a line, in order: its maximal runs of field
    characters. *)
Definition fields (s : jsstring) : list jsstring :=
  Terms.runs inField [] s.

(** A character that an amount can be written with or that can touch one
    without ending it: a word character or a point.  Every other character
    delimits the amounts on both sides of it. *)
Definition sticky (c : N) : bool := isWordChar c || is_char c_dot c.

(** No white space at either end. *)
Definition trimmed (s : jsstring) : Prop :=
  match s with [] => True | c :: _ => isWhiteSpace c = false end
  /\ match rev s with [] => True | c :: _ => isWhiteSpace c = false end.

(** ** The table *)

(** The keys that become columns. *)
Definition shownKey (key : jsstring) : bool :=
  negb (jsstring_eqb key (lit "raw_lines"))
  && negb (jsstring_eqb key (lit "line_number")).

(** The keys seen so far, and one more key. *)
Definition addKey (keys : list jsstring) (key : jsstring) : list jsstring :=
  if shownKey key then Set_add keys key else keys.

(** The keys seen so far, and the keys of one more row. *)
Definition addKeys (keys : list jsstring) (row : Table.row)
  : list jsstring :=
  fold_left addKey (Object_keys row) keys.

(** A cell that is shown as an amount: it is in the column [amount], or
    its text without peso signs, commas and white space is digits, a point,
    digits. *)
Definition amountCell (column : jsstring) (value : value) : Prop :=
  column = lit "amount"
  \/ Terms.digitsDotDigits (Terms.stripped (ToString value)).

(** A text made of digits only, at least one. *)
Definition allDigits (s : jsstring) : Prop :=
  s <> [] /\ forallb isDigit s = true.

(** A string of more than 30 code units. *)
Definition longString (value : value) : Prop :=
  exists s, value = JStr s /\ 30 < List.length s.

(** A rendered amount begins with the peso sign, after a minus sign if
    there is one. *)
Definition pesoMarked (s : jsstring) : Prop :=
  exists rest, s = c_peso :: rest \/ s = c_minus :: c_peso :: rest.

(** ** Sorting and totals *)

(** Negative: what [x < 0] tests. *)
Definition SFnegative (x : spec_float) : bool :=
  SFltb x (S754_zero false).

(** [a] may stand before [b]: the comparator does not put [b] first. *)
Definition inOrder {A : Type} (comparefn : A -> A -> number) (a b : A)
  : Prop :=
  (comparefn b a <? 0)%float = false.

(** The counts of the buckets of [totals], added up. *)
Definition countSum (totals : Summary.object) : nat :=
  list_sum (map (fun kv => Summary.count (snd kv)) totals).

(** An entry that gets a bucket: its type is not the name of a property
    that every object inherits. *)
Definition bucketable (entry : Summary.entry) : bool :=
  negb (Summary.inherited (Summary.typeOf entry)).

(** ** Letter case *)

(** The lower-case form of an ASCII code unit. *)
Definition asciiLower (c : N) : N :=
  if in_range 65 90 c then (c + 32)%N else c.

Definition isASCII (s : jsstring) : bool :=
  forallb (fun c => (c <? 128)%N) s.

(** What is used of [toLowerCase]: on a text of ASCII code units it maps
    the letters [A] to [Z] to [a] to [z] and keeps the rest. *)
Definition lowersASCII (toLowerCase : jsstring -> jsstring) : Prop :=
  forall s, isASCII s = true -> toLowerCase s = map asciiLower s.

(** A character of a badge class: a lower-case ASCII letter, a digit or a
    hyphen. *)
Definition badgeChar (c : N) : bool :=
  in_range 97 122 c || in_range 48 57 c || is_char 45 c.

(** ** The summary of the table *)

(** The number [parseFloat] reads in the amount of a row. *)
Definition parsedAmount (r : Table.row) : number :=
  parseFloat (Terms.stripped (ToString (Table.amountField r))).

(** A row that the summary counts: its amount is truthy and is read as a
    number. *)
Definition counted (r : Table.row) : bool :=
  ToBoolean (Table.amountField r) && negb (isNaN (parsedAmount r)).

(** ** Search *)

(** [t] occurs in [s]. *)
Definition infix (t s : jsstring) : Prop :=
  exists pre post, s = pre ++ t ++ post.


End Props.

(* ================================================================== *)
(** * Amount extraction and summation ([calculateTotalAmount])          *)
(* ================================================================== *)

Section AmountSum.
Import JS App.

(** The loop over the matches of one line adds, to the running total, the
    rounded in-range amounts in order. *)
Lemma matches_loop_sum (matches : list jsstring) (total : number) :
  fold_left
    (fun total match_ =>
       let amount := parseFloat match_ in
       if negb (isNaN amount) && (0 <? amount)%float
          && (amount <? 1000000)%float
       then
         let roundedAmount := (Math_round (amount * 100) / 100)%float in
         (total + roundedAmount)%float
       else total)
    matches total
  = fold_left (fun acc x => (acc + x)%float)
      (map round2 (filter inRange (map parseFloat matches))) total.
Proof.
  revert total.
  induction matches as [|m ms IH]; intros total; simpl; [reflexivity|].
  unfold inRange at 1.
  destruct (negb (isNaN (parseFloat m)) && (0 <? parseFloat m)%float
            && (parseFloat m <? 1000000)%float); simpl; apply IH.
Qed.

(** The loop over the lines adds the amounts of each line in turn. *)
Lemma lines_loop_sum (contents : list jsstring) (total : number) :
  fold_left
    (fun total line =>
       match String_match line amountRegex with
       | Some matches =>
           fold_left
             (fun total match_ =>
                let amount := parseFloat match_ in
                if negb (isNaN amount) && (0 <? amount)%float
                   && (amount <? 1000000)%float
                then
                  let roundedAmount :=
                    (Math_round (amount * 100) / 100)%float in
                  (total + roundedAmount)%float
                else total)
             matches total
       | None => total
       end)
    contents total
  = fold_left (fun acc x => (acc + x)%float)
      (flat_map extractAmounts contents) total.
Proof.
  revert total.
  induction contents as [|line lines IH]; intros total; simpl; [reflexivity|].
  rewrite fold_left_app, IH. f_equal.
  unfold extractAmounts, amountTokens.
  destruct (String_match line amountRegex) as [ms|]; simpl; [|reflexivity].
  apply matches_loop_sum.
Qed.

Lemma calculateTotalAmount_sum (contents : list jsstring) :
  calculateTotalAmount (Some contents)
  = round2 (sumNumbers (flat_map extractAmounts contents)).
Proof.
  unfold calculateTotalAmount, round2, sumNumbers.
  rewrite lines_loop_sum. reflexivity.
Qed.

Lemma extractAmounts_kept (text : jsstring) (a : number) :
  In a (extractAmounts text) <->
  exists token, In token (amountTokens text)
                /\ inRange (parseFloat token) = true
                /\ a = round2 (parseFloat token).
Proof.
  unfold extractAmounts. rewrite in_map_iff. split.
  - intros (p & <- & Hp). apply filter_In in Hp as [Hp Hr].
    apply in_map_iff in Hp as (tok & <- & Htok).
    exists tok. auto.
  - intros (tok & Htok & Hr & ->).
    exists (parseFloat tok). split; [reflexivity|].
    apply filter_In. split; [|assumption].
    apply in_map. assumption.
Qed.

Lemma inRange_bounds (amount : number) :
  inRange amount = true <->
  isNaN amount = false /\ (0 <? amount)%float = true
  /\ (amount <? 1000000)%float = true.
Proof.
  unfold inRange. rewrite !andb_true_iff, negb_true_iff. tauto.
Qed.

End AmountSum.

Section Rounding.
Import JS App.



End Rounding.



(** C4 (as stated, refuted): the token ["999999.999"] passes the range
    test and is kept as [1000000], which is not strictly less than
    1,000,000; the total of that text alone is [1000000]. *)
Lemma C4_counterexample_kept_amount_reaches_bound :
  ~ (forall (text : JS.jsstring) (a : JS.number),
        In a (App.extractAmounts text) ->
        (0 <? a)%float = true /\ (a <? 1000000)%float = true).
Proof.
  intros H.
  destruct (H (JS.lit "999999.999") 1000000%float) as [_ Hlt].
  - vm_compute. left. reflexivity.
  - vm_compute in Hlt. discriminate.
Qed.

Lemma sumAmounts_upper_bound_reached :
  App.extractAmounts (JS.lit "999999.999") = [1000000%float]
  /\ App.sumAmounts (JS.lit "999999.999") = 1000000%float.
Proof. split; vm_compute; reflexivity. Qed.

(** At the other end the kept amount can be [0]: ["0.001"] is in range and
    rounds to [0]. *)
Lemma extractAmounts_lower_bound_reached :
  App.extractAmounts (JS.lit "0.001") = [0%float].
Proof. vm_compute. reflexivity. Qed.

(** C4 (amended): every amount kept by [extractAmounts] is the two-decimal
    rounding of a matched token whose parsed value is not NaN, strictly
    greater than 0 and strictly less than 1,000,000; tokens outside that
    range are discarded; and
    [extractAmounts("999999.99 1000000.00 0.00") = [999999.99]]. *)
Theorem C4_kept_amounts_come_from_tokens_in_range
  (text : JS.jsstring) (a : JS.number)
  (Hkept : In a (App.extractAmounts text)) :
  (exists token,
      In token (App.amountTokens text)
      /\ a = App.round2 (JS.parseFloat token)
      /\ JS.isNaN (JS.parseFloat token) = false
      /\ (0 <? JS.parseFloat token)%float = true
      /\ (JS.parseFloat token <? 1000000)%float = true)
  /\ App.extractAmounts (JS.lit "999999.99 1000000.00 0.00")
     = [JS.parseFloat (JS.lit "999999.99")].
Proof.
  split.
  - apply extractAmounts_kept in Hkept as (tok & Htok & Hr & ->).
    apply inRange_bounds in Hr as (Hn & H0 & H1).
    exists tok. auto.
  - vm_compute. reflexivity.
Qed.

Lemma C4_witness :
  In 12.34%float (App.extractAmounts (JS.lit "Paid 12.34 and 0.5 today"))
  /\ ((exists token,
          In token (App.amountTokens (JS.lit "Paid 12.34 and 0.5 today"))
          /\ 12.34%float = App.round2 (JS.parseFloat token)
          /\ JS.isNaN (JS.parseFloat token) = false
          /\ (0 <? JS.parseFloat token)%float = true
          /\ (JS.parseFloat token <? 1000000)%float = true)
      /\ App.extractAmounts (JS.lit "999999.99 1000000.00 0.00")
         = [JS.parseFloat (JS.lit "999999.99")]).
Proof.
  assert (H : In 12.34%float
                (App.extractAmounts (JS.lit "Paid 12.34 and 0.5 today")))
    by (vm_compute; left; reflexivity).
  split; [exact H|].
  exact (C4_kept_amounts_come_from_tokens_in_range _ _ H).
Defined.

(* ================================================================== *)
(** * The amount pattern [/\b\d+\.\d{1,4}\b/g]                          *)
(* ================================================================== *)

Section RegexFacts.
Import JS.

Lemma span_app_eq (cls : N -> bool) (s : jsstring) :
  s = fst (span cls s) ++ snd (span cls s).
Proof.
  induction s as [|c s IH]; simpl; [reflexivity|].
  destruct (cls c); [|reflexivity].
  destruct (span cls s) as [a b]; simpl in *. congruence.
Qed.

Lemma span_fst_all (cls : N -> bool) (s : jsstring) :
  forallb cls (fst (span cls s)) = true.
Proof.
  induction s as [|c s IH]; simpl; [reflexivity|].
  destruct (cls c) eqn:Hc; [|reflexivity].
  destruct (span cls s) as [a b]; simpl in *. now rewrite Hc.
Qed.

Lemma span_snd_head (cls : N -> bool) (s : jsstring) (c : N) (r : jsstring) :
  snd (span cls s) = c :: r -> cls c = false.
Proof.
  induction s as [|x s IH]; simpl; [discriminate|].
  destruct (cls x) eqn:Hx.
  - destruct (span cls s) as [a b]; simpl in *. exact IH.
  - simpl. intros [= <- <-]. exact Hx.
Qed.

(** A run followed by something that does not continue it is what [span]
    splits off. *)
Lemma span_run (cls : N -> bool) (a b : jsstring) :
  forallb cls a = true ->
  match b with [] => True | c :: _ => cls c = false end ->
  span cls (a ++ b) = (a, b).
Proof.
  intros Ha Hb. induction a as [|x a IH]; simpl in *.
  - destruct b as [|c b]; [reflexivity|]. simpl. now rewrite Hb.
  - apply andb_true_iff in Ha as [Hx Ha]. rewrite Hx, (IH Ha). reflexivity.
Qed.

Lemma greedy_open (cls : N -> bool) (s : jsstring) :
  greedy cls None s = List.length (fst (span cls s)).
Proof.
  induction s as [|c s IH]; simpl; [reflexivity|].
  destruct (cls c); [|reflexivity].
  simpl in IH. rewrite IH. destruct (span cls s); reflexivity.
Qed.

Lemma greedy_bounded (cls : N -> bool) (h : nat) (s : jsstring) :
  greedy cls (Some h) s = Nat.min h (List.length (fst (span cls s))).
Proof.
  revert h. induction s as [|c s IH]; intros [|h]; simpl; try reflexivity.
  destruct (cls c); [|reflexivity].
  rewrite IH. destruct (span cls s); reflexivity.
Qed.

Lemma matchFrom_Assert (a : assertion) (re : regex) (prev : option N)
  (rest : jsstring) :
  matchFrom (Assert a :: re) prev rest
  = if holds a prev rest then matchFrom re prev rest else None.
Proof. reflexivity. Qed.

Lemma matchFrom_Rep (cls : N -> bool) (lo : nat) (hi : option nat)
  (re : regex) (prev : option N) (rest : jsstring) :
  matchFrom (Rep cls lo hi :: re) prev rest
  = tryDown (fun k => matchFrom re (prev_after k prev rest) (skipn k rest))
      lo (greedy cls hi rest).
Proof. reflexivity. Qed.

Lemma greedy_zero (cls : N -> bool) (s : jsstring) : greedy cls (Some 0) s = 0.
Proof. destruct s; reflexivity. Qed.

(** When no shorter repetition lets the rest of the pattern match, only the
    greedy count decides. *)
Lemma tryDown_top (f : nat -> option nat) (lo k : nat) :
  (forall j, lo <= j < k -> f j = None) ->
  tryDown f lo k
  = if k <? lo then None
    else match f k with Some r => Some (k + r) | None => None end.
Proof.
  induction k as [|k IH]; intros Hf; simpl.
  - destruct (0 <? lo); [reflexivity|]. destruct (f 0); reflexivity.
  - destruct (S k <? lo) eqn:Hlo; [reflexivity|].
    destruct (f (S k)); [reflexivity|].
    rewrite IH by (intros j Hj; apply Hf; lia).
    apply Nat.ltb_ge in Hlo.
    destruct (k <? lo) eqn:Hk; [reflexivity|].
    apply Nat.ltb_ge in Hk. rewrite Hf by lia. reflexivity.
Qed.

(** Cursor after [j] characters of a run: what comes next, what came
    before. *)
Lemma skipn_run_head (cls : N -> bool) (a b : jsstring) (j : nat) :
  forallb cls a = true -> j < List.length a ->
  exists c r, skipn j (a ++ b) = c :: r /\ cls c = true.
Proof.
  revert j. induction a as [|x a IH]; intros j Ha Hj; simpl in *; [lia|].
  apply andb_true_iff in Ha as [Hx Ha].
  destruct j as [|j]; simpl.
  - eauto.
  - apply IH; [assumption|lia].
Qed.

Lemma prev_after_run (cls : N -> bool) (a b : jsstring) (prev : option N)
  (j : nat) :
  forallb cls a = true -> 1 <= j <= List.length a ->
  exists c, prev_after j prev (a ++ b) = Some c /\ cls c = true.
Proof.
  intros Ha Hj. destruct j as [|j]; [lia|]. simpl.
  assert (Hlt : j < List.length a) by lia.
  rewrite nth_error_app1 by assumption.
  destruct (nth_error a j) as [c|] eqn:Hn.
  - exists c. split; [reflexivity|].
    apply nth_error_In in Hn.
    rewrite forallb_forall in Ha. auto.
  - apply nth_error_None in Hn. lia.
Qed.

Lemma prev_after_whole (a b : jsstring) (prev : option N) :
  prev_after (List.length a) prev (a ++ b) = Terms.lastOf prev a.
Proof.
  destruct a as [|x a]; [reflexivity|].
  unfold Terms.lastOf. cbn [List.length prev_after].
  rewrite nth_error_app1 by (simpl; lia).
  revert x. induction a as [|y a IH]; intros x; [reflexivity|].
  cbn [List.length nth_error]. rewrite IH. reflexivity.
Qed.

Lemma skipn_whole (a b : jsstring) : skipn (List.length a) (a ++ b) = b.
Proof. induction a; simpl; auto. Qed.

Lemma firstn_whole (a b : jsstring) : firstn (List.length a) (a ++ b) = a.
Proof. induction a; simpl; [reflexivity|]. now f_equal. Qed.

Lemma app_same_length (t1 t2 r1 r2 : jsstring) :
  List.length t1 = List.length t2 -> t1 ++ r1 = t2 ++ r2 -> t1 = t2.
Proof.
  revert t2. induction t1 as [|x t1 IH]; intros [|y t2] L E;
    simpl in *; try lia; [reflexivity|].
  injection E as -> E. f_equal. apply IH; [lia|assumption].
Qed.

Lemma isDigit_isWordChar (c : N) : isDigit c = true -> isWordChar c = true.
Proof. unfold isWordChar. intros ->. now rewrite !orb_true_r. Qed.

Lemma dot_not_digit (c : N) : (c =? c_dot)%N = true -> isDigit c = false.
Proof. intros H. apply N.eqb_eq in H. subst. reflexivity. Qed.

End RegexFacts.

(** Name the two parts [span] splits a text into, with their facts. *)
Ltac split_span cls s a b Hs Ha :=
  pose proof (span_app_eq cls s) as Hs;
  pose proof (span_fst_all cls s) as Ha;
  destruct (JS.span cls s) as [a b];
  cbn [fst snd] in *.

Section AmountRegex.
Import JS.

(** [\.] then the rest. *)
Lemma matchFrom_Chr (c0 : N) (re : regex) (prev : option N) (s : jsstring) :
  matchFrom (Chr c0 :: re) prev s
  = match s with
    | c :: s' =>
        if (c0 =? c)%N
        then match matchFrom re (Some c) s' with
             | Some r => Some (1 + r)
             | None => None
             end
        else None
    | [] => None
    end.
Proof.
  unfold Chr. cbn [matchFrom]. destruct s as [|c s']; [reflexivity|].
  cbn [greedy option_map pred]. unfold is_char.
  destruct (c0 =? c)%N; [|reflexivity].
  rewrite greedy_zero. cbn.
  destruct (matchFrom re (Some c) s'); reflexivity.
Qed.

(** [\d{1,4}\b] after a point: the whole digit run, if it has one to four
    digits and no word character follows. *)
Lemma matchFrom_fraction (prev : option N) (s : jsstring) :
  matchFrom [Rep isDigit 1 (Some 4); Assert AssertWordBoundary] prev s
  = let '(fp, r3) := span isDigit s in
    if (1 <=? List.length fp) && (List.length fp <=? 4)
       && negb (isWordOpt (hd_error r3))
    then Some (List.length fp) else None.
Proof.
  cbn [matchFrom]. rewrite greedy_bounded.
  split_span isDigit s fp r3 Hs Hfp.
  rewrite tryDown_top.
  - destruct (Nat.min 4 (List.length fp) <? 1) eqn:Hlo.
    + apply Nat.ltb_lt in Hlo.
      replace (1 <=? List.length fp) with false
        by (symmetry; apply Nat.leb_gt; lia).
      reflexivity.
    + apply Nat.ltb_ge in Hlo.
      replace (1 <=? List.length fp) with true
        by (symmetry; apply Nat.leb_le; lia).
      cbn [andb holds].
      destruct (List.length fp <=? 4) eqn:H4.
      * apply Nat.leb_le in H4.
        replace (Nat.min 4 (List.length fp)) with (List.length fp) by lia.
        rewrite Hs at 1 2. rewrite skipn_whole.
        destruct (prev_after_run isDigit fp r3 prev (List.length fp) Hfp)
          as (c & -> & Hc); [lia|].
        cbn [isWordOpt andb]. rewrite (isDigit_isWordChar _ Hc). cbn [xorb].
        destruct (isWordOpt (hd_error r3)); cbn; [reflexivity|].
        f_equal. lia.
      * apply Nat.leb_gt in H4. cbn [andb].
        replace (Nat.min 4 (List.length fp)) with 4 by lia.
        rewrite Hs.
        destruct (prev_after_run isDigit fp r3 prev 4 Hfp) as (c & -> & Hc);
          [lia|].
        destruct (skipn_run_head isDigit fp r3 4 Hfp) as (c' & r & -> & Hc');
          [lia|].
        cbn [isWordOpt hd_error].
        rewrite (isDigit_isWordChar _ Hc), (isDigit_isWordChar _ Hc').
        reflexivity.
  - intros j Hj. cbn [holds]. rewrite Hs.
    destruct (prev_after_run isDigit fp r3 prev j Hfp) as (c & -> & Hc);
      [lia|].
    destruct (skipn_run_head isDigit fp r3 j Hfp) as (c' & r & -> & Hc');
      [lia|].
    cbn [isWordOpt hd_error].
    rewrite (isDigit_isWordChar _ Hc), (isDigit_isWordChar _ Hc').
    reflexivity.
Qed.

End AmountRegex.

Section AmountTokens.
Import JS.

(** The backtracking match of the amount pattern at a cursor is the direct
    computation [tokenLength]. *)
Lemma matchFrom_amountRegex (prev : option N) (rest : jsstring) :
  matchFrom App.amountRegex prev rest = Terms.tokenLength prev rest.
Proof.
  unfold App.amountRegex, Terms.tokenLength, Plus.
  rewrite matchFrom_Assert, matchFrom_Rep, greedy_open. cbn [holds].
  split_span isDigit rest ip r1 Hs Hip.
  destruct ip as [|d ip].
  - (* no digit at the cursor *)
    cbn [List.length tryDown Nat.ltb Nat.leb].
    destruct (xorb _ _), (isWordOpt prev); reflexivity.
  - assert (Hd : isWordOpt (hd_error rest) = true).
    { rewrite Hs. cbn. apply isDigit_isWordChar.
      cbn in Hip. now apply andb_true_iff in Hip as [-> _]. }
    rewrite Hd. destruct (isWordOpt prev); [reflexivity|]. cbn [xorb].
    rewrite tryDown_top.
    + replace (List.length (d :: ip) <? 1) with false
        by (symmetry; apply Nat.ltb_ge; simpl; lia).
      subst rest. rewrite skipn_whole.
      rewrite matchFrom_Chr.
      destruct r1 as [|c r2]; [reflexivity|].
      rewrite (N.eqb_sym c_dot c).
      destruct (c =? c_dot)%N; [|reflexivity].
      rewrite matchFrom_fraction.
      destruct (span isDigit r2) as [fp r3].
      destruct ((1 <=? List.length fp) && (List.length fp <=? 4)
                && negb (isWordOpt (hd_error r3))); reflexivity.
    + intros j Hj. rewrite matchFrom_Chr. rewrite Hs.
      destruct (skipn_run_head isDigit (d :: ip) r1 j Hip)
        as (c & r & -> & Hc); [lia|].
      destruct (c_dot =? c)%N eqn:Hdot; [|reflexivity].
      rewrite N.eqb_sym in Hdot. apply dot_not_digit in Hdot. congruence.
Qed.

(** A direct match is a delimited amount token, and conversely. *)
Lemma tokenLength_tokenAt (prev : option N) (rest : jsstring) (n : nat) :
  Terms.tokenLength prev rest = Some n ->
  Terms.tokenAt prev rest (firstn n rest)
  /\ 0 < n <= List.length rest
  /\ rest = firstn n rest ++ skipn n rest.
Proof.
  unfold Terms.tokenLength.
  destruct (isWordOpt prev) eqn:Hprev; [discriminate|].
  split_span isDigit rest ip r1 Hs Hip.
  destruct ip as [|d ip]; [discriminate|].
  destruct r1 as [|c r2]; [discriminate|].
  destruct (c =? c_dot)%N eqn:Hc; [|discriminate].
  apply N.eqb_eq in Hc. subst c.
  split_span isDigit r2 fp r3 Hs2 Hfp.
  destruct ((1 <=? List.length fp) && (List.length fp <=? 4)
            && negb (isWordOpt (hd_error r3))) eqn:Hok; [|discriminate].
  intros Hn.
  assert (Hlen : n = List.length ((d :: ip) ++ c_dot :: fp)).
  { injection Hn as <-. rewrite length_app. simpl. lia. }
  clear Hn. subst n.
  apply andb_true_iff in Hok as [Hok Hnext].
  apply andb_true_iff in Hok as [Hlo Hhi].
  apply Nat.leb_le in Hlo, Hhi. apply negb_true_iff in Hnext.
  subst r2 rest.
  replace ((d :: ip) ++ c_dot :: fp ++ r3)
    with (((d :: ip) ++ c_dot :: fp) ++ r3)
    by (rewrite <- app_assoc; reflexivity).
  rewrite firstn_whole, skipn_whole. repeat split.
  - exists r3. split; [reflexivity|]. split; [|split; assumption].
    exists (d :: ip), fp. repeat split; try assumption; discriminate.
  - rewrite length_app. simpl. lia.
  - rewrite !length_app. lia.
Qed.

Lemma tokenAt_tokenLength (prev : option N) (rest token : jsstring) :
  Terms.tokenAt prev rest token ->
  Terms.tokenLength prev rest = Some (List.length token).
Proof.
  intros (rest' & -> & (ip & fp & -> & Hne & Hip & Hfp & Hlen) & Hprev & Hnext).
  unfold Terms.tokenLength. rewrite Hprev.
  rewrite <- app_assoc.
  rewrite (span_run isDigit ip) by (assumption || reflexivity).
  destruct ip as [|d ip]; [congruence|].
  cbn [app]. rewrite N.eqb_refl.
  rewrite (span_run isDigit fp).
  - replace (1 <=? List.length fp) with true
      by (symmetry; apply Nat.leb_le; lia).
    replace (List.length fp <=? 4) with true
      by (symmetry; apply Nat.leb_le; lia).
    rewrite Hnext. cbn. f_equal. rewrite length_app. simpl. lia.
  - assumption.
  - destruct rest' as [|c r]; [exact I|].
    cbn in Hnext. destruct (isDigit c) eqn:Hc; [|reflexivity].
    apply isDigit_isWordChar in Hc. congruence.
Qed.

(** At most one token starts at a cursor. *)
Lemma tokenAt_unique (prev : option N) (rest t1 t2 : jsstring) :
  Terms.tokenAt prev rest t1 -> Terms.tokenAt prev rest t2 -> t1 = t2.
Proof.
  intros H1 H2.
  pose proof (tokenAt_tokenLength _ _ _ H1) as L1.
  pose proof (tokenAt_tokenLength _ _ _ H2) as L2.
  rewrite L1 in L2. injection L2 as L.
  destruct H1 as (r1 & E1 & _), H2 as (r2 & E2 & _).
  rewrite E1 in E2. exact (app_same_length _ _ _ _ L E2).
Qed.

End AmountTokens.

Section AmountScan.
Import JS.

Lemma prev_after_cons (k : nat) (prev : option N) (c : N) (r : jsstring) :
  k <= List.length r ->
  prev_after (S k) prev (c :: r) = prev_after k (Some c) r.
Proof.
  intros Hk. destruct k as [|k]; [reflexivity|]. cbn.
  destruct (nth_error r k) eqn:Hn; [reflexivity|].
  apply nth_error_None in Hn. lia.
Qed.

(** Skipping the rest of a match moves the cursor to its end. *)
Lemma matchesFrom_skip (re : regex) (rest : jsstring) :
  forall (k : nat) (prev : option N),
    k <= List.length rest ->
    matchesFrom re prev rest k
    = matchesFrom re (prev_after k prev rest) (skipn k rest) 0.
Proof.
  induction rest as [|c r IH]; intros k prev Hk.
  - simpl in Hk. replace k with 0 by lia. reflexivity.
  - destruct k as [|k]; [reflexivity|].
    simpl in Hk. cbn [matchesFrom skipn].
    rewrite IH by lia. rewrite prev_after_cons by lia. reflexivity.
Qed.

Lemma matchesFrom_amount_nil (prev : option N) :
  matchesFrom App.amountRegex prev [] 0 = [].
Proof.
  cbn [matchesFrom]. rewrite matchFrom_amountRegex.
  unfold Terms.tokenLength. destruct (isWordOpt prev); reflexivity.
Qed.

Lemma matchesFrom_amount_skip (prev : option N) (c : N) (rest : jsstring) :
  Terms.tokenLength prev (c :: rest) = None ->
  matchesFrom App.amountRegex prev (c :: rest) 0
  = matchesFrom App.amountRegex (Some c) rest 0.
Proof.
  intros H. cbn [matchesFrom]. rewrite matchFrom_amountRegex, H. reflexivity.
Qed.

Lemma matchesFrom_amount_token (prev : option N) (token rest : jsstring) :
  Terms.tokenAt prev (token ++ rest) token ->
  matchesFrom App.amountRegex prev (token ++ rest) 0
  = token :: matchesFrom App.amountRegex (Terms.lastOf prev token) rest 0.
Proof.
  intros H. pose proof (tokenAt_tokenLength _ _ _ H) as L.
  destruct token as [|c token].
  { apply tokenLength_tokenAt in L. simpl in L. lia. }
  cbn [app matchesFrom]. rewrite matchFrom_amountRegex.
  cbn [app] in L. rewrite L. cbn [List.length pred firstn].
  rewrite firstn_whole. f_equal.
  rewrite matchesFrom_skip by (rewrite length_app; lia).
  rewrite skipn_whole.
  rewrite <- (prev_after_cons _ prev c) by (rewrite length_app; lia).
  change (c :: token ++ rest) with ((c :: token) ++ rest).
  change (S (List.length token)) with (List.length (c :: token)).
  rewrite prev_after_whole. reflexivity.
Qed.

(** The matches of the amount pattern are the scan's tokens. *)
Lemma Scan_matchesFrom (prev : option N) (rest : jsstring)
  (tokens : list jsstring) :
  Terms.Scan prev rest tokens ->
  matchesFrom App.amountRegex prev rest 0 = tokens.
Proof.
  induction 1 as [prev|prev c rest tokens Hnone _ IH
                  |prev token rest tokens Htok _ IH].
  - apply matchesFrom_amount_nil.
  - rewrite matchesFrom_amount_skip; [exact IH|].
    destruct (Terms.tokenLength prev (c :: rest)) as [n|] eqn:L;
      [|reflexivity].
    apply tokenLength_tokenAt in L as [L _]. elim (Hnone _ L).
  - rewrite matchesFrom_amount_token by assumption. now f_equal.
Qed.

Lemma matchesFrom_Scan (rest : jsstring) :
  forall prev, Terms.Scan prev rest (matchesFrom App.amountRegex prev rest 0).
Proof.
  remember (List.length rest) as n eqn:Hn.
  revert rest Hn. induction n as [n IH] using lt_wf_ind.
  intros rest Hn prev. destruct rest as [|c rest].
  - rewrite matchesFrom_amount_nil. constructor.
  - destruct (Terms.tokenLength prev (c :: rest)) as [k|] eqn:L.
    + apply tokenLength_tokenAt in L as (Htok & Hk & Hsplit).
      assert (Hlen : List.length (skipn k (c :: rest)) < n)
        by (rewrite length_skipn; subst n; lia).
      set (token := firstn k (c :: rest)) in *.
      set (rest' := skipn k (c :: rest)) in *.
      clearbody token rest'. rewrite Hsplit in *.
      rewrite matchesFrom_amount_token by assumption.
      apply Terms.Scan_token; [assumption|].
      apply (IH (List.length rest')); [assumption|reflexivity].
    + rewrite matchesFrom_amount_skip by assumption.
      apply Terms.Scan_skip.
      * intros token Htok. apply tokenAt_tokenLength in Htok. congruence.
      * apply (IH (List.length rest)); [subst n; simpl; lia|reflexivity].
Qed.

Lemma amountTokens_matchesFrom (text : jsstring) :
  App.amountTokens text = matchesFrom App.amountRegex None text 0.
Proof.
  unfold App.amountTokens, String_match.
  destruct (matchesFrom App.amountRegex None text 0); reflexivity.
Qed.

Lemma amountTokens_Scan (text : jsstring) (tokens : list jsstring) :
  App.amountTokens text = tokens <-> Terms.Scan None text tokens.
Proof.
  rewrite amountTokens_matchesFrom. split.
  - intros <-. apply matchesFrom_Scan.
  - apply Scan_matchesFrom.
Qed.

End AmountScan.

(** C2 (as stated, refuted): in ["a12.34"] the letter is a character that
    is neither a digit nor a point, so the specification's tokens contain
    ["12.34"]; the pattern's [\b] does not hold between ["a"] and ["1"], and
    the code extracts nothing. *)
Lemma C2_counterexample_letter_before_amount :
  App.extractAmounts (JS.lit "a12.34") = []
  /\ Terms.specExtractAmounts (JS.lit "a12.34") = [12.34%float]
  /\ App.extractAmounts (JS.lit "a12.34")
     <> Terms.specExtractAmounts (JS.lit "a12.34").
Proof.
  assert (H1 : App.extractAmounts (JS.lit "a12.34") = [])
    by (vm_compute; reflexivity).
  assert (H2 : Terms.specExtractAmounts (JS.lit "a12.34") = [12.34%float])
    by (vm_compute; reflexivity).
  split; [exact H1|]. split; [exact H2|].
  rewrite H1, H2. discriminate.
Qed.

(** In the other direction a point delimits a token for the code, not for
    the specification: ["1.2.3"] yields [1.2] in the code. *)
Lemma extractAmounts_point_delimits :
  App.extractAmounts (JS.lit "1.2.3") = [1.2%float]
  /\ Terms.specExtractAmounts (JS.lit "1.2.3") = [].
Proof. split; vm_compute; reflexivity. Qed.

(** C2 (amended): [extractAmounts] finds exactly the substrings made of one
    or more digits, a decimal point and one to four digits that are
    delimited by word boundaries (neither preceded nor followed by a letter,
    a digit or an underscore; a point delimits like any other non-word
    character), scanning left to right without overlap, and returns their
    rounded in-range values in that order; in particular
    [extractAmounts("Paid 12.34 and 0.5 today") = [12.34, 0.5]]. *)
Theorem C2_amount_tokens_are_word_delimited_scan
  (text : JS.jsstring) (tokens : list JS.jsstring) :
  (App.amountTokens text = tokens <-> Terms.Scan None text tokens)
  /\ App.extractAmounts text
     = map App.round2
         (filter App.inRange (map JS.parseFloat (App.amountTokens text)))
  /\ App.amountTokens (JS.lit "Paid 12.34 and 0.5 today")
     = [JS.lit "12.34"; JS.lit "0.5"]
  /\ App.extractAmounts (JS.lit "Paid 12.34 and 0.5 today")
     = [12.34%float; 0.5%float].
Proof.
  split; [apply amountTokens_Scan|].
  split; [reflexivity|].
  split; vm_compute; reflexivity.
Qed.

Lemma C2_witness :
  Terms.Scan None (JS.lit "Paid 12.34 and 0.5 today")
    [JS.lit "12.34"; JS.lit "0.5"].
Proof.
  apply (C2_amount_tokens_are_word_delimited_scan
           (JS.lit "Paid 12.34 and 0.5 today")
           [JS.lit "12.34"; JS.lit "0.5"]).
  vm_compute. reflexivity.
Defined.

(* ================================================================== *)
(** * Line cleaning ([cleanLineContent])                                *)
(* ================================================================== *)

Section CleanLine.
Import JS.

(** [replace(/c/g, ' ')] maps the character to a space. *)
Lemma replace_Chr (c0 : N) (by_ : N) (s : jsstring) :
  forall prev,
    replaceFrom [Chr c0] [by_] prev s 0
    = map (fun c => if (c0 =? c)%N then by_ else c) s.
Proof.
  induction s as [|c s IH]; intros prev.
  - reflexivity.
  - cbn [replaceFrom map]. rewrite matchFrom_Chr. cbn [matchFrom].
    destruct (c0 =? c)%N; cbn; rewrite IH; reflexivity.
Qed.

(** [replace(/\s+/g, ' ')] squeezes every run of white space to a space. *)
Lemma matchFrom_Plus_alone (cls : N -> bool) (prev : option N) (s : jsstring) :
  matchFrom [Plus cls] prev s
  = match greedy cls None s with 0 => None | S n => Some (S n) end.
Proof.
  unfold Plus. rewrite matchFrom_Rep. cbn [matchFrom].
  destruct (greedy cls None s) as [|n]; [reflexivity|].
  cbn. f_equal. lia.
Qed.

Lemma replace_squeeze (s : jsstring) :
  (forall prev,
      replaceFrom [Plus isWhiteSpace] [c_space] prev s 0
      = Terms.squeeze false s)
  /\ (forall prev,
         replaceFrom [Plus isWhiteSpace] [c_space] prev s
           (greedy isWhiteSpace None s)
         = Terms.squeeze true s).
Proof.
  induction s as [|c s [IH0 IH1]].
  - split; intros prev; reflexivity.
  - assert (H0 : forall prev,
               replaceFrom [Plus isWhiteSpace] [c_space] prev (c :: s) 0
               = Terms.squeeze false (c :: s)).
    { intros prev. cbn [replaceFrom]. rewrite matchFrom_Plus_alone.
      cbn [greedy option_map Terms.squeeze].
      destruct (isWhiteSpace c); cbn [app]; [rewrite IH1|rewrite IH0];
        reflexivity. }
    split; [exact H0|].
    intros prev. cbn [greedy option_map].
    destruct (isWhiteSpace c) eqn:Hc.
    + cbn [replaceFrom Terms.squeeze]. rewrite Hc. apply IH1.
    + rewrite H0. cbn [Terms.squeeze]. rewrite Hc. reflexivity.
Qed.

Lemma squeeze_head (s : jsstring) :
  match Terms.squeeze true s with
  | [] => True
  | d :: _ => isWhiteSpace d = false
  end.
Proof.
  induction s as [|c s IH]; cbn; [exact I|].
  destruct (isWhiteSpace c) eqn:Hc; [exact IH|exact Hc].
Qed.

Lemma squeeze_tidy (s : jsstring) :
  forall b, Terms.tidy (Terms.squeeze b s) = true.
Proof.
  induction s as [|c s IH]; intros b; cbn; [reflexivity|].
  destruct (isWhiteSpace c) eqn:Hc.
  - destruct b; [apply IH|].
    cbn [Terms.tidy]. change (isWhiteSpace c_space) with true.
    cbn [andb]. rewrite N.eqb_refl, IH. cbn [andb].
    pose proof (squeeze_head s) as Hh.
    destruct (Terms.squeeze true s); [reflexivity|]. now rewrite Hh.
  - cbn [Terms.tidy]. rewrite Hc. apply IH.
Qed.

Lemma squeeze_true_false (s : jsstring) :
  match s with [] => True | d :: _ => isWhiteSpace d = false end ->
  Terms.squeeze true s = Terms.squeeze false s.
Proof. destruct s as [|d s]; [reflexivity|]. cbn. now intros ->. Qed.

Lemma tidy_squeeze (s : jsstring) :
  Terms.tidy s = true -> Terms.squeeze false s = s.
Proof.
  induction s as [|c s IH]; cbn; [reflexivity|].
  destruct (isWhiteSpace c) eqn:Hc.
  - intros H. apply andb_true_iff in H as [H Ht].
    apply andb_true_iff in H as [Hsp Hnext].
    apply N.eqb_eq in Hsp. subst c. f_equal.
    rewrite squeeze_true_false.
    + apply IH, Ht.
    + destruct s as [|d s]; [exact I|]. now apply negb_true_iff in Hnext.
  - intros H. f_equal. apply IH, H.
Qed.

(** ** [trim] *)

Lemma trimStart_suffix (s : jsstring) :
  exists w, s = w ++ trimStart s /\ forallb isWhiteSpace w = true.
Proof.
  induction s as [|c s (w & Hs & Hw)]; cbn.
  - exists []. split; reflexivity.
  - destruct (isWhiteSpace c) eqn:Hc.
    + exists (c :: w). cbn. rewrite Hc, Hw. split; [now f_equal|reflexivity].
    + exists []. split; reflexivity.
Qed.

Lemma trimStart_head (s : jsstring) :
  match trimStart s with
  | [] => True
  | d :: _ => isWhiteSpace d = false
  end.
Proof.
  induction s as [|c s IH]; cbn; [exact I|].
  destruct (isWhiteSpace c) eqn:Hc; [exact IH|exact Hc].
Qed.

Lemma trimStart_fixed (s : jsstring) :
  match s with [] => True | d :: _ => isWhiteSpace d = false end ->
  trimStart s = s.
Proof. destruct s as [|d s]; [reflexivity|]. cbn. now intros ->. Qed.

Lemma trimEnd_prefix (s : jsstring) :
  exists w, s = trimEnd s ++ w /\ forallb isWhiteSpace w = true.
Proof.
  unfold trimEnd.
  destruct (trimStart_suffix (rev s)) as (w & Hs & Hw).
  exists (rev w). split.
  - rewrite <- rev_app_distr, <- Hs, rev_involutive. reflexivity.
  - rewrite forallb_forall in *. intros x Hx. apply Hw, in_rev, Hx.
Qed.

Lemma trimEnd_trimEnd (s : jsstring) : trimEnd (trimEnd s) = trimEnd s.
Proof.
  unfold trimEnd. rewrite rev_involutive.
  rewrite (trimStart_fixed (trimStart (rev s))); [reflexivity|].
  apply trimStart_head.
Qed.

(** Removing trailing white space keeps a head that is not white space. *)
Lemma trimEnd_head (s : jsstring) :
  match s with [] => True | d :: _ => isWhiteSpace d = false end ->
  match trimEnd s with [] => True | d :: _ => isWhiteSpace d = false end.
Proof.
  intros Hs. destruct (trimEnd_prefix s) as (w & E & _).
  destruct (trimEnd s) as [|d t]; [exact I|].
  rewrite E in Hs. exact Hs.
Qed.

Lemma trim_trim (s : jsstring) : String_trim (String_trim s) = String_trim s.
Proof.
  unfold String_trim.
  rewrite (trimStart_fixed (trimEnd (trimStart s))).
  - apply trimEnd_trimEnd.
  - apply trimEnd_head, trimStart_head.
Qed.

(** ** What survives the cleaning *)

Lemma tidy_app_r (a b : jsstring) :
  Terms.tidy (a ++ b) = true -> Terms.tidy b = true.
Proof.
  induction a as [|c a IH]; cbn; [auto|].
  destruct (isWhiteSpace c); [|exact IH].
  intros H. apply andb_true_iff in H as [_ H]. auto.
Qed.

Lemma tidy_app_l (a b : jsstring) :
  Terms.tidy (a ++ b) = true -> Terms.tidy a = true.
Proof.
  induction a as [|c a IH]; cbn; [reflexivity|].
  destruct (isWhiteSpace c); [|exact IH].
  intros H. apply andb_true_iff in H as [H Ht].
  apply andb_true_iff in H as [Hsp Hnext].
  rewrite Hsp, (IH Ht), andb_true_r. cbn [andb].
  destruct a as [|d a]; [reflexivity|]. exact Hnext.
Qed.

Lemma tidy_trim (s : jsstring) :
  Terms.tidy s = true -> Terms.tidy (String_trim s) = true.
Proof.
  intros H. unfold String_trim.
  destruct (trimStart_suffix s) as (w & E & _).
  destruct (trimEnd_prefix (trimStart s)) as (w' & E' & _).
  rewrite E in H. apply tidy_app_r in H.
  rewrite E' in H. apply tidy_app_l in H. exact H.
Qed.

Lemma noSeparator_trim (s : jsstring) :
  Terms.noSeparator s = true -> Terms.noSeparator (String_trim s) = true.
Proof.
  unfold Terms.noSeparator, String_trim. intros H.
  destruct (trimStart_suffix s) as (w & E & _).
  destruct (trimEnd_prefix (trimStart s)) as (w' & E' & _).
  rewrite E, forallb_app in H. apply andb_true_iff in H as [_ H].
  rewrite E', forallb_app in H. apply andb_true_iff in H as [H _]. exact H.
Qed.

Lemma noSeparator_squeeze (s : jsstring) :
  Terms.noSeparator s = true -> forall b, Terms.noSeparator (Terms.squeeze b s) = true.
Proof.
  unfold Terms.noSeparator. induction s as [|c s IH]; cbn; [reflexivity|].
  intros H b. apply andb_true_iff in H as [Hc Hs].
  destruct (isWhiteSpace c).
  - destruct b; [apply IH, Hs|]. cbn. apply IH, Hs.
  - cbn. rewrite Hc. apply IH, Hs.
Qed.

Lemma noSeparator_unseparate (s : jsstring) :
  Terms.noSeparator (Terms.unseparate s) = true.
Proof.
  unfold Terms.noSeparator, Terms.unseparate. rewrite !map_map.
  induction s as [|c s IH]; cbn [map forallb]; [reflexivity|].
  rewrite IH, andb_true_r.
  unfold Terms.isSeparator, is_char.
  destruct (c_bar =? c)%N eqn:H1; [reflexivity|].
  destruct (c_caret =? c)%N eqn:H2; [reflexivity|].
  destruct (c_comma =? c)%N eqn:H3; [reflexivity|].
  rewrite H1, H2, H3. reflexivity.
Qed.

Lemma unseparate_fixed (s : jsstring) :
  Terms.noSeparator s = true -> Terms.unseparate s = s.
Proof.
  unfold Terms.noSeparator, Terms.unseparate. rewrite !map_map.
  induction s as [|c s IH]; cbn [map forallb]; [reflexivity|].
  intros H. apply andb_true_iff in H as [Hc Hs]. rewrite (IH Hs). f_equal.
  unfold Terms.isSeparator, is_char in Hc.
  apply negb_true_iff in Hc.
  apply orb_false_iff in Hc as [Hc H3].
  apply orb_false_iff in Hc as [H1 H2].
  rewrite H1, H2, H3. reflexivity.
Qed.

(** [cleanLineContent] on a non-empty string, stage by stage. *)
Lemma cleanLineContent_string (s : jsstring) :
  App.cleanLineContent (JStr s)
  = Normal (match s with
            | [] => []
            | _ :: _ => String_trim (Terms.squeeze false (Terms.unseparate s))
            end).
Proof.
  destruct s as [|c s]; [reflexivity|].
  unfold App.cleanLineContent. cbn [ToBoolean negb].
  unfold String_replace, Terms.unseparate.
  change (lit " ") with [c_space].
  rewrite !replace_Chr.
  rewrite (proj1 (replace_squeeze _)). reflexivity.
Qed.

Lemma clean_fixed (t : jsstring) :
  Terms.noSeparator t = true -> Terms.tidy t = true -> String_trim t = t ->
  App.cleanLineContent (JStr t) = Normal t.
Proof.
  intros Hsep Htidy Htrim. rewrite cleanLineContent_string.
  destruct t as [|c t]; [reflexivity|].
  rewrite (unseparate_fixed _ Hsep), (tidy_squeeze _ Htidy), Htrim.
  reflexivity.
Qed.

Lemma cleanLineContent_idempotent (s : jsstring) :
  exists t,
    App.cleanLineContent (JStr s) = Normal t
    /\ App.cleanLineContent (JStr t) = Normal t.
Proof.
  rewrite cleanLineContent_string.
  destruct s as [|c s].
  - exists []. split; reflexivity.
  - eexists. split; [reflexivity|].
    apply clean_fixed.
    + apply noSeparator_trim, noSeparator_squeeze, noSeparator_unseparate.
    + apply tidy_trim, squeeze_tidy.
    + apply trim_trim.
Qed.

End CleanLine.

(** C7: [clean] is idempotent: for every string [s],
    [clean(clean(s)) = clean(s)], where [clean] replaces each of [|], [^],
    [,] by a space, squeezes every run of white space to one space, and
    trims; [cleanLineContent] returns normally on every string. *)
Theorem C7_clean_idempotent (s : JS.jsstring) :
  Terms.clean (Terms.clean s) = Terms.clean s
  /\ App.cleanLineContent (JS.JStr s) = JS.Normal (Terms.clean s)
  /\ Terms.clean s
     = JS.String_trim (Terms.squeeze false (Terms.unseparate s)).
Proof.
  unfold Terms.clean.
  destruct (cleanLineContent_idempotent s) as (t & Hs & Ht).
  rewrite Hs, Ht. split; [reflexivity|]. split; [reflexivity|].
  rewrite cleanLineContent_string in Hs. injection Hs as <-.
  destruct s; reflexivity.
Qed.

(* ================================================================== *)
(** * Numbers: NaN, zeros, infinities                                   *)
(* ================================================================== *)

Section NumberFacts.
Import JS.

Lemma SFeqb_refl (x : spec_float) :
  SFeqb x x = match x with S754_nan => false | _ => true end.
Proof.
  unfold SFeqb, SFcompare. destruct x as [s|s| |s m e]; try reflexivity.
  - destruct s; reflexivity.
  - rewrite Z.compare_refl, Pos.compare_cont_refl. destruct s; reflexivity.
Qed.

Lemma is_nan_spec (x : number) :
  is_nan x = true <-> Prim2SF x = S754_nan.
Proof.
  unfold is_nan. rewrite eqb_spec, SFeqb_refl.
  destruct (Prim2SF x); cbn; split; congruence.
Qed.

Lemma is_zero_spec (x : number) :
  is_zero x = true <-> exists s, Prim2SF x = S754_zero s.
Proof.
  unfold is_zero. rewrite eqb_spec.
  change (Prim2SF zero) with (S754_zero false).
  unfold SFeqb, SFcompare.
  destruct (Prim2SF x) as [s|s| |s m e].
  - split; [eauto|reflexivity].
  - destruct s; (split; [discriminate|intros [s' [=]]]).
  - split; [discriminate|intros [s' [=]]].
  - destruct s; (split; [discriminate|intros [s' [=]]]).
Qed.

Lemma is_infinity_spec (x : number) :
  is_infinity x = true <-> exists s, Prim2SF x = S754_infinity s.
Proof.
  unfold is_infinity. rewrite eqb_spec, abs_spec.
  change (Prim2SF infinity) with (S754_infinity false).
  unfold SFeqb, SFcompare, SFabs.
  destruct (Prim2SF x) as [s|s| |s m e].
  - split; [discriminate|intros [s' [=]]].
  - split; [eauto|reflexivity].
  - split; [discriminate|intros [s' [=]]].
  - split; [discriminate|intros [s' [=]]].
Qed.

(** A finite number is a zero or has a mantissa. *)
Lemma is_finite_spec (x : number) :
  is_finite x = true <->
  match Prim2SF x with
  | S754_zero _ | S754_finite _ _ _ => True
  | _ => False
  end.
Proof.
  unfold is_finite. rewrite negb_true_iff, orb_false_iff.
  pose proof (is_nan_spec x) as Hn. pose proof (is_infinity_spec x) as Hi.
  destruct (Prim2SF x) as [s|s| |s m e].
  - split; [auto|]. intros _. split.
    + destruct (is_nan x); [|reflexivity].
      destruct Hn as [Hn _]. discriminate (Hn eq_refl).
    + destruct (is_infinity x); [|reflexivity].
      destruct Hi as [Hi _]. destruct (Hi eq_refl). discriminate.
  - split; [|contradiction]. intros [_ H].
    destruct Hi as [_ Hi]. rewrite Hi in H by eauto. discriminate.
  - split; [|contradiction]. intros [H _].
    destruct Hn as [_ Hn]. rewrite Hn in H by eauto. discriminate.
  - split; [auto|]. intros _. split.
    + destruct (is_nan x); [|reflexivity].
      destruct Hn as [Hn _]. discriminate (Hn eq_refl).
    + destruct (is_infinity x); [|reflexivity].
      destruct Hi as [Hi _]. destruct (Hi eq_refl). discriminate.
Qed.

(** The numbers that are falsy print as ["0"] or ["NaN"]. *)
Lemma falsy_number_toString (x : number) :
  ToBoolean (JNum x) = false ->
  Number_toString x = lit "0" \/ Number_toString x = lit "NaN".
Proof.
  cbn [ToBoolean]. rewrite negb_false_iff, orb_true_iff.
  unfold Number_toString.
  intros [H|H].
  - apply is_zero_spec in H as [s ->]. left. reflexivity.
  - apply is_nan_spec in H as ->. right. reflexivity.
Qed.

End NumberFacts.

(* ================================================================== *)
(** * Amount detection ([isAmount])                                     *)
(* ================================================================== *)

Section IsAmount.
Import JS.

Lemma matchFrom_Class (cls : N -> bool) (re : regex) (prev : option N)
  (s : jsstring) :
  matchFrom (Class cls :: re) prev s
  = match s with
    | c :: s' =>
        if cls c
        then match matchFrom re (Some c) s' with
             | Some r => Some (1 + r)
             | None => None
             end
        else None
    | [] => None
    end.
Proof.
  unfold Class. rewrite matchFrom_Rep. destruct s as [|c s']; [reflexivity|].
  cbn [greedy option_map pred]. destruct (cls c); [|reflexivity].
  rewrite greedy_zero. cbn.
  destruct (matchFrom re (Some c) s'); reflexivity.
Qed.

(** [replace(/[...]/g, '')] removes the characters of the class. *)
Lemma replace_Class_empty (cls : N -> bool) (s : jsstring) :
  forall prev,
    replaceFrom [Class cls] [] prev s 0 = filter (fun c => negb (cls c)) s.
Proof.
  induction s as [|c s IH]; intros prev; [reflexivity|].
  cbn [replaceFrom filter]. rewrite matchFrom_Class. cbn [matchFrom].
  destruct (cls c); cbn; rewrite IH; reflexivity.
Qed.

Lemma filter_all_rejected (keep : N -> bool) (w : jsstring) :
  forallb (fun c => negb (keep c)) w = true -> filter keep w = [].
Proof.
  induction w as [|c w IH]; cbn; [reflexivity|].
  intros H. apply andb_true_iff in H as [Hc Hw].
  apply negb_true_iff in Hc. rewrite Hc. auto.
Qed.

(** Trimming first changes nothing when white space is stripped anyway. *)
Lemma stripped_trim (s : jsstring) :
  Terms.stripped (String_trim s) = Terms.stripped s.
Proof.
  assert (Hws : forall w, forallb isWhiteSpace w = true ->
                          Terms.stripped w = []).
  { intros w Hw. apply filter_all_rejected.
    rewrite forallb_forall in *. intros c Hc.
    unfold Terms.isStripped. rewrite (Hw c Hc), negb_involutive.
    apply orb_true_r. }
  unfold String_trim.
  destruct (trimStart_suffix s) as (w & E & Hw).
  destruct (trimEnd_prefix (trimStart s)) as (w' & E' & Hw').
  rewrite E at 2. rewrite E' at 2.
  unfold Terms.stripped in *. rewrite !filter_app.
  rewrite (Hws w Hw), (Hws w' Hw'), app_nil_r. reflexivity.
Qed.

Lemma cleanValue_stripped (s : jsstring) :
  String_replace (String_trim s) DataTable.stripRegex []
  = Terms.stripped s.
Proof.
  unfold String_replace, DataTable.stripRegex.
  rewrite replace_Class_empty. apply stripped_trim.
Qed.

(** [\d+$]: the rest of the input is a non-empty run of digits. *)
Lemma matchFrom_digits_end (prev : option N) (s : jsstring) :
  matchFrom [Plus isDigit; Assert AssertEnd] prev s
  = let '(fp, r3) := span isDigit s in
    match fp, r3 with
    | _ :: _, [] => Some (List.length fp)
    | _, _ => None
    end.
Proof.
  unfold Plus. rewrite matchFrom_Rep, greedy_open.
  split_span isDigit s fp r3 Hs Hfp.
  rewrite tryDown_top.
  - destruct fp as [|d fp]; [reflexivity|].
    replace (List.length (d :: fp) <? 1) with false
      by (symmetry; apply Nat.ltb_ge; simpl; lia).
    subst s. rewrite skipn_whole, matchFrom_Assert. cbn [holds matchFrom].
    destruct r3; [|reflexivity]. f_equal. lia.
  - intros j Hj. rewrite matchFrom_Assert. subst s.
    destruct (skipn_run_head isDigit fp r3 j Hfp) as (c & r & -> & _);
      [lia|reflexivity].
Qed.

Lemma matchFrom_decimalRegex (s : jsstring) :
  matchFrom DataTable.decimalRegex None s
  = if Terms.decimalShape s then Some (List.length s) else None.
Proof.
  unfold DataTable.decimalRegex, Terms.decimalShape, Plus.
  rewrite matchFrom_Assert, matchFrom_Rep, greedy_open. cbn [holds].
  split_span isDigit s ip r1 Hs Hip.
  destruct ip as [|d ip]; [reflexivity|].
  rewrite tryDown_top.
  - replace (List.length (d :: ip) <? 1) with false
      by (symmetry; apply Nat.ltb_ge; simpl; lia).
    subst s. rewrite skipn_whole, matchFrom_Chr.
    destruct r1 as [|c r2]; [reflexivity|].
    rewrite (N.eqb_sym c_dot c).
    destruct (c =? c_dot)%N; [|reflexivity].
    change (Rep isDigit 1 None) with (Plus isDigit).
    rewrite matchFrom_digits_end.
    pose proof (span_app_eq isDigit r2) as Hs2.
    destruct (span isDigit r2) as [fp r3]. cbn [fst snd andb] in *.
    destruct fp as [|d' fp]; [reflexivity|].
    destruct r3; [|reflexivity].
    f_equal. subst r2. rewrite !length_app. cbn [List.length].
    rewrite length_app. cbn [List.length]. lia.
  - intros j Hj. rewrite matchFrom_Chr. subst s.
    destruct (skipn_run_head isDigit (d :: ip) r1 j Hip)
      as (c & r & -> & Hc); [lia|].
    destruct (c_dot =? c)%N eqn:Hdot; [|reflexivity].
    rewrite N.eqb_sym in Hdot. apply dot_not_digit in Hdot. congruence.
Qed.

Lemma testFrom_decimalRegex_later (s : jsstring) :
  forall c, testFrom DataTable.decimalRegex (Some c) s = false.
Proof.
  induction s as [|x s IH]; intros c; cbn; [reflexivity|apply IH].
Qed.

Lemma test_decimalRegex (s : jsstring) :
  RegExp_test DataTable.decimalRegex s = Terms.decimalShape s.
Proof.
  unfold RegExp_test. destruct s as [|c s].
  - reflexivity.
  - cbn [testFrom]. rewrite matchFrom_decimalRegex.
    destruct (Terms.decimalShape (c :: s)); [reflexivity|].
    apply testFrom_decimalRegex_later.
Qed.

Lemma decimalShape_spec (s : jsstring) :
  Terms.decimalShape s = true <-> Terms.digitsDotDigits s.
Proof.
  unfold Terms.decimalShape, Terms.digitsDotDigits. split.
  - split_span isDigit s ip r1 Hs Hip.
    destruct ip as [|d ip]; [discriminate|].
    destruct r1 as [|c r2]; [discriminate|].
    destruct (c =? c_dot)%N eqn:Hc; [|discriminate].
    apply N.eqb_eq in Hc. subst c. cbn [andb].
    split_span isDigit r2 fp r3 Hs2 Hfp.
    destruct fp as [|d' fp]; [discriminate|].
    destruct r3; [|discriminate]. intros _.
    rewrite app_nil_r in Hs2. subst r2.
    exists (d :: ip), (d' :: fp). repeat split; try assumption; discriminate.
  - intros (ip & fp & -> & Hip0 & Hfp0 & Hip & Hfp).
    rewrite (span_run isDigit ip) by (assumption || reflexivity).
    destruct ip as [|d ip]; [congruence|].
    rewrite N.eqb_refl. cbn [andb].
    rewrite <- (app_nil_r fp).
    rewrite (span_run isDigit fp) by (assumption || exact I).
    destruct fp; [congruence|reflexivity].
Qed.

Lemma isAmount_truthy (v : value) :
  ToBoolean v = true ->
  DataTable.isAmount v = Terms.decimalShape (Terms.stripped (ToString v)).
Proof.
  intros Hv. unfold DataTable.isAmount. rewrite Hv. cbn [negb].
  rewrite cleanValue_stripped. apply test_decimalRegex.
Qed.

Lemma isAmount_decimalShape (v : value) :
  DataTable.isAmount v = Terms.decimalShape (Terms.stripped (ToString v)).
Proof.
  destruct (ToBoolean v) eqn:Hv; [now apply isAmount_truthy|].
  unfold DataTable.isAmount. rewrite Hv. cbn [negb].
  destruct v as [| |b|x|s]; cbn [ToString].
  - reflexivity.
  - reflexivity.
  - cbn in Hv. subst b. reflexivity.
  - destruct (falsy_number_toString x Hv) as [-> | ->]; reflexivity.
  - destruct s; [reflexivity|discriminate].
Qed.

End IsAmount.

(** C8: [isAmount] strips the peso sign, commas and white space from the
    field value and returns true exactly when the whole of what remains is
    digits, a decimal point, digits; [isAmount("₱1,234.50")] is true and
    [isAmount("1234")] is false. *)
Theorem C8_isAmount_iff_whole_string_decimal (v : JS.value) :
  (DataTable.isAmount v = true
   <-> Terms.digitsDotDigits (Terms.stripped (JS.ToString v)))
  /\ DataTable.isAmount (JS.JStr (JS.c_peso :: JS.lit "1,234.50")) = true
  /\ DataTable.isAmount (JS.JStr (JS.lit "1234")) = false.
Proof.
  split.
  - rewrite isAmount_decimalShape. apply decimalShape_spec.
  - split; vm_compute; reflexivity.
Qed.

Lemma C8_witness :
  Terms.digitsDotDigits
    (Terms.stripped (JS.ToString (JS.JStr (JS.c_peso :: JS.lit "1,234.50")))).
Proof.
  apply (C8_isAmount_iff_whole_string_decimal
           (JS.JStr (JS.c_peso :: JS.lit "1,234.50"))).
  vm_compute. reflexivity.
Defined.

(* ================================================================== *)
(** * Currency formatting ([formatAmount])                              *)
(* ================================================================== *)

Section NumberLayout.
Import JS.

(** ** Digits are neither stripped nor points *)

Lemma isDigit_range (c : N) : isDigit c = true <-> (48 <= c <= 57)%N.
Proof.
  unfold isDigit, in_range. rewrite andb_true_iff, !N.leb_le. tauto.
Qed.

Lemma isDigit_not_stripped (c : N) :
  isDigit c = true -> Terms.isStripped c = false.
Proof.
  intros H. apply isDigit_range in H.
  unfold Terms.isStripped, isWhiteSpace, is_char, in_range,
    c_peso, c_comma.
  repeat match goal with
         | |- context [(?a =? ?b)%N] =>
             destruct (N.eqb_spec a b); [lia|]
         | |- context [(?a <=? ?b)%N] =>
             destruct (N.leb_spec a b); [try lia|try lia]
         end; reflexivity.
Qed.

Lemma isDigit_not_dot (c : N) : isDigit c = true -> (c =? c_dot)%N = false.
Proof.
  intros H. apply isDigit_range in H. apply N.eqb_neq. unfold c_dot. lia.
Qed.

Lemma filter_digits (keep : N -> bool) (ds : jsstring) :
  (forall c, isDigit c = true -> keep c = true) ->
  forallb isDigit ds = true -> filter keep ds = ds.
Proof.
  intros Hk. induction ds as [|c ds IH]; cbn; [reflexivity|].
  intros H. apply andb_true_iff in H as [Hc Hds].
  rewrite (Hk c Hc), (IH Hds). reflexivity.
Qed.

Lemma filter_amount_string (keep : N -> bool) (ip fp : jsstring) :
  (forall c, isDigit c = true -> keep c = true) -> keep c_dot = true ->
  forallb isDigit ip = true -> forallb isDigit fp = true ->
  filter keep (ip ++ c_dot :: fp) = ip ++ c_dot :: fp.
Proof.
  intros Hk Hdot Hip Hfp. rewrite filter_app. cbn [filter]. rewrite Hdot.
  rewrite !(filter_digits keep) by assumption. reflexivity.
Qed.

Lemma stripped_amount_string (ip fp : jsstring) :
  forallb isDigit ip = true -> forallb isDigit fp = true ->
  Terms.stripped (ip ++ c_dot :: fp) = ip ++ c_dot :: fp.
Proof.
  apply filter_amount_string; [|reflexivity].
  intros c Hc. now rewrite (isDigit_not_stripped c Hc).
Qed.

(** ** [split('.')] and [includes('.')] on an amount string *)

Lemma split_digits (ds : jsstring) :
  forallb isDigit ds = true -> String_split ds c_dot = [ds].
Proof.
  induction ds as [|c ds IH]; cbn; [reflexivity|].
  intros H. apply andb_true_iff in H as [Hc Hds].
  rewrite (isDigit_not_dot c Hc), (IH Hds). reflexivity.
Qed.

Lemma split_amount_string (ip fp : jsstring) :
  forallb isDigit ip = true -> forallb isDigit fp = true ->
  String_split (ip ++ c_dot :: fp) c_dot = [ip; fp].
Proof.
  intros Hip Hfp. induction ip as [|c ip IH]; cbn.
  - rewrite (split_digits fp Hfp). reflexivity.
  - cbn in Hip. apply andb_true_iff in Hip as [Hc Hip].
    rewrite (isDigit_not_dot c Hc), (IH Hip). reflexivity.
Qed.

Lemma includes_amount_string (ip fp : jsstring) :
  String_includes (ip ++ c_dot :: fp) c_dot = true.
Proof.
  unfold String_includes. rewrite existsb_app. cbn [existsb].
  unfold is_char. rewrite N.eqb_refl. apply orb_true_r.
Qed.

(** ** The layout of a formatted number *)

Lemma fixedDigits_length (d : nat) : forall r, List.length (fixedDigits d r) = d.
Proof.
  induction d as [|d IH]; intros r; cbn; [reflexivity|].
  rewrite length_app, IH. cbn. lia.
Qed.

Lemma fixedDigits_digits (d : nat) :
  forall r, forallb isDigit (fixedDigits d r) = true.
Proof.
  induction d as [|d IH]; intros r; cbn [fixedDigits]; [reflexivity|].
  rewrite forallb_app, IH. cbn [forallb andb]. rewrite andb_true_r.
  apply isDigit_range. unfold c_zero.
  pose proof (Z.mod_pos_bound r 10 ltac:(lia)). lia.
Qed.

Lemma fractionDigits_exact (d : nat) (r : Z) :
  fractionDigits d d r = fixedDigits d r.
Proof.
  unfold fractionDigits. rewrite Nat.sub_diag.
  destruct (rev (fixedDigits d r)) eqn:E; cbn [dropZeros];
    rewrite <- E; apply rev_involutive.
Qed.

Lemma afterLastDot_digits (ds : jsstring) :
  forallb isDigit ds = true -> Terms.afterLastDot ds = None.
Proof.
  induction ds as [|c ds IH]; cbn; [reflexivity|].
  intros H. apply andb_true_iff in H as [Hc Hds].
  rewrite (IH Hds), (isDigit_not_dot c Hc). reflexivity.
Qed.

Lemma decimalPlaces_point (pre frac : jsstring) :
  forallb isDigit frac = true ->
  Terms.decimalPlaces (pre ++ c_dot :: frac) = List.length frac.
Proof.
  intros Hfrac. unfold Terms.decimalPlaces.
  assert (H : Terms.afterLastDot (pre ++ c_dot :: frac)
              = Some (List.length frac)).
  { induction pre as [|c pre IH]; cbn [app Terms.afterLastDot].
    - rewrite (afterLastDot_digits frac Hfrac), N.eqb_refl. reflexivity.
    - rewrite IH. reflexivity. }
  now rewrite H.
Qed.

(** With [d >= 1] fraction digits asked for, the layout ends in a point and
    [d] digits. *)
Lemma layoutFixed_places (n : Z) (d : nat) (pre : jsstring) :
  1 <= d ->
  Terms.decimalPlaces (pre ++ layoutFixed n d d) = d.
Proof.
  intros Hd. unfold layoutFixed. rewrite fractionDigits_exact.
  set (r := (n mod 10 ^ Z.of_nat d)%Z).
  pose proof (fixedDigits_length d r) as Hl.
  pose proof (fixedDigits_digits d r) as Hg.
  destruct (fixedDigits d r) as [|c frac] eqn:E; [simpl in Hl; lia|].
  rewrite app_assoc, decimalPlaces_point by assumption. exact Hl.
Qed.

Lemma formatMagnitude_places (x : number) (d : nat) (pre : jsstring) :
  is_finite x = true -> 1 <= d ->
  Terms.decimalPlaces (pre ++ formatMagnitude x d d) = d.
Proof.
  intros Hx Hd. apply is_finite_spec in Hx. unfold formatMagnitude.
  destruct (Prim2SF x) as [s|s| |s m e]; try contradiction.
  - now apply layoutFixed_places.
  - destruct (shortestDecimal x m e) as [[s0 n] k].
    now apply layoutFixed_places.
Qed.

(** A finite number formatted with [d] fraction digits, [1 <= d <= 100],
    shows [d] decimal places, whatever precedes the digits. *)
Lemma NumberFormat_places (st : style) (x : number) (d : nat) :
  is_finite x = true -> 1 <= d <= 100 ->
  exists out,
    NumberFormat_enPH st d d x = Normal out
    /\ forall pre, Terms.decimalPlaces (pre ++ out) = d.
Proof.
  intros Hx Hd. unfold NumberFormat_enPH, fractionDigitsLimit.
  replace (100 <? d) with false by (symmetry; apply Nat.ltb_ge; lia).
  replace (d <? d) with false by (symmetry; apply Nat.ltb_ge; lia).
  cbn [orb]. eexists. split; [reflexivity|]. intros pre.
  assert (Hn : Prim2SF x <> S754_nan).
  { apply is_finite_spec in Hx. intros E. now rewrite E in Hx. }
  destruct (Prim2SF x) eqn:E; try congruence;
    rewrite !app_assoc; apply formatMagnitude_places; try assumption; lia.
Qed.

End NumberLayout.

Section FormatAmountPlaces.
Import JS.

Lemma is_finite_not_nan (x : number) : is_finite x = true -> isNaN x = false.
Proof.
  unfold is_finite, isNaN. rewrite negb_true_iff, orb_false_iff. tauto.
Qed.

(** [DataTable.formatAmount] shows as many decimal places as the amount
    string has fraction digits. *)
Lemma DataTable_formatAmount_places (ip fp : jsstring) :
  ip <> [] -> fp <> [] ->
  forallb isDigit ip = true -> forallb isDigit fp = true ->
  is_finite (parseFloat (ip ++ c_dot :: fp)) = true ->
  List.length fp <= 100 ->
  Terms.decimalPlaces (DataTable.formatAmount (JStr (ip ++ c_dot :: fp)))
  = List.length fp.
Proof.
  intros Hip0 Hfp0 Hip Hfp Hfin Hlen.
  assert (Hd : 1 <= List.length fp <= 100)
    by (destruct fp; [congruence|simpl in *; lia]).
  unfold DataTable.formatAmount, DataTable.formatAmount_try.
  replace (ToBoolean (JStr (ip ++ c_dot :: fp))) with true
    by (destruct ip; [congruence|reflexivity]).
  cbn [negb ToString].
  rewrite cleanValue_stripped, stripped_amount_string by assumption.
  rewrite (is_finite_not_nan _ Hfin).
  rewrite includes_amount_string, split_amount_string by assumption.
  cbn [nth].
  destruct (List.length fp =? 1) eqn:H1.
  - apply Nat.eqb_eq in H1. rewrite H1 in *.
    destruct (NumberFormat_places StyleDecimal _ 1 Hfin Hd)
      as (out & -> & Hout).
    exact (Hout [c_peso]).
  - destruct (List.length fp =? 2) eqn:H2.
    + apply Nat.eqb_eq in H2. rewrite H2 in *.
      destruct (NumberFormat_places StyleCurrencyPHP _ 2 Hfin Hd)
        as (out & -> & Hout).
      exact (Hout []).
    + destruct (NumberFormat_places StyleDecimal _ _ Hfin Hd)
        as (out & -> & Hout).
      exact (Hout [c_peso]).
Qed.

(** [Summary.formatAmount] always shows two. *)
Lemma Summary_formatAmount_places (ip fp : jsstring) :
  ip <> [] ->
  forallb isDigit ip = true -> forallb isDigit fp = true ->
  is_finite (parseFloat (ip ++ c_dot :: fp)) = true ->
  Terms.decimalPlaces (Summary.formatAmount (JStr (ip ++ c_dot :: fp))) = 2.
Proof.
  intros Hip0 Hip Hfp Hfin.
  unfold Summary.formatAmount, Summary.formatAmount_try.
  replace (ToBoolean (JStr (ip ++ c_dot :: fp))) with true
    by (destruct ip; [congruence|reflexivity]).
  cbn [negb]. unfold String_replace, Summary.pesoCommaRegex.
  rewrite replace_Class_empty.
  rewrite filter_amount_string; try assumption; try reflexivity.
  - destruct (NumberFormat_places StyleCurrencyPHP _ 2 Hfin ltac:(lia))
      as (out & -> & Hout).
    exact (Hout []).
  - intros c Hc. apply isDigit_range in Hc.
    unfold is_char, c_peso, c_comma.
    destruct (N.eqb_spec 8369 c); [lia|].
    destruct (N.eqb_spec 44 c); [lia|]. reflexivity.
Qed.

(** ** Falsy and non-numeric amounts *)



Lemma Summary_formatAmount_falsy (v : value) :
  ToBoolean v = false -> Summary.formatAmount v = Summary.zeroString.
Proof.
  intros H. unfold Summary.formatAmount, Summary.formatAmount_try.
  now rewrite H.
Qed.

End FormatAmountPlaces.



(** C6 (as stated, refuted): [Summary.formatAmount] renders the amount
    string ["5.1"] as ["₱5.10"], with two decimal places instead of one;
    and [DataTable.formatAmount] cannot keep 101 fraction digits: the digit
    option is out of range and the [catch] clause answers ["₱0.00"]. *)
Lemma C6_counterexample_precision_not_always_kept :
  ~ Terms.preservesPrecision Summary.formatAmount
  /\ ~ Terms.preservesPrecision DataTable.formatAmount.
Proof.
  split; intros H.
  - specialize (H (JS.lit "5") (JS.lit "1")).
    assert (E : Terms.decimalPlaces
                  (Summary.formatAmount
                     (JS.JStr (JS.lit "5" ++ JS.c_dot :: JS.lit "1"))) = 2)
      by (vm_compute; reflexivity).
    rewrite E in H.
    assert (H' : 2 = List.length (JS.lit "1")).
    { apply H; [discriminate|discriminate|reflexivity|reflexivity]. }
    discriminate H'.
  - specialize (H (JS.lit "1") (repeat JS.c_zero 101)).
    assert (E : Terms.decimalPlaces
                  (DataTable.formatAmount
                     (JS.JStr (JS.lit "1" ++ JS.c_dot
                                 :: repeat JS.c_zero 101))) = 2)
      by (vm_compute; reflexivity).
    rewrite E in H.
    assert (H' : 2 = List.length (repeat JS.c_zero 101)).
    { apply H; [discriminate|discriminate|reflexivity|].
      vm_compute. reflexivity. }
    rewrite repeat_length in H'. discriminate H'.
Qed.

Lemma Summary_formatAmount_one_digit :
  Summary.formatAmount (JS.JStr (JS.lit "5.1")) = JS.c_peso :: JS.lit "5.10".
Proof. vm_compute. reflexivity. Qed.

(** The bounds of the amended claim are needed: beyond the digit limit the
    [catch] clause answers, and with an integer part beyond the largest
    double the value is infinite. *)
Lemma DataTable_formatAmount_digit_limit :
  DataTable.formatAmount (JS.JStr (JS.lit "1." ++ repeat JS.c_zero 101))
  = DataTable.zeroString.
Proof. vm_compute. reflexivity. Qed.

Lemma DataTable_formatAmount_overflow :
  DataTable.formatAmount (JS.JStr (repeat 57%N 400 ++ JS.lit ".5"))
  = [JS.c_peso; JS.c_infinity].
Proof. vm_compute. reflexivity. Qed.

(** C6 (amended): [DataTable.formatAmount] preserves the stated precision:
    an amount string with [d] fraction digits, [1 <= d <= 100], whose value
    is finite, renders with exactly [d] decimal places (["5.1"] with 1,
    ["5.12"] with 2, ["5.123"] with 3); [Summary.formatAmount] renders every
    such amount with exactly 2 decimal places. *)
Theorem C6_DataTable_keeps_precision_Summary_shows_two
  (ip fp : JS.jsstring)
  (Hip0 : ip <> []) (Hfp0 : fp <> [])
  (Hip : forallb JS.isDigit ip = true)
  (Hfp : forallb JS.isDigit fp = true)
  (Hfinite : is_finite (JS.parseFloat (ip ++ JS.c_dot :: fp)) = true)
  (Hlimit : List.length fp <= JS.fractionDigitsLimit) :
  Terms.decimalPlaces
    (DataTable.formatAmount (JS.JStr (ip ++ JS.c_dot :: fp)))
  = List.length fp
  /\ Terms.decimalPlaces
       (Summary.formatAmount (JS.JStr (ip ++ JS.c_dot :: fp))) = 2
  /\ DataTable.formatAmount (JS.JStr (JS.lit "5.1"))
     = JS.c_peso :: JS.lit "5.1"
  /\ DataTable.formatAmount (JS.JStr (JS.lit "5.12"))
     = JS.c_peso :: JS.lit "5.12"
  /\ DataTable.formatAmount (JS.JStr (JS.lit "5.123"))
     = JS.c_peso :: JS.lit "5.123".
Proof.
  split; [now apply DataTable_formatAmount_places|].
  split; [now apply Summary_formatAmount_places|].
  split; [vm_compute; reflexivity|].
  split; vm_compute; reflexivity.
Qed.

Lemma C6_witness :
  Terms.decimalPlaces (DataTable.formatAmount (JS.JStr (JS.lit "5.123"))) = 3.
Proof.
  refine (proj1 (C6_DataTable_keeps_precision_Summary_shows_two
                   (JS.lit "5") (JS.lit "123") _ _ _ _ _ _)).
  - discriminate.
  - discriminate.
  - reflexivity.
  - reflexivity.
  - vm_compute. reflexivity.
  - vm_compute. lia.
Defined.

(* ================================================================== *)
(** * Payment summary ([paymentTotals])                                 *)
(* ================================================================== *)

Section Percentage.
Import JS.

Lemma eqb_zero_spec (x : number) :
  (x =? 0)%float = true <-> exists s, Prim2SF x = S754_zero s.
Proof. exact (is_zero_spec x). Qed.

(** Dividing by a zero total never yields a finite number: the quotient,
    and the percentage made from it, is NaN or infinite. *)
Lemma percentage_zero_total (a g : number) :
  (g =? 0)%float = true ->
  let p := (a / g * 100)%float in
  (p =? 0)%float = false
  /\ (is_nan p = true \/ is_infinity p = true)
  /\ ((a =? 0)%float = true -> is_nan p = true).
Proof.
  intros Hg p. apply eqb_zero_spec in Hg as [sg Hg].
  assert (Hp : Prim2SF p
               = SF64mul (SF64div (Prim2SF a) (S754_zero sg))
                   (Prim2SF 100%float)).
  { unfold p. rewrite mul_spec, div_spec, Hg. reflexivity. }
  assert (Hz : (a =? 0)%float = true -> exists s, Prim2SF a = S754_zero s)
    by apply eqb_zero_spec.
  change (Prim2SF 100%float) with (S754_finite false 7036874417766400 (-46))
    in Hp.
  assert (Hcases : (Prim2SF p = S754_nan
                    /\ ((a =? 0)%float = true -> Prim2SF p = S754_nan))
                   \/ (exists s, Prim2SF p = S754_infinity s
                       /\ (a =? 0)%float = false)).
  { destruct (Prim2SF a) as [s|s| |s m e] eqn:Ea; cbn in Hp.
    - left. auto.
    - right. exists (xorb (xorb s sg) false). split; [exact Hp|].
      destruct (a =? 0)%float; [|reflexivity].
      destruct (Hz eq_refl) as [? [=]].
    - left. auto.
    - right. exists (xorb (xorb s sg) false). split; [exact Hp|].
      destruct (a =? 0)%float; [|reflexivity].
      destruct (Hz eq_refl) as [? [=]]. }
  destruct Hcases as [[Hnan Hz'] | (s & Hinf & Ha)].
  - split; [|split].
    + rewrite eqb_spec, Hnan. reflexivity.
    + left. now apply is_nan_spec.
    + intros _. now apply is_nan_spec.
  - split; [|split].
    + rewrite eqb_spec, Hinf. destruct s; reflexivity.
    + right. apply is_infinity_spec. eauto.
    + rewrite Ha. discriminate.
Qed.

(** A finite non-zero number divided by itself is exactly one, so a bucket
    that holds the whole total has percentage 100. *)
Lemma div_self (g : number) :
  is_finite g = true -> (g =? 0)%float = false -> (g / g)%float = 1%float.
Proof.
  intros Hfin Hnz. apply Prim2SF_inj. rewrite div_spec.
  apply is_finite_spec in Hfin.
  destruct (Prim2SF g) as [s|s| |s m e] eqn:Eg; try contradiction.
  - assert (H : (g =? 0)%float = true) by (apply eqb_zero_spec; eauto).
    congruence.
  - change (Prim2SF 1%float) with (S754_finite false 4503599627370496 (-52)).
    unfold SF64div, SFdiv, SFdiv_core_binary.
    replace (Zdigits2 (Z.pos m) + e - (Zdigits2 (Z.pos m) + e))%Z with 0%Z
      by lia.
    rewrite Z.sub_diag.
    change (Z.min (fexp prec emax 0) 0) with (-53)%Z.
    change (0 - -53)%Z with 53%Z.
    rewrite Z.shiftl_mul_pow2 by lia.
    assert (Hq : Z.div_eucl (Z.pos m * 2 ^ 53) (Z.pos m) = (2 ^ 53, 0)%Z).
    { rewrite (surjective_pairing (Z.div_eucl _ _)).
      change (fst (Z.div_eucl (Z.pos m * 2 ^ 53) (Z.pos m)))
        with (Z.pos m * 2 ^ 53 / Z.pos m)%Z.
      change (snd (Z.div_eucl (Z.pos m * 2 ^ 53) (Z.pos m)))
        with ((Z.pos m * 2 ^ 53) mod Z.pos m)%Z.
      rewrite (Z.mul_comm (Z.pos m)), Z.div_mul, Z.mod_mul by lia.
      reflexivity. }
    rewrite Hq.
    replace (xorb s s) with false by (destruct s; reflexivity).
    unfold new_location.
    destruct (Z.even (Z.pos m)); reflexivity.
Qed.

Lemma percentage_whole (g : number) :
  is_finite g = true -> (g =? 0)%float = false ->
  (g / g * 100)%float = 100%float.
Proof. intros Hfin Hnz. rewrite (div_self g Hfin Hnz). reflexivity. Qed.

End Percentage.

Section Totals.
Import JS Summary.

Lemma jsstring_eqb_spec (a b : jsstring) : jsstring_eqb a b = true <-> a = b.
Proof.
  revert b. induction a as [|x a IH]; intros [|y b]; cbn;
    try (split; [discriminate|discriminate]); [tauto|].
  rewrite andb_true_iff, N.eqb_eq, IH. split.
  - intros [-> ->]. reflexivity.
  - intros [= -> ->]. auto.
Qed.

Lemma jsstring_eqb_refl (a : jsstring) : jsstring_eqb a a = true.
Proof. now apply jsstring_eqb_spec. Qed.

Lemma jsstring_eqb_neq (a b : jsstring) : jsstring_eqb a b = false <-> a <> b.
Proof.
  pose proof (jsstring_eqb_spec a b) as H.
  destruct (jsstring_eqb a b); split; intros; try congruence.
  - elim H0. now apply H.
  - intros E. apply H in E. discriminate.
Qed.

(** ** Own properties of [totals] *)

Lemma hasOwn_lookup (o : object) (key : jsstring) :
  hasOwn o key = match Terms.lookup o key with Some _ => true | None => false end.
Proof.
  induction o as [|[k b] o IH]; cbn; [reflexivity|].
  destruct (jsstring_eqb k key); [reflexivity|exact IH].
Qed.

Lemma lookup_update (o : object) (key key' : jsstring)
  (f : bucket -> bucket) :
  Terms.lookup (update o key f) key'
  = if jsstring_eqb key key' then option_map f (Terms.lookup o key')
    else Terms.lookup o key'.
Proof.
  induction o as [|[k b] o IH]; cbn.
  - destruct (jsstring_eqb key key'); reflexivity.
  - destruct (jsstring_eqb k key) eqn:Ek; cbn.
    + apply jsstring_eqb_spec in Ek. subst k.
      destruct (jsstring_eqb key key'); reflexivity.
    + rewrite IH. destruct (jsstring_eqb k key') eqn:Ek'; [|reflexivity].
      apply jsstring_eqb_spec in Ek'. subst k.
      destruct (jsstring_eqb key key') eqn:Ekk; [|reflexivity].
      apply jsstring_eqb_spec in Ekk. subst key.
      rewrite jsstring_eqb_refl in Ek. discriminate.
Qed.

Lemma lookup_app_new (o : object) (key key' : jsstring) (b : bucket) :
  Terms.lookup (o ++ [(key, b)]) key'
  = match Terms.lookup o key' with
    | Some x => Some x
    | None => if jsstring_eqb key key' then Some b else None
    end.
Proof.
  induction o as [|[k x] o IH]; cbn; [reflexivity|].
  destruct (jsstring_eqb k key'); [reflexivity|exact IH].
Qed.

Lemma keys_update (o : object) (key : jsstring) (f : bucket -> bucket) :
  map fst (update o key f) = map fst o.
Proof.
  induction o as [|[k b] o IH]; cbn; [reflexivity|].
  destruct (jsstring_eqb k key); cbn; [reflexivity|now f_equal].
Qed.

Lemma lookup_None_keys (o : object) (key : jsstring) :
  Terms.lookup o key = None -> ~ In key (map fst o).
Proof.
  induction o as [|[k b] o IH]; cbn; [tauto|].
  destruct (jsstring_eqb k key) eqn:Ek; [discriminate|].
  apply jsstring_eqb_neq in Ek. intros H [E|E]; [congruence|]. now apply IH.
Qed.

Lemma lookup_In (o : object) (key : jsstring) (b : bucket) :
  Terms.lookup o key = Some b -> In (key, b) o.
Proof.
  induction o as [|[k x] o IH]; cbn; [discriminate|].
  destruct (jsstring_eqb k key) eqn:Ek.
  - apply jsstring_eqb_spec in Ek. intros [= ->]. left. now subst.
  - intros H. right. now apply IH.
Qed.

Lemma In_lookup (o : object) (key : jsstring) (b : bucket) :
  NoDup (map fst o) -> In (key, b) o -> Terms.lookup o key = Some b.
Proof.
  induction o as [|[k x] o IH]; cbn; [tauto|].
  intros Hnd [E|Hin].
  - injection E as -> ->. now rewrite jsstring_eqb_refl.
  - inversion Hnd as [|? ? Hk Hnd']; subst.
    destruct (jsstring_eqb k key) eqn:Ek.
    + apply jsstring_eqb_spec in Ek. subst k.
      elim Hk. apply in_map_iff. exists (key, b). auto.
    + now apply IH.
Qed.

(** ** One step of the loop *)

Lemma accumulate_total (totals : object) (g : number) (e : entry) :
  snd (accumulate (totals, g) e) = (g + amountOf e)%float.
Proof. reflexivity. Qed.

Lemma accumulate_lookup (totals : object) (g : number) (e : entry)
  (key : jsstring) :
  inherited key = false ->
  Terms.lookup (fst (accumulate (totals, g) e)) key
  = if jsstring_eqb (typeOf e) key
    then Terms.addTo (Terms.lookup totals key) e
    else Terms.lookup totals key.
Proof.
  intros Hkey. unfold accumulate. cbn [fst].
  rewrite lookup_update.
  destruct (jsstring_eqb (typeOf e) key) eqn:Ek.
  - apply jsstring_eqb_spec in Ek. rewrite Ek, Hkey, orb_false_r.
    rewrite hasOwn_lookup.
    destruct (Terms.lookup totals key) as [b|] eqn:El; cbn [negb].
    + rewrite El. reflexivity.
    + rewrite lookup_app_new, El, jsstring_eqb_refl. reflexivity.
  - destruct (negb (hasOwn totals (typeOf e) || inherited (typeOf e)));
      [|reflexivity].
    rewrite lookup_app_new, Ek. destruct (Terms.lookup totals key); reflexivity.
Qed.

Lemma accumulate_NoDup (totals : object) (g : number) (e : entry) :
  NoDup (map fst totals) -> NoDup (map fst (fst (accumulate (totals, g) e))).
Proof.
  intros Hnd. unfold accumulate. cbn [fst]. rewrite keys_update.
  destruct (hasOwn totals (typeOf e)) eqn:Hown; cbn [orb negb];
    [exact Hnd|].
  destruct (inherited (typeOf e)); cbn [negb]; [exact Hnd|].
  rewrite map_app. cbn [map fst].
  rewrite hasOwn_lookup in Hown.
  destruct (Terms.lookup totals (typeOf e)) eqn:El; [discriminate|].
  apply lookup_None_keys in El.
  apply NoDup_app; [exact Hnd|repeat constructor; intros []|].
  intros k Hk [<-|[]]. now apply El.
Qed.

(** ** The whole loop *)

Lemma fold_accumulate_total (l : list entry) :
  forall totals g,
    snd (fold_left accumulate l (totals, g)) = Terms.sumFrom g l.
Proof.
  induction l as [|e l IH]; intros totals g; [reflexivity|].
  cbn [fold_left]. unfold Terms.sumFrom. cbn [fold_left].
  destruct (accumulate (totals, g) e) as [totals' g'] eqn:E.
  rewrite IH. apply (f_equal snd) in E. rewrite accumulate_total in E.
  cbn in E. subst g'. reflexivity.
Qed.

Lemma fold_accumulate_lookup (l : list entry) (key : jsstring) :
  inherited key = false ->
  forall totals g,
    Terms.lookup (fst (fold_left accumulate l (totals, g))) key
    = fold_left Terms.addTo (Terms.bucketed l key) (Terms.lookup totals key).
Proof.
  intros Hkey. induction l as [|e l IH]; intros totals g; [reflexivity|].
  cbn [fold_left]. unfold Terms.bucketed. cbn [filter].
  destruct (accumulate (totals, g) e) as [totals' g'] eqn:E.
  rewrite IH. apply (f_equal fst) in E. cbn [fst] in E. subst totals'.
  rewrite accumulate_lookup by assumption.
  destruct (jsstring_eqb (typeOf e) key); reflexivity.
Qed.

Lemma fold_accumulate_NoDup (l : list entry) :
  forall (totals : object) (g : number),
    NoDup (map fst totals) ->
    NoDup (map fst (fst (fold_left accumulate l (totals, g)))).
Proof.
  induction l as [|e l IH]; intros totals g Hnd; [exact Hnd|].
  cbn [fold_left].
  pose proof (accumulate_NoDup totals g e Hnd) as H. revert H.
  destruct (accumulate (totals, g) e) as [totals' g']. apply IH.
Qed.

(** What a bucket holds after some entries were added to it. *)
Lemma fold_addTo (es : list entry) :
  forall ob,
    fold_left Terms.addTo es ob
    = match es with
      | [] => ob
      | _ :: _ =>
          let b := match ob with
                   | Some b => b
                   | None => {| count := 0; bucket_amount := zero |}
                   end in
          Some {| count := count b + List.length es;
                  bucket_amount := Terms.sumFrom (bucket_amount b) es |}
      end.
Proof.
  induction es as [|e es IH]; intros ob; [reflexivity|].
  cbn [fold_left]. rewrite IH. destruct es as [|e' es].
  - reflexivity.
  - cbn [Terms.addTo count bucket_amount List.length].
    f_equal. f_equal. lia.
Qed.

End Totals.

Section Rows.
Import JS Summary.

(** ** [Object.entries] and [sort] keep the rows *)

Lemma insertIndex_In (kv x : jsstring * bucket) (l : object) :
  In x (insertIndex kv l) <-> x = kv \/ In x l.
Proof.
  induction l as [|kv' l IH]; cbn [insertIndex].
  - cbn. split; [intros [H|[]]; auto|intros [H|[]]; auto].
  - destruct (digitsToZ (fst kv) <? digitsToZ (fst kv'))%Z; cbn [In].
    + split; intros [H|H]; auto.
    + rewrite IH. split; intros H; intuition auto.
Qed.

Lemma sortIndex_In (x : jsstring * bucket) (l : object) :
  In x (fold_right insertIndex [] l) <-> In x l.
Proof.
  induction l as [|kv l IH]; cbn [fold_right In]; [tauto|].
  rewrite insertIndex_In, IH. split; intros [H|H]; auto.
Qed.

Lemma Object_entries_In (x : jsstring * bucket) (o : object) :
  In x (Object_entries o) <-> In x o.
Proof.
  unfold Object_entries. rewrite in_app_iff, sortIndex_In, !filter_In.
  destruct (isArrayIndex (fst x)); cbn; intuition auto; discriminate.
Qed.

Lemma insertItem_In (x y : item) (l : list item) :
  In y (insertItem x l) <-> y = x \/ In y l.
Proof.
  induction l as [|z l IH]; cbn [insertItem].
  - cbn. split; [intros [H|[]]; auto|intros [H|[]]; auto].
  - destruct (comparefn z x <? 0)%float; cbn [In].
    + rewrite IH. split; intros H; intuition auto.
    + split; intros [H|H]; auto.
Qed.

Lemma Array_sort_In (y : item) (l : list item) :
  In y (Array_sort l) <-> In y l.
Proof.
  unfold Array_sort. induction l as [|x l IH]; cbn [fold_right In]; [tauto|].
  rewrite insertItem_In, IH. split; intros [H|H]; auto.
Qed.

(** ** The result of [paymentTotals] *)

Lemma paymentTotals_Some (entries : list entry) (selectedModel : jsstring) :
  paymentTotals (Some entries) selectedModel
  = {| items :=
         Array_sort
           (map (Terms.rowOf
                   (snd (Terms.loopState (filteredEntries entries selectedModel))))
              (Object_entries
                 (fst (Terms.loopState (filteredEntries entries selectedModel)))));
       grandTotal :=
         snd (Terms.loopState (filteredEntries entries selectedModel)) |}.
Proof.
  unfold paymentTotals, Terms.loopState.
  destruct (fold_left accumulate (filteredEntries entries selectedModel)
              ([], zero)) as [totals g].
  cbn [fst snd]. f_equal. f_equal. apply map_ext. intros [k b]. reflexivity.
Qed.

Lemma paymentTotals_grandTotal (entries : list entry) (sel : jsstring) :
  grandTotal (paymentTotals (Some entries) sel)
  = Terms.sumFrom zero (filteredEntries entries sel).
Proof.
  rewrite paymentTotals_Some. cbn [grandTotal]. unfold Terms.loopState.
  apply fold_accumulate_total.
Qed.

Lemma paymentTotals_items (entries : list entry) (sel : jsstring) (it : item) :
  In it (items (paymentTotals (Some entries) sel))
  <-> exists kv,
        In kv (fst (Terms.loopState (filteredEntries entries sel)))
        /\ it = Terms.rowOf (grandTotal (paymentTotals (Some entries) sel)) kv.
Proof.
  rewrite paymentTotals_Some. cbn [items grandTotal].
  rewrite Array_sort_In, in_map_iff. split.
  - intros (kv & <- & Hkv). apply (proj1 (Object_entries_In _ _)) in Hkv.
    exists kv. split; [exact Hkv|reflexivity].
  - intros (kv & Hkv & ->). exists kv. split; [reflexivity|].
    now apply Object_entries_In.
Qed.

(** Every row's percentage is its amount over the grand total, times 100,
    with no test on the total. *)
Lemma paymentTotals_percentage (entries : option (list entry))
  (sel : jsstring) (it : item) :
  In it (items (paymentTotals entries sel)) ->
  percentage it
  = (item_amount it / grandTotal (paymentTotals entries sel) * 100)%float.
Proof.
  destruct entries as [entries|]; [|intros []].
  intros H. apply paymentTotals_items in H as (kv & _ & ->). reflexivity.
Qed.

(** The row of a key that no built-in property shadows. *)
Lemma paymentTotals_row (entries : list entry) (sel key : jsstring) :
  inherited key = false ->
  let view := filteredEntries entries sel in
  let r := paymentTotals (Some entries) sel in
  let row :=
    {| type := key;
       item_count := List.length (Terms.bucketed view key);
       item_amount := Terms.sumFrom zero (Terms.bucketed view key);
       percentage :=
         (Terms.sumFrom zero (Terms.bucketed view key) / grandTotal r
          * 100)%float |} in
  (Terms.bucketed view key <> [] -> In row (items r))
  /\ (forall it, In it (items r) -> type it = key ->
                 it = row /\ Terms.bucketed view key <> []).
Proof.
  intros Hkey view r row.
  assert (Hl : Terms.lookup (fst (Terms.loopState view)) key
               = match Terms.bucketed view key with
                 | [] => None
                 | _ :: _ =>
                     Some {| count := List.length (Terms.bucketed view key);
                             bucket_amount :=
                               Terms.sumFrom zero (Terms.bucketed view key) |}
                 end).
  { unfold Terms.loopState. rewrite fold_accumulate_lookup by assumption.
    rewrite fold_addTo. cbn [Terms.lookup].
    destruct (Terms.bucketed view key); reflexivity. }
  assert (Hnd : NoDup (map fst (fst (Terms.loopState view)))).
  { unfold Terms.loopState. apply fold_accumulate_NoDup. constructor. }
  split.
  - intros Hne. apply paymentTotals_items.
    destruct (Terms.bucketed view key) as [|e es] eqn:Eb; [congruence|].
    apply lookup_In in Hl. eexists. split; [exact Hl|]. reflexivity.
  - intros it Hit Htype.
    apply paymentTotals_items in Hit as ([k b] & Hkv & ->).
    cbn in Htype. subst k.
    apply (In_lookup _ _ _ Hnd) in Hkv. rewrite Hkv in Hl.
    destruct (Terms.bucketed view key) as [|e es] eqn:Eb; [discriminate|].
    injection Hl as ->. split; [reflexivity|discriminate].
Qed.

End Rows.

Section Views.
Import JS Summary.

Lemma strictEqualsString_spec (v : value) (s : jsstring) :
  strictEqualsString v s = true <-> v = JStr s.
Proof.
  destruct v; cbn; try (split; [discriminate|discriminate]).
  rewrite jsstring_eqb_spec. split; [now intros ->|now intros [= ->]].
Qed.

Lemma filteredEntries_All (entries : list entry) :
  filteredEntries entries (lit "All") = entries.
Proof. reflexivity. Qed.

Lemma filteredEntries_other (entries : list entry) (sel : jsstring) :
  sel <> lit "All" ->
  filteredEntries entries sel
  = filter (fun entry => strictEqualsString (paymentType entry) sel) entries.
Proof.
  intros H. unfold filteredEntries.
  apply jsstring_eqb_neq in H. now rewrite H.
Qed.

(** The options of the select element are non-empty strings that no
    built-in property shadows. *)
Lemma PAYMENT_MODELS_plain (sel : jsstring) :
  In sel PAYMENT_MODELS -> sel <> [] /\ inherited sel = false.
Proof.
  intros H. cbn in H.
  repeat (destruct H as [<-|H]; [split; [discriminate|reflexivity]|]).
  destruct H.
Qed.

Lemma typeOf_string (e : entry) (s : jsstring) :
  s <> [] -> paymentType e = JStr s -> typeOf e = s.
Proof.
  intros Hs E. unfold typeOf. rewrite E. destruct s; [congruence|reflexivity].
Qed.

Lemma typeOf_falsy (e : entry) :
  ToBoolean (paymentType e) = false -> typeOf e = lit "Unknown".
Proof. intros H. unfold typeOf. now rewrite H. Qed.

(** ** A view whose entries all have the same type *)

Lemma accumulate_same_key (key : jsstring) (n : nat) (a g : number)
  (e : entry) :
  typeOf e = key ->
  accumulate ([(key, {| count := n; bucket_amount := a |})], g) e
  = ([(key, {| count := n + 1;
               bucket_amount := (a + amountOf e)%float |})],
     (g + amountOf e)%float).
Proof.
  intros Hk. unfold accumulate. rewrite Hk.
  cbn [hasOwn]. rewrite jsstring_eqb_refl. cbn [orb negb update].
  rewrite jsstring_eqb_refl. reflexivity.
Qed.

Lemma accumulate_first (key : jsstring) (g : number) (e : entry) :
  inherited key = false -> typeOf e = key ->
  accumulate ([], g) e
  = ([(key, {| count := 0 + 1;
               bucket_amount := (zero + amountOf e)%float |})],
     (g + amountOf e)%float).
Proof.
  intros Hkey Hk. unfold accumulate. rewrite Hk.
  cbn [hasOwn orb]. rewrite Hkey. cbn [negb app update].
  rewrite jsstring_eqb_refl. reflexivity.
Qed.

Lemma fold_single (key : jsstring) (l : list entry) :
  (forall e, In e l -> typeOf e = key) ->
  forall n a g,
    fold_left accumulate l
      ([(key, {| count := n; bucket_amount := a |})], g)
    = ([(key, {| count := n + List.length l;
                 bucket_amount := Terms.sumFrom a l |})],
       Terms.sumFrom g l).
Proof.
  induction l as [|e l IH]; intros Hall n a g.
  - cbn. now rewrite Nat.add_0_r.
  - cbn [fold_left].
    rewrite accumulate_same_key by (apply Hall; now left).
    rewrite IH by (intros e' He'; apply Hall; now right).
    cbn [List.length].
    replace (n + 1 + List.length l) with (n + S (List.length l)) by lia.
    reflexivity.
Qed.

Lemma loopState_single (key : jsstring) (e : entry) (l : list entry) :
  inherited key = false ->
  (forall e', In e' (e :: l) -> typeOf e' = key) ->
  Terms.loopState (e :: l)
  = ([(key, {| count := List.length (e :: l);
               bucket_amount := Terms.sumFrom zero (e :: l) |})],
     Terms.sumFrom zero (e :: l)).
Proof.
  intros Hkey Hall. unfold Terms.loopState. cbn [fold_left].
  rewrite (accumulate_first key) by (assumption || (apply Hall; now left)).
  rewrite fold_single by (intros e' He'; apply Hall; now right).
  reflexivity.
Qed.

Lemma Object_entries_single (kv : jsstring * bucket) :
  Object_entries [kv] = [kv].
Proof.
  unfold Object_entries. cbn [filter].
  destruct (isArrayIndex (fst kv)); reflexivity.
Qed.

(** With a payment type selected, the table has one row, for that type,
    holding the whole of the view. *)
Lemma paymentTotals_selected (entries : list entry) (sel : jsstring) :
  In sel PAYMENT_MODELS -> sel <> lit "All" ->
  let view := filteredEntries entries sel in
  let G := Terms.sumFrom zero view in
  paymentTotals (Some entries) sel
  = {| items :=
         match view with
         | [] => []
         | _ :: _ =>
             [{| type := sel;
                 item_count := List.length view;
                 item_amount := G;
                 percentage := (G / G * 100)%float |}]
         end;
       grandTotal := G |}.
Proof.
  intros Hsel Hall view G.
  destruct (PAYMENT_MODELS_plain sel Hsel) as [Hne Hkey].
  rewrite paymentTotals_Some. fold view.
  assert (Hview : forall e, In e view -> typeOf e = sel).
  { intros e He. unfold view in He.
    rewrite filteredEntries_other in He by assumption.
    apply filter_In in He as [_ He].
    apply strictEqualsString_spec in He. now apply typeOf_string. }
  unfold G. destruct view as [|e l] eqn:Ev.
  - reflexivity.
  - rewrite (loopState_single sel e l Hkey Hview). cbn [fst snd].
    rewrite Object_entries_single. reflexivity.
Qed.

(** ** A view in which every amount is null or zero *)

Lemma sumFrom_zero (l : list entry) :
  (forall e, In e l -> amountOf e = zero) -> Terms.sumFrom zero l = zero.
Proof.
  induction l as [|e l IH]; intros H; [reflexivity|].
  unfold Terms.sumFrom. cbn [fold_left].
  rewrite (H e (or_introl eq_refl)).
  change (zero + zero)%float with zero.
  apply IH. intros e' He'. apply H. now right.
Qed.

Lemma update_zero (o : object) (key : jsstring) :
  Forall (fun kv => bucket_amount (snd kv) = zero) o ->
  Forall (fun kv => bucket_amount (snd kv) = zero)
    (update o key
       (fun b => {| count := count b + 1;
                    bucket_amount := (bucket_amount b + zero)%float |})).
Proof.
  induction 1 as [|[k b] o Hb Ho IH]; cbn [update]; [constructor|].
  destruct (jsstring_eqb k key); constructor; try assumption.
  cbn in *. rewrite Hb. reflexivity.
Qed.

Lemma loop_zero (l : list entry) :
  (forall e, In e l -> amountOf e = zero) ->
  forall (totals : object) (g : number),
    Forall (fun kv => bucket_amount (snd kv) = zero) totals ->
    Forall (fun kv => bucket_amount (snd kv) = zero)
      (fst (fold_left accumulate l (totals, g))).
Proof.
  induction l as [|e l IH]; intros H totals g Ht; [exact Ht|].
  cbn [fold_left]. unfold accumulate at 2.
  rewrite (H e (or_introl eq_refl)).
  apply IH; [intros e' He'; apply H; now right|].
  apply update_zero.
  destruct (negb (hasOwn totals (typeOf e) || inherited (typeOf e)));
    [|exact Ht].
  apply Forall_app. split; [exact Ht|]. repeat constructor.
Qed.

Lemma paymentTotals_all_zero (entries : list entry) (sel : jsstring)
  (it : item) :
  (forall e, In e (filteredEntries entries sel) -> amountOf e = zero) ->
  In it (items (paymentTotals (Some entries) sel)) ->
  grandTotal (paymentTotals (Some entries) sel) = zero
  /\ item_amount it = zero
  /\ is_nan (percentage it) = true.
Proof.
  intros Hz Hit.
  assert (Hg : grandTotal (paymentTotals (Some entries) sel) = zero).
  { rewrite paymentTotals_grandTotal. now apply sumFrom_zero. }
  assert (Ha : item_amount it = zero).
  { apply paymentTotals_items in Hit as (kv & Hkv & ->).
    pose proof (loop_zero _ Hz [] zero (Forall_nil _)) as Hall.
    rewrite Forall_forall in Hall. exact (Hall kv Hkv). }
  split; [exact Hg|]. split; [exact Ha|].
  rewrite (paymentTotals_percentage _ _ _ Hit), Hg, Ha. reflexivity.
Qed.

Lemma filter_length_lt (P Q : entry -> bool) (l : list entry) (e : entry) :
  (forall x, P x = true -> Q x = true) ->
  In e l -> Q e = true -> P e = false ->
  List.length (filter P l) < List.length (filter Q l).
Proof.
  intros HPQ. 
  assert (Hle : forall l', List.length (filter P l')
                           <= List.length (filter Q l')).
  { induction l' as [|x l' IH]; cbn; [lia|].
    destruct (P x) eqn:Px.
    - rewrite (HPQ x Px). cbn. lia.
    - destruct (Q x); cbn; lia. }
  induction l as [|x l IH]; intros Hin Qe Pe; [destruct Hin|].
  cbn. destruct Hin as [->|Hin].
  - rewrite Pe, Qe. cbn. specialize (Hle l). lia.
  - specialize (IH Hin Qe Pe). destruct (P x) eqn:Px.
    + rewrite (HPQ x Px). cbn. lia.
    + destruct (Q x); cbn; lia.
Qed.

End Views.

(** C1 (code at the failing input): one entry with a null amount gives a
    grand total of 0, and the percentage of its row is [0 / 0 * 100], which
    is NaN and is rendered as ["NaN%"]; the claim says 0. *)
Theorem C1_zero_total_percentage_is_NaN :
  let entries :=
    [{| Summary.paymentType := JS.JStr (JS.lit "BDO");
        Summary.amount := JS.JNull |}] in
  let r := Summary.paymentTotals (Some entries) (JS.lit "All") in
  Summary.grandTotal r = zero
  /\ Summary.items r
     = [{| Summary.type := JS.lit "BDO";
           Summary.item_count := 1;
           Summary.item_amount := zero;
           Summary.percentage := nan |}]
  /\ map Summary.percentageCell (Summary.items r) = [JS.lit "NaN%"]
  /\ forall it, In it (Summary.items r) ->
                (Summary.percentage it =? 0)%float = false.
Proof.
  cbv zeta.
  assert (Hitems :
            Summary.items
              (Summary.paymentTotals
                 (Some [{| Summary.paymentType := JS.JStr (JS.lit "BDO");
                           Summary.amount := JS.JNull |}])
                 (JS.lit "All"))
            = [{| Summary.type := JS.lit "BDO";
                  Summary.item_count := 1;
                  Summary.item_amount := zero;
                  Summary.percentage := nan |}])
    by (vm_compute; reflexivity).
  split; [vm_compute; reflexivity|].
  split; [exact Hitems|].
  split; [vm_compute; reflexivity|].
  intros it Hit. rewrite Hitems in Hit.
  destruct Hit as [<-|[]]. reflexivity.
Qed.

(** The defect in general: whenever the grand total is 0, no row has
    percentage 0; each is NaN (rows whose amount is 0) or infinite. *)
Lemma zero_total_percentages (entries : option (list Summary.entry))
  (selectedModel : JS.jsstring) (it : Summary.item) :
  In it (Summary.items (Summary.paymentTotals entries selectedModel)) ->
  (Summary.grandTotal (Summary.paymentTotals entries selectedModel) =? 0)%float
  = true ->
  (Summary.percentage it =? 0)%float = false
  /\ (is_nan (Summary.percentage it) = true
      \/ is_infinity (Summary.percentage it) = true)
  /\ ((Summary.item_amount it =? 0)%float = true ->
      is_nan (Summary.percentage it) = true).
Proof.
  intros Hit Hg. rewrite (paymentTotals_percentage _ _ _ Hit).
  now apply percentage_zero_total.
Qed.

(** C5 (as stated, refuted): filtered to ["BDO"], a view whose only entry
    has a null amount has one row, and its percentage is NaN, not 100. *)
Lemma C5_counterexample_zero_total_row :
  ~ (forall (entries : list Summary.entry) (selectedModel : JS.jsstring)
            (it : Summary.item),
        In selectedModel Summary.PAYMENT_MODELS ->
        selectedModel <> JS.lit "All" ->
        In it (Summary.items
                 (Summary.paymentTotals (Some entries) selectedModel)) ->
        Summary.percentage it = 100%float).
Proof.
  intros H.
  specialize (H [{| Summary.paymentType := JS.JStr (JS.lit "BDO");
                    Summary.amount := JS.JNull |}]
                (JS.lit "BDO")
                {| Summary.type := JS.lit "BDO";
                   Summary.item_count := 1;
                   Summary.item_amount := zero;
                   Summary.percentage := nan |}).
  assert (E : nan = 100%float).
  { apply H.
    - vm_compute. tauto.
    - discriminate.
    - vm_compute. left. reflexivity. }
  apply (f_equal is_nan) in E. vm_compute in E. discriminate E.
Qed.

(** C5 (amended): with one payment type selected, counts, totals and
    percentages are recomputed over the entries whose payment type is that
    type: the grand total is the sum over that subset, the table has a
    single row for the type, with the subset's count and total, and the
    row's percentage is taken relative to the subset's own grand total: it
    is 100 whenever that grand total is a finite number other than 0.  The
    ["All"] filter is the unfiltered case. *)
Theorem C5_selected_type_single_row_of_its_own_total
  (entries : list Summary.entry) (selectedModel : JS.jsstring)
  (Hoption : In selectedModel Summary.PAYMENT_MODELS)
  (Hselected : selectedModel <> JS.lit "All") :
  let view :=
    filter (fun entry =>
              JS.strictEqualsString (Summary.paymentType entry) selectedModel)
           entries in
  let G := Terms.sumFrom zero view in
  let r := Summary.paymentTotals (Some entries) selectedModel in
  Summary.filteredEntries entries selectedModel = view
  /\ Summary.filteredEntries entries (JS.lit "All") = entries
  /\ Summary.grandTotal r = G
  /\ (view = [] -> Summary.items r = [])
  /\ (view <> [] ->
      exists row,
        Summary.items r = [row]
        /\ Summary.type row = selectedModel
        /\ Summary.item_count row = List.length view
        /\ Summary.item_amount row = G
        /\ Summary.percentage row
           = (Summary.item_amount row / Summary.grandTotal r * 100)%float
        /\ (is_finite G = true -> (G =? 0)%float = false ->
            Summary.percentage row = 100%float)).
Proof.
  intros view G r.
  pose proof (filteredEntries_other entries selectedModel Hselected) as Hview.
  pose proof (paymentTotals_selected entries selectedModel Hoption Hselected)
    as Hr.
  cbv zeta in Hr. rewrite Hview in Hr. fold view in Hr. fold G in Hr.
  fold r in Hr.
  split; [exact Hview|]. split; [reflexivity|].
  split; [rewrite Hr; reflexivity|].
  split; [intros E; rewrite Hr, E; reflexivity|].
  intros Hne. rewrite Hr. cbn [Summary.items Summary.grandTotal].
  destruct view as [|e view']; [congruence|].
  eexists. split; [reflexivity|]. cbn.
  repeat (split; [reflexivity|]).
  intros Hfin Hnz. now apply percentage_whole.
Qed.

Lemma C5_witness :
  let entries :=
    [{| Summary.paymentType := JS.JStr (JS.lit "BDO");
        Summary.amount := JS.JNum 10%float |};
     {| Summary.paymentType := JS.JStr (JS.lit "SM");
        Summary.amount := JS.JStr (JS.lit "5.5") |};
     {| Summary.paymentType := JS.JStr (JS.lit "BDO");
        Summary.amount := JS.JStr (JS.lit "2.25") |}] in
  let r := Summary.paymentTotals (Some entries) (JS.lit "BDO") in
  Summary.grandTotal r = 12.25%float
  /\ exists row,
       Summary.items r = [row]
       /\ Summary.item_count row = 2
       /\ Summary.item_amount row = 12.25%float
       /\ Summary.percentage row = 100%float.
Proof.
  cbv zeta.
  set (entries :=
         [{| Summary.paymentType := JS.JStr (JS.lit "BDO");
             Summary.amount := JS.JNum 10%float |};
          {| Summary.paymentType := JS.JStr (JS.lit "SM");
             Summary.amount := JS.JStr (JS.lit "5.5") |};
          {| Summary.paymentType := JS.JStr (JS.lit "BDO");
             Summary.amount := JS.JStr (JS.lit "2.25") |}]).
  assert (Hoption : In (JS.lit "BDO") Summary.PAYMENT_MODELS)
    by (vm_compute; tauto).
  assert (Hselected : JS.lit "BDO" <> JS.lit "All") by discriminate.
  destruct (C5_selected_type_single_row_of_its_own_total
              entries (JS.lit "BDO") Hoption Hselected)
    as (_ & _ & Hg & _ & Hrow).
  split.
  - rewrite Hg. vm_compute. reflexivity.
  - destruct Hrow as (row & Hitems & _ & Hcount & Hamount & _ & H100).
    + discriminate.
    + exists row. split; [exact Hitems|].
      split; [rewrite Hcount; reflexivity|].
      split; [rewrite Hamount; vm_compute; reflexivity|].
      apply H100; vm_compute; reflexivity.
Defined.

(** C10: filtering by ["Unknown"] selects exactly the entries whose
    [paymentType] is the string ["Unknown"]; an entry whose [paymentType] is
    missing, null or empty (falsy) is not among them, although the
    unfiltered view counts that entry in its ["Unknown"] row through the
    [|| 'Unknown'] fallback; the row of the filtered view therefore has a
    smaller count. *)
Theorem C10_Unknown_filter_excludes_fallback_entries
  (entries : list Summary.entry) (e : Summary.entry)
  (Hin : In e entries)
  (Hfalsy : JS.ToBoolean (Summary.paymentType e) = false) :
  let unknown := JS.lit "Unknown" in
  (forall e', In e' (Summary.filteredEntries entries unknown)
              <-> In e' entries
                  /\ Summary.paymentType e' = JS.JStr unknown)
  /\ ~ In e (Summary.filteredEntries entries unknown)
  /\ Summary.typeOf e = unknown
  /\ In e (Terms.bucketed entries unknown)
  /\ (exists row,
         In row (Summary.items
                   (Summary.paymentTotals (Some entries) (JS.lit "All")))
         /\ Summary.type row = unknown
         /\ Summary.item_count row
            = List.length (Terms.bucketed entries unknown))
  /\ (forall row',
         In row' (Summary.items
                    (Summary.paymentTotals (Some entries) unknown)) ->
         Summary.item_count row'
         = List.length (Summary.filteredEntries entries unknown)
         /\ Summary.item_count row'
            < List.length (Terms.bucketed entries unknown)).
Proof.
  intros unknown.
  assert (Hne : unknown <> JS.lit "All") by discriminate.
  assert (Hopt : In unknown Summary.PAYMENT_MODELS) by (vm_compute; tauto).
  assert (Hkey : Summary.inherited unknown = false) by reflexivity.
  pose proof (filteredEntries_other entries unknown Hne) as Hview.
  assert (Hmem : forall e', In e' (Summary.filteredEntries entries unknown)
                            <-> In e' entries
                                /\ Summary.paymentType e' = JS.JStr unknown).
  { intros e'. rewrite Hview, filter_In, strictEqualsString_spec. tauto. }
  assert (Hout : ~ In e (Summary.filteredEntries entries unknown)).
  { intros H. apply Hmem in H as [_ H]. rewrite H in Hfalsy. discriminate. }
  assert (Htype : Summary.typeOf e = unknown) by now apply typeOf_falsy.
  assert (Hb : In e (Terms.bucketed entries unknown)).
  { apply filter_In. split; [exact Hin|].
    rewrite Htype. apply jsstring_eqb_refl. }
  split; [exact Hmem|]. split; [exact Hout|]. split; [exact Htype|].
  split; [exact Hb|]. split.
  - destruct (paymentTotals_row entries (JS.lit "All") unknown Hkey)
      as [Hrow _].
    rewrite filteredEntries_All in Hrow.
    eexists. split; [apply Hrow|split; reflexivity].
    intros E. rewrite E in Hb. destruct Hb.
  - intros row' Hrow'.
    pose proof (paymentTotals_selected entries unknown Hopt Hne) as Hr.
    cbv zeta in Hr. rewrite Hr in Hrow'. cbn [Summary.items] in Hrow'.
    destruct (Summary.filteredEntries entries unknown) as [|x view] eqn:Ev;
      [destruct Hrow'|].
    destruct Hrow' as [<-|[]]. cbn [Summary.item_count].
    split; [reflexivity|].
    rewrite Hview.
    apply (filter_length_lt _ _ entries e); try assumption.
    + intros x0 Hx. apply strictEqualsString_spec in Hx.
      rewrite (typeOf_string x0 unknown); [apply jsstring_eqb_refl| |exact Hx].
      discriminate.
    + rewrite Htype. apply jsstring_eqb_refl.
    + destruct (JS.strictEqualsString (Summary.paymentType e) unknown) eqn:S;
        [|reflexivity].
      apply strictEqualsString_spec in S. rewrite S in Hfalsy. discriminate.
Qed.

Lemma C10_witness :
  let entries :=
    [{| Summary.paymentType := JS.JStr (JS.lit "Unknown");
        Summary.amount := JS.JNum 10%float |};
     {| Summary.paymentType := JS.JNull;
        Summary.amount := JS.JNum 5%float |}] in
  ~ In {| Summary.paymentType := JS.JNull;
          Summary.amount := JS.JNum 5%float |}
       (Summary.filteredEntries entries (JS.lit "Unknown")).
Proof.
  cbv zeta.
  refine (proj1 (proj2
            (C10_Unknown_filter_excludes_fallback_entries _ _ _ _))).
  - right. left. reflexivity.
  - reflexivity.
Defined.

(* ================================================================== *)
(** * Cleaned lines: shape and content                                  *)
(* ================================================================== *)

Section CleanedLines.
Import JS.

Lemma trim_trimmed (s : jsstring) : Props.trimmed (String_trim s).
Proof.
  split.
  - apply trimEnd_head, trimStart_head.
  - unfold String_trim, trimEnd. rewrite rev_involutive.
    apply trimStart_head.
Qed.

Lemma clean_unfold (s : jsstring) :
  Terms.clean s
  = match s with
    | [] => []
    | _ :: _ => String_trim (Terms.squeeze false (Terms.unseparate s))
    end.
Proof. unfold Terms.clean. rewrite cleanLineContent_string. reflexivity. Qed.

Lemma runs_map (P : N -> bool) (g : N -> N) :
  (forall c, P c = true -> g c = c) ->
  (forall c, P c = false -> P (g c) = false) ->
  forall s cur, Terms.runs P cur (map g s) = Terms.runs P cur s.
Proof.
  intros Hfix Hout. induction s as [|c s IH]; intros cur; cbn; [reflexivity|].
  destruct (P c) eqn:Hc.
  - rewrite (Hfix c Hc), Hc. apply IH.
  - rewrite (Hout c Hc). f_equal. apply IH.
Qed.

(** ** Runs of a class of characters that cleaning does not touch *)

Section Runs.

(** A class without white space and without separators. *)
Variable P : N -> bool.
Hypothesis P_whitespace : forall c, isWhiteSpace c = true -> P c = false.
Hypothesis P_separator : forall c, Terms.isSeparator c = true -> P c = false.

Lemma runs_separator (c0 : N) (s cur : jsstring) :
  Terms.isSeparator c0 = true ->
  Terms.runs P cur (map (fun c => if (c0 =? c)%N then c_space else c) s)
  = Terms.runs P cur s.
Proof.
  intros H0. apply runs_map.
  - intros c Hc. destruct (c0 =? c)%N eqn:E; [|reflexivity].
    apply N.eqb_eq in E. subst c.
    rewrite (P_separator c0 H0) in Hc. discriminate.
  - intros c Hc. destruct (c0 =? c)%N; [|exact Hc].
    now apply P_whitespace.
Qed.

Lemma runs_unseparate (s cur : jsstring) :
  Terms.runs P cur (Terms.unseparate s) = Terms.runs P cur s.
Proof.
  unfold Terms.unseparate.
  rewrite !runs_separator; reflexivity.
Qed.

Lemma runs_squeeze (s : jsstring) :
  forall (b : bool) (cur : jsstring),
    (b = true -> cur = []) ->
    Terms.runs P cur (Terms.squeeze b s) = Terms.runs P cur s.
Proof.
  induction s as [|c s IH]; intros b cur Hb; [reflexivity|].
  cbn [Terms.squeeze Terms.runs].
  destruct (isWhiteSpace c) eqn:Hc.
  - rewrite (P_whitespace c Hc). destruct b.
    + rewrite (Hb eq_refl). cbn [Terms.flush app]. now apply IH.
    + cbn [Terms.runs].
      rewrite (P_whitespace c_space eq_refl).
      f_equal. now apply IH.
  - cbn [Terms.runs]. destruct (P c).
    + apply IH. discriminate.
    + f_equal. apply IH. discriminate.
Qed.

Lemma runs_leading (w t : jsstring) :
  forallb isWhiteSpace w = true ->
  Terms.runs P [] (w ++ t) = Terms.runs P [] t.
Proof.
  induction w as [|c w IH]; cbn; [reflexivity|].
  intros H. apply andb_true_iff in H as [Hc Hw].
  rewrite (P_whitespace c Hc). cbn. now apply IH.
Qed.

Lemma runs_trailing (t w : jsstring) :
  forallb isWhiteSpace w = true ->
  forall cur, Terms.runs P cur (t ++ w) = Terms.runs P cur t.
Proof.
  intros Hw. induction t as [|c t IH]; intros cur.
  - cbn [app Terms.runs]. revert cur.
    induction w as [|c w IHw]; intros cur; [reflexivity|].
    cbn in Hw. apply andb_true_iff in Hw as [Hc Hw].
    cbn [Terms.runs]. rewrite (P_whitespace c Hc).
    rewrite (IHw Hw). cbn. apply app_nil_r.
  - cbn. destruct (P c); [apply IH|f_equal; apply IH].
Qed.

Lemma runs_trim (s : jsstring) :
  Terms.runs P [] (String_trim s) = Terms.runs P [] s.
Proof.
  unfold String_trim.
  destruct (trimStart_suffix s) as (w & E & Hw).
  destruct (trimEnd_prefix (trimStart s)) as (w' & E' & Hw').
  rewrite E at 2. rewrite (runs_leading _ _ Hw).
  rewrite E' at 2. rewrite (runs_trailing _ _ Hw'). reflexivity.
Qed.

(** Cleaning keeps the runs of the class. *)
Lemma runs_clean (s : jsstring) :
  Terms.runs P [] (Terms.clean s) = Terms.runs P [] s.
Proof.
  rewrite clean_unfold. destruct s as [|c s]; [reflexivity|].
  rewrite runs_trim, runs_squeeze by discriminate.
  apply runs_unseparate.
Qed.

End Runs.

Lemma fields_clean (s : jsstring) :
  Props.fields (Terms.clean s) = Props.fields s.
Proof.
  apply runs_clean; intros c Hc; unfold Props.inField; rewrite Hc;
    [reflexivity|now rewrite orb_true_r].
Qed.

Lemma squeeze_length (s : jsstring) :
  forall b, List.length (Terms.squeeze b s) <= List.length s.
Proof.
  induction s as [|c s IH]; intros b; cbn; [lia|].
  pose proof (IH true). pose proof (IH false).
  destruct (isWhiteSpace c); [destruct b|]; cbn; lia.
Qed.

Lemma trim_length (s : jsstring) :
  List.length (String_trim s) <= List.length s.
Proof.
  unfold String_trim.
  destruct (trimStart_suffix s) as (w & E & _).
  destruct (trimEnd_prefix (trimStart s)) as (w' & E' & _).
  apply (f_equal (@List.length N)) in E, E'.
  rewrite length_app in E, E'. lia.
Qed.

Lemma clean_length (s : jsstring) :
  List.length (Terms.clean s) <= List.length s.
Proof.
  rewrite clean_unfold. destruct s as [|c s]; [cbn; lia|].
  etransitivity; [apply trim_length|].
  etransitivity; [apply squeeze_length|].
  unfold Terms.unseparate. rewrite !length_map. lia.
Qed.

Lemma clean_shape (s : jsstring) :
  Terms.noSeparator (Terms.clean s) = true
  /\ Terms.tidy (Terms.clean s) = true
  /\ Props.trimmed (Terms.clean s).
Proof.
  rewrite clean_unfold. destruct s as [|c s].
  - split; [reflexivity|]. split; [reflexivity|]. split; exact I.
  - split; [|split].
    + apply noSeparator_trim, noSeparator_squeeze, noSeparator_unseparate.
    + apply tidy_trim, squeeze_tidy.
    + apply trim_trimmed.
Qed.

Lemma runs_nonempty (P : N -> bool) (s : jsstring) :
  forall cur, cur <> [] -> Terms.runs P cur s <> [].
Proof.
  induction s as [|c s IH]; intros cur Hcur; cbn.
  - destruct cur; [contradiction|discriminate].
  - destruct (P c).
    + apply IH. destruct cur; discriminate.
    + destruct cur; [contradiction|discriminate].
Qed.

Lemma runs_nil (P : N -> bool) (s : jsstring) :
  Terms.runs P [] s = [] <-> forallb (fun c => negb (P c)) s = true.
Proof.
  induction s as [|c s IH]; cbn; [tauto|].
  destruct (P c) eqn:Hc; cbn.
  - split; [|discriminate].
    intros H. exfalso. revert H. apply runs_nonempty. discriminate.
  - exact IH.
Qed.

End CleanedLines.

(** X1: whatever the line, the cleaned content holds none of the
    separators [|], [^], [,]; its only white space is single spaces
    between other characters, none at either end. *)
Theorem X1_cleaned_line_shape (s : JS.jsstring) :
  App.cleanLineContent (JS.JStr s) = JS.Normal (Terms.clean s)
  /\ Terms.noSeparator (Terms.clean s) = true
  /\ Terms.tidy (Terms.clean s) = true
  /\ Props.trimmed (Terms.clean s).
Proof.
  split; [|apply clean_shape].
  unfold Terms.clean. rewrite cleanLineContent_string. reflexivity.
Qed.

(** X2: cleaning keeps the fields of a line and their order: the maximal
    runs of characters that are neither white space nor separators are the
    same before and after; the cleaned line is never longer. *)
Theorem X2_cleaning_keeps_the_fields (s : JS.jsstring) :
  Props.fields (Terms.clean s) = Props.fields s
  /\ List.length (Terms.clean s) <= List.length s.
Proof. split; [apply fields_clean|apply clean_length]. Qed.

(** X3: [cleanLineContent] returns the empty string for a falsy argument,
    throws a TypeError exactly for a truthy argument that is not a string,
    and for a string returns the empty string exactly when the line has no
    field, that is, when it is made of white space and separators only. *)
Theorem X3_cleanLineContent_outcomes :
  (forall v : JS.value,
      JS.ToBoolean v = false -> App.cleanLineContent v = JS.Normal [])
  /\ (forall v : JS.value,
         App.cleanLineContent v = JS.Throw JS.TypeError
         <-> JS.ToBoolean v = true /\ (forall s, v <> JS.JStr s))
  /\ (forall s : JS.jsstring,
         App.cleanLineContent (JS.JStr s) = JS.Normal []
         <-> forallb (fun c => JS.isWhiteSpace c || Terms.isSeparator c) s
             = true).
Proof.
  split; [|split].
  - intros v Hv. unfold App.cleanLineContent. now rewrite Hv.
  - intros v. unfold App.cleanLineContent.
    destruct (JS.ToBoolean v) eqn:Hv; cbn [negb]; cbv iota.
    + destruct v as [| |b|x|s];
        try (split; [intros _; split; [reflexivity|discriminate]
                    |reflexivity]).
      split; [discriminate|intros [_ H]; now destruct (H s)].
    + split; [discriminate|intros [H _]; discriminate].
  - intros s.
    assert (E : App.cleanLineContent (JS.JStr s) = JS.Normal (Terms.clean s)).
    { unfold Terms.clean. rewrite cleanLineContent_string. reflexivity. }
    rewrite E.
    assert (Hf : forallb (fun c => JS.isWhiteSpace c || Terms.isSeparator c) s
                 = true
                 <-> Props.fields s = []).
    { unfold Props.fields. rewrite runs_nil.
      replace (forallb (fun c => negb (Props.inField c)) s)
        with (forallb (fun c => JS.isWhiteSpace c || Terms.isSeparator c) s);
        [tauto|].
      clear. induction s as [|c s IH]; cbn; [reflexivity|].
      unfold Props.inField at 1. now rewrite negb_involutive, IH. }
    rewrite Hf, <- fields_clean. split.
    + intros H. injection H as ->. reflexivity.
    + intros H. f_equal.
      destruct (clean_shape s) as (Hsep & _ & Hhead & _).
      destruct (Terms.clean s) as [|c t]; [reflexivity|].
      unfold Props.fields in H. apply runs_nil in H.
      cbn in H. apply andb_true_iff in H as [Hc _].
      unfold Terms.noSeparator in Hsep. cbn in Hsep.
      apply andb_true_iff in Hsep as [Hs _].
      unfold Props.inField in Hc. rewrite negb_involutive in Hc.
      cbn in Hhead. rewrite Hhead in Hc. cbn in Hc.
      rewrite Hc in Hs. discriminate.
Qed.

(* ================================================================== *)
(** * Lines that add nothing to the total                               *)
(* ================================================================== *)

Section PointlessLines.
Import JS.

Lemma no_point_no_token (rest : jsstring) :
  String_includes rest c_dot = false ->
  forall prev token, ~ Terms.tokenAt prev rest token.
Proof.
  intros Hdot prev token (rest' & E & (ip & fp & Et & _) & _).
  subst rest token. unfold String_includes in Hdot.
  rewrite <- app_assoc, existsb_app in Hdot.
  apply orb_false_iff in Hdot as [_ Hdot].
  cbn in Hdot. discriminate.
Qed.

Lemma no_point_Scan (rest : jsstring) :
  String_includes rest c_dot = false ->
  forall prev, Terms.Scan prev rest [].
Proof.
  induction rest as [|c rest IH]; intros Hdot prev.
  - apply Terms.Scan_end.
  - apply Terms.Scan_skip.
    + intros token. now apply no_point_no_token.
    + apply IH. unfold String_includes in *. cbn in Hdot.
      now apply orb_false_iff in Hdot as [_ Hdot].
Qed.

Lemma no_point_no_amount (line : jsstring) :
  String_includes line c_dot = false -> App.extractAmounts line = [].
Proof.
  intros Hdot. unfold App.extractAmounts.
  rewrite (proj2 (amountTokens_Scan line [])); [reflexivity|].
  now apply no_point_Scan.
Qed.

End PointlessLines.

(** X4: a line without a decimal point adds nothing to the total, wherever
    it stands among the lines: [calculateTotalAmount] only adds numbers
    written with a point. *)
Theorem X4_line_without_point_adds_nothing
  (before after : list JS.jsstring) (line : JS.jsstring)
  (Hline : JS.String_includes line JS.c_dot = false) :
  App.calculateTotalAmount (Some (before ++ line :: after))
  = App.calculateTotalAmount (Some (before ++ after)).
Proof.
  rewrite !calculateTotalAmount_sum, !flat_map_app. cbn [flat_map].
  rewrite (no_point_no_amount line Hline). reflexivity.
Qed.

Lemma X4_witness :
  App.calculateTotalAmount
    (Some ([JS.lit "Paid 12.34"] ++ JS.lit "ref 1234 ok" :: [JS.lit "0.5"]))
  = App.calculateTotalAmount (Some ([JS.lit "Paid 12.34"] ++ [JS.lit "0.5"])).
Proof.
  apply (X4_line_without_point_adds_nothing
           [JS.lit "Paid 12.34"] [JS.lit "0.5"] (JS.lit "ref 1234 ok")).
  reflexivity.
Defined.

(* ================================================================== *)
(** * Amounts and what delimits them                                    *)
(* ================================================================== *)

Section Delimiters.
Import JS.

Lemma sticky_digit (c : N) : isDigit c = true -> Props.sticky c = true.
Proof.
  intros H. unfold Props.sticky. now rewrite (isDigit_isWordChar c H).
Qed.

Lemma delimiter_facts (x : N) :
  Props.sticky x = false ->
  isDigit x = false /\ (x =? c_dot)%N = false /\ isWordChar x = false.
Proof.
  unfold Props.sticky, is_char. intros H.
  apply orb_false_iff in H as [Hw Hd]. rewrite N.eqb_sym in Hd.
  split; [|split; assumption].
  destruct (isDigit x) eqn:E; [|reflexivity].
  apply isDigit_isWordChar in E. congruence.
Qed.

(** Only whether the character before the cursor is a word character
    matters. *)
Lemma tokenLength_prev (p1 p2 : option N) (s : jsstring) :
  isWordOpt p1 = isWordOpt p2 ->
  Terms.tokenLength p1 s = Terms.tokenLength p2 s.
Proof. unfold Terms.tokenLength. now intros ->. Qed.

Lemma tokensFrom_prev (p1 p2 : option N) (s : jsstring) :
  isWordOpt p1 = isWordOpt p2 -> matchesFrom App.amountRegex p1 s 0 = matchesFrom App.amountRegex p2 s 0.
Proof.
  intros H. destruct s as [|c s].
  - now rewrite !matchesFrom_amount_nil.
  - cbn [matchesFrom]. rewrite !matchFrom_amountRegex.
    now rewrite (tokenLength_prev p1 p2 _ H).
Qed.

Lemma span_delimiter (cls : N -> bool) (a b : jsstring) (x : N) :
  cls x = false ->
  span cls (a ++ x :: b)
  = (fst (span cls a), snd (span cls a) ++ x :: b).
Proof.
  intros Hx. induction a as [|c a IH]; cbn [app span].
  - now rewrite Hx.
  - destruct (cls c); [|reflexivity].
    rewrite IH. destruct (span cls a). reflexivity.
Qed.

(** No amount starts at a delimiter. *)
Lemma tokenLength_at_delimiter (prev : option N) (x : N) (s : jsstring) :
  Props.sticky x = false -> Terms.tokenLength prev (x :: s) = None.
Proof.
  intros Hx. destruct (delimiter_facts x Hx) as (Hd & _ & _).
  unfold Terms.tokenLength. cbn [span]. rewrite Hd.
  destruct (isWordOpt prev); reflexivity.
Qed.

(** What follows a delimiter does not change the amount before it. *)
Lemma tokenLength_before_delimiter (prev : option N) (a b : jsstring)
  (x : N) :
  Props.sticky x = false ->
  Terms.tokenLength prev (a ++ x :: b) = Terms.tokenLength prev a.
Proof.
  intros Hx. destruct (delimiter_facts x Hx) as (Hd & Hdot & Hw).
  unfold Terms.tokenLength.
  destruct (isWordOpt prev); [reflexivity|].
  rewrite (span_delimiter isDigit a b x Hd).
  destruct (span isDigit a) as [ip r1]. cbn [fst snd].
  destruct ip as [|d ip]; [destruct (r1 ++ x :: b); reflexivity|].
  destruct r1 as [|c r2]; cbn [app].
  - now rewrite Hdot.
  - destruct (c =? c_dot)%N; [|reflexivity].
    rewrite (span_delimiter isDigit r2 b x Hd).
    destruct (span isDigit r2) as [fp r3]. cbn [fst snd].
    destruct r3 as [|y r3]; cbn [app hd_error isWordOpt]; [|reflexivity].
    now rewrite Hw.
Qed.

Lemma tokensFrom_delimiter (prev : option N) (x : N) (s : jsstring) :
  Props.sticky x = false ->
  matchesFrom App.amountRegex prev (x :: s) 0
  = matchesFrom App.amountRegex None s 0.
Proof.
  intros Hx. rewrite matchesFrom_amount_skip
    by now apply tokenLength_at_delimiter.
  apply tokensFrom_prev. cbn [isWordOpt].
  now destruct (delimiter_facts x Hx) as (_ & _ & ->).
Qed.

(** The amounts of a text cut at a delimiter are those before it, then
    those after it. *)
Lemma tokensFrom_split (a : jsstring) :
  forall (prev : option N) (x : N) (b : jsstring),
    Props.sticky x = false ->
    matchesFrom App.amountRegex prev (a ++ x :: b) 0
    = matchesFrom App.amountRegex prev a 0
      ++ matchesFrom App.amountRegex None b 0.
Proof.
  remember (List.length a) as n eqn:Hn.
  revert a Hn. induction n as [n IH] using lt_wf_ind.
  intros a Hn prev x b Hx. destruct a as [|c a].
  - cbn [app]. rewrite matchesFrom_amount_nil. now apply tokensFrom_delimiter.
  - pose proof (tokenLength_before_delimiter prev (c :: a) b x Hx) as Hlen.
    destruct (Terms.tokenLength prev (c :: a)) as [k|] eqn:L.
    + apply tokenLength_tokenAt in L as (Htok & Hk & Hsplit).
      pose proof Hlen as Hlen'.
      apply tokenLength_tokenAt in Hlen' as (Htok' & _ & _).
      assert (Hl : List.length (skipn k (c :: a)) < n)
        by (rewrite length_skipn; subst n; lia).
      rewrite firstn_app in Htok'.
      replace (k - List.length (c :: a)) with 0 in Htok' by lia.
      cbn [firstn] in Htok'. rewrite app_nil_r in Htok'.
      set (token := firstn k (c :: a)) in *.
      set (rest := skipn k (c :: a)) in *.
      clearbody token rest. rewrite Hsplit in *.
      rewrite <- app_assoc in *.
      rewrite (matchesFrom_amount_token prev token (rest ++ x :: b) Htok').
      rewrite (matchesFrom_amount_token prev token rest Htok).
      cbn [app]. f_equal.
      apply (IH (List.length rest)); [assumption|reflexivity|assumption].
    + rewrite matchesFrom_amount_skip by assumption.
      cbn [app]. rewrite matchesFrom_amount_skip by assumption.
      apply (IH (List.length a)); [subst n; cbn; lia|reflexivity|assumption].
Qed.

(** ** The amounts of a text are those of its sticky runs *)

Lemma runs_all (P : N -> bool) (a : jsstring) :
  forallb P a = true ->
  forall cur, Terms.runs P cur a = Terms.flush (cur ++ a).
Proof.
  induction a as [|c a IH]; intros H cur; cbn [Terms.runs].
  - now rewrite app_nil_r.
  - cbn in H. apply andb_true_iff in H as [Hc Ha].
    rewrite Hc, (IH Ha), <- app_assoc. reflexivity.
Qed.

Lemma runs_prefix (P : N -> bool) (a b : jsstring) (x : N) :
  forallb P a = true -> P x = false ->
  forall cur,
    Terms.runs P cur (a ++ x :: b)
    = Terms.flush (cur ++ a) ++ Terms.runs P [] b.
Proof.
  intros Ha Hx. induction a as [|c a IH]; intros cur; cbn [app Terms.runs].
  - now rewrite Hx, app_nil_r.
  - cbn in Ha. apply andb_true_iff in Ha as [Hc Ha].
    rewrite Hc, (IH Ha), <- app_assoc. reflexivity.
Qed.

Lemma tokens_of_runs (s : jsstring) :
  matchesFrom App.amountRegex None s 0
  = flat_map (fun run => matchesFrom App.amountRegex None run 0)
      (Terms.runs Props.sticky [] s).
Proof.
  remember (List.length s) as n eqn:Hn.
  revert s Hn. induction n as [n IH] using lt_wf_ind. intros s Hn.
  pose proof (span_app_eq Props.sticky s) as Hs.
  pose proof (span_fst_all Props.sticky s) as Ha.
  pose proof (span_snd_head Props.sticky s) as Hx.
  destruct (span Props.sticky s) as [a r]. cbn [fst snd] in *.
  assert (Hflush : flat_map (fun run => matchesFrom App.amountRegex None run 0) (Terms.flush a)
                   = matchesFrom App.amountRegex None a 0).
  { destruct a; cbn [Terms.flush flat_map];
      [now rewrite matchesFrom_amount_nil|now rewrite app_nil_r]. }
  destruct r as [|x b].
  - rewrite app_nil_r in Hs. subst s.
    rewrite (runs_all _ _ Ha). cbn [app]. now rewrite Hflush.
  - specialize (Hx x b eq_refl). subst s.
    rewrite (runs_prefix _ _ _ _ Ha Hx). cbn [app].
    rewrite flat_map_app, Hflush, tokensFrom_split by assumption.
    f_equal. apply (IH (List.length b)); [|reflexivity].
    subst n. rewrite length_app. cbn. lia.
Qed.

Lemma sticky_whitespace (c : N) :
  isWhiteSpace c = true -> Props.sticky c = false.
Proof.
  intros H. destruct (Props.sticky c) eqn:S; [|reflexivity].
  exfalso.
  unfold Props.sticky, isWordChar, isDigit, is_char, in_range, c_dot in S.
  unfold isWhiteSpace, in_range in H.
  repeat rewrite ?orb_true_iff, ?andb_true_iff, ?N.leb_le, ?N.eqb_eq in H.
  repeat rewrite ?orb_true_iff, ?andb_true_iff, ?N.leb_le, ?N.eqb_eq in S.
  lia.
Qed.

Lemma sticky_separator (c : N) :
  Terms.isSeparator c = true -> Props.sticky c = false.
Proof.
  unfold Terms.isSeparator, is_char. intros H.
  apply orb_true_iff in H as [H|H]; [apply orb_true_iff in H as [H|H]|];
    apply N.eqb_eq in H; subst c; reflexivity.
Qed.

Lemma amountTokens_clean (s : jsstring) :
  App.amountTokens (Terms.clean s) = App.amountTokens s.
Proof.
  rewrite !amountTokens_matchesFrom.
  rewrite (tokens_of_runs (Terms.clean s)), (tokens_of_runs s).
  now rewrite (runs_clean Props.sticky sticky_whitespace sticky_separator).
Qed.

Lemma amountTokens_split (a b : jsstring) (x : N) :
  Props.sticky x = false ->
  App.amountTokens (a ++ x :: b) = App.amountTokens a ++ App.amountTokens b.
Proof.
  intros Hx. rewrite !amountTokens_matchesFrom. now apply tokensFrom_split.
Qed.

End Delimiters.

(** X5: cleaning a line does not change the amounts that are found in it:
    the amount tokens of the cleaned line are those of the line, in the
    same order, so the total computed over the cleaned lines is the total
    computed over the lines. *)
Theorem X5_cleaning_keeps_the_amounts
  (s : JS.jsstring) (contents : list JS.jsstring) :
  App.amountTokens (Terms.clean s) = App.amountTokens s
  /\ App.extractAmounts (Terms.clean s) = App.extractAmounts s
  /\ App.calculateTotalAmount (Some (map Terms.clean contents))
     = App.calculateTotalAmount (Some contents).
Proof.
  assert (H : forall t, App.extractAmounts (Terms.clean t)
                        = App.extractAmounts t).
  { intros t. unfold App.extractAmounts. now rewrite amountTokens_clean. }
  split; [apply amountTokens_clean|]. split; [apply H|].
  rewrite !calculateTotalAmount_sum. do 2 f_equal.
  induction contents as [|line contents IH]; [reflexivity|].
  cbn [map flat_map]. now rewrite H, IH.
Qed.

(** X6: the total does not depend on how the text is cut into lines: at a
    character that is neither a word character (letter, digit, underscore)
    nor a point, such as a line break, a text holds the amounts of what is
    before that character followed by the amounts of what is after it, and
    cutting a line there leaves the total unchanged. *)
Theorem X6_cutting_a_line_at_a_delimiter_keeps_the_total
  (before after : list JS.jsstring) (a b : JS.jsstring) (x : N)
  (Hx : Props.sticky x = false) :
  App.extractAmounts (a ++ x :: b)
  = App.extractAmounts a ++ App.extractAmounts b
  /\ App.calculateTotalAmount (Some (before ++ (a ++ x :: b) :: after))
     = App.calculateTotalAmount (Some (before ++ a :: b :: after)).
Proof.
  assert (H : App.extractAmounts (a ++ x :: b)
              = App.extractAmounts a ++ App.extractAmounts b).
  { unfold App.extractAmounts.
    rewrite (amountTokens_split a b x Hx), map_app, filter_app, map_app.
    reflexivity. }
  split; [exact H|].
  rewrite !calculateTotalAmount_sum, !flat_map_app. cbn [flat_map].
  now rewrite H, <- app_assoc.
Qed.

Lemma X6_witness :
  App.calculateTotalAmount
    (Some ([] ++ (JS.lit "Paid 12.34" ++ 10%N :: JS.lit "and 0.5") :: []))
  = App.calculateTotalAmount
      (Some ([] ++ JS.lit "Paid 12.34" :: JS.lit "and 0.5" :: [])).
Proof.
  apply (X6_cutting_a_line_at_a_delimiter_keeps_the_total
           [] [] (JS.lit "Paid 12.34") (JS.lit "and 0.5") 10%N).
  reflexivity.
Defined.

(* ================================================================== *)
(** * Searching                                                         *)
(* ================================================================== *)

Section Searching.
Import JS Runtime.

Lemma stripPrefix_spec (p : jsstring) :
  forall s r, stripPrefix p s = Some r <-> s = p ++ r.
Proof.
  induction p as [|x p IH]; intros s r; cbn.
  - split; [intros [= ->]|intros ->]; reflexivity.
  - destruct s as [|y s]; [split; discriminate|].
    destruct (x =? y)%N eqn:E.
    + apply N.eqb_eq in E. subst y. rewrite IH.
      split; [intros ->|intros [= ->]]; reflexivity.
    + split; [discriminate|]. intros [= -> _].
      rewrite N.eqb_refl in E. discriminate.
Qed.

Lemma includes_spec (s search : jsstring) :
  String_includes_string s search = true <-> Props.infix search s.
Proof.
  induction s as [|c s IH]; cbn [String_includes_string].
  - destruct (stripPrefix search []) as [r|] eqn:E.
    + apply stripPrefix_spec in E.
      split; [|reflexivity]. intros _. exists [], r. exact E.
    + split; [discriminate|]. intros (pre & post & H).
      destruct pre; [|discriminate].
      cbn in H. apply stripPrefix_spec in H. congruence.
  - destruct (stripPrefix search (c :: s)) as [r|] eqn:E.
    + apply stripPrefix_spec in E.
      split; [|reflexivity]. intros _. exists [], r. exact E.
    + rewrite IH. split.
      * intros (pre & post & ->). exists (c :: pre), post. reflexivity.
      * intros (pre & post & H). destruct pre as [|d pre].
        -- cbn in H. apply stripPrefix_spec in H. congruence.
        -- injection H as -> ->. exists pre, post. reflexivity.
Qed.






End Searching.



(* ================================================================== *)
(** * Pagination                                                        *)
(* ================================================================== *)

Section Pagination.
Import JS Runtime.

Lemma Math_ceil_div_bounds (a b : Z) :
  (0 < b)%Z ->
  (b * (Math_ceil_div a b - 1) < a <= b * Math_ceil_div a b)%Z.
Proof.
  intros Hb. unfold Math_ceil_div.
  pose proof (Z.mul_div_le (- a) b Hb).
  pose proof (Z.mul_succ_div_gt (- a) b Hb).
  lia.
Qed.

(** [slice] between two indices that are not negative. *)
Lemma slice_nonneg {A : Type} (l : list A) (start end_ : Z) :
  (0 <= start <= end_)%Z ->
  slice l start end_
  = firstn (Z.to_nat (end_ - start)) (skipn (Z.to_nat start) l).
Proof.
  intros H. unfold slice, relativeIndex.
  replace (start <? 0)%Z with false by (symmetry; apply Z.ltb_ge; lia).
  replace (end_ <? 0)%Z with false by (symmetry; apply Z.ltb_ge; lia).
  set (len := Z.of_nat (List.length l)).
  assert (Hlen : List.length l = Z.to_nat len) by (subst len; lia).
  destruct (Z.le_gt_cases end_ len) as [He|He].
  - rewrite !Z.min_l by lia. reflexivity.
  - destruct (Z.le_gt_cases start len) as [Hs|Hs].
    + rewrite (Z.min_l start) by lia. rewrite (Z.min_r end_) by lia.
      rewrite !firstn_all2; [reflexivity| |]; rewrite length_skipn; lia.
    + rewrite !Z.min_r by lia.
      rewrite (skipn_all2 l (n := Z.to_nat start)) by lia.
      rewrite (skipn_all2 l (n := Z.to_nat len)) by lia.
      now rewrite !firstn_nil.
Qed.

Lemma firstn_add {A : Type} (a b : nat) :
  forall l : list A, firstn (a + b) l = firstn a l ++ firstn b (skipn a l).
Proof.
  induction a as [|a IH]; intros l; [reflexivity|].
  destruct l as [|x l]; cbn.
  - now rewrite firstn_nil.
  - f_equal. apply IH.
Qed.

Lemma chunks_firstn {A : Type} (l : list A) (m k : nat) :
  List.concat (map (fun i => firstn m (skipn (m * i) l)) (seq 0 k))
  = firstn (m * k) l.
Proof.
  induction k as [|k IH].
  - rewrite Nat.mul_0_r. reflexivity.
  - rewrite seq_S, map_app, concat_app, IH. cbn [map List.concat Nat.add].
    rewrite app_nil_r.
    replace (m * S k) with (m * k + m) by lia.
    symmetry. apply firstn_add.
Qed.

(** The page [i + 1] is the [i]-th group of [rowsPerPage] rows. *)
Lemma currentData_chunk {A : Type} (l : list A) (i : nat) :
  Table.currentData l (Z.of_nat (S i))
  = firstn 50 (skipn (50 * i) l).
Proof.
  unfold Table.currentData, Table.endIndex, Table.startIndex,
    Table.rowsPerPage.
  rewrite slice_nonneg by lia.
  f_equal; [|f_equal]; lia.
Qed.

End Pagination.

(** X9: the pages partition the rows.  With [n] rows there are
    [ceil (n / 50)] pages; the pages 1, 2, ... up to the last one, put end
    to end, are the rows; each of these pages has at least one row and at
    most 50, exactly 50 before the last page; a page after the last one is
    empty; and the page controls show ([totalPages > 1]) exactly when there
    are more than 50 rows. *)
Theorem X9_pages_partition_the_rows (filteredData : list Table.row) :
  let n := Z.of_nat (List.length filteredData) in
  let totalPages := Table.totalPages filteredData in
  (Table.rowsPerPage * (totalPages - 1) < n
   <= Table.rowsPerPage * totalPages)%Z
  /\ List.concat (map (fun page => Table.currentData filteredData (Z.of_nat page))
               (seq 1 (Z.to_nat totalPages)))
     = filteredData
  /\ (forall currentPage : Z,
         (1 <= currentPage <= totalPages)%Z ->
         1 <= List.length (Table.currentData filteredData currentPage) <= 50
         /\ ((currentPage < totalPages)%Z ->
             List.length (Table.currentData filteredData currentPage) = 50))
  /\ (forall currentPage : Z,
         (totalPages < currentPage)%Z ->
         Table.currentData filteredData currentPage = [])
  /\ ((1 <? totalPages)%Z = true <-> (50 < n)%Z).
Proof.
  intros n totalPages.
  assert (Hb : (50 * (totalPages - 1) < n <= 50 * totalPages)%Z).
  { apply (Math_ceil_div_bounds n 50). lia. }
  assert (Hn : (0 <= n)%Z) by (subst n; lia).
  assert (Hlen : List.length filteredData = Z.to_nat n) by (subst n; lia).
  split; [exact Hb|]. split; [|split; [|split]].
  - rewrite <- seq_shift, map_map.
    rewrite (map_ext _ (fun i => firstn 50 (skipn (50 * i) filteredData)))
      by (intros i; apply currentData_chunk).
    rewrite chunks_firstn. apply firstn_all2. lia.
  - intros p Hp.
    replace p with (Z.of_nat (S (Z.to_nat (p - 1)))) by lia.
    rewrite currentData_chunk, length_firstn, length_skipn.
    split; [lia|]. intros Hlt. lia.
  - intros p Hp.
    assert (H1 : (1 <= p)%Z) by lia.
    replace p with (Z.of_nat (S (Z.to_nat (p - 1)))) by lia.
    rewrite currentData_chunk.
    rewrite skipn_all2 by lia. apply firstn_nil.
  - rewrite Z.ltb_lt. lia.
Qed.

(* ================================================================== *)
(** * The columns of the table                                          *)
(* ================================================================== *)

Section Columns.
Import JS Runtime.

Lemma existsb_eqb_In (key : jsstring) (keys : list jsstring) :
  existsb (jsstring_eqb key) keys = true <-> In key keys.
Proof.
  rewrite existsb_exists. split.
  - intros (k & Hk & E). apply jsstring_eqb_spec in E. now subst k.
  - intros H. exists key. split; [exact H|apply jsstring_eqb_refl].
Qed.

Lemma Set_add_In (keys : list jsstring) (key k : jsstring) :
  In k (Set_add keys key) <-> In k keys \/ k = key.
Proof.
  unfold Set_add. destruct (existsb (jsstring_eqb key) keys) eqn:E.
  - apply existsb_eqb_In in E. split; [auto|]. intros [H| ->]; assumption.
  - rewrite in_app_iff. cbn. intuition congruence.
Qed.

Lemma Set_add_NoDup (keys : list jsstring) (key : jsstring) :
  NoDup keys -> NoDup (Set_add keys key).
Proof.
  intros H. unfold Set_add.
  destruct (existsb (jsstring_eqb key) keys) eqn:E; [exact H|].
  assert (Hnew : ~ In key keys).
  { intros Hin. apply existsb_eqb_In in Hin. congruence. }
  clear E. induction H as [|x l Hx Hl IH]; cbn.
  - constructor; [intros []|constructor].
  - constructor.
    + rewrite in_app_iff. cbn. intros [H|[H|[]]]; [auto|].
      subst x. apply Hnew. now left.
    + apply IH. intros Hin. apply Hnew. now right.
Qed.

Lemma Set_add_prefix (keys : list jsstring) (key : jsstring) :
  exists extra, Set_add keys key = keys ++ extra.
Proof.
  unfold Set_add. destruct (existsb (jsstring_eqb key) keys).
  - exists []. now rewrite app_nil_r.
  - now exists [key].
Qed.

Lemma shownKey_spec (key : jsstring) :
  Props.shownKey key = true <-> key <> lit "raw_lines" /\ key <> lit "line_number".
Proof.
  unfold Props.shownKey.
  rewrite andb_true_iff, !negb_true_iff, !jsstring_eqb_neq. reflexivity.
Qed.

Lemma addKey_facts (ks : list jsstring) :
  forall keys,
    (forall k, In k (fold_left Props.addKey ks keys)
               <-> In k keys \/ (In k ks /\ Props.shownKey k = true))
    /\ (NoDup keys -> NoDup (fold_left Props.addKey ks keys))
    /\ (exists extra, fold_left Props.addKey ks keys = keys ++ extra).
Proof.
  induction ks as [|key ks IH]; intros keys; cbn [fold_left].
  - split; [|split].
    + intros k. cbn. tauto.
    + auto.
    + exists []. now rewrite app_nil_r.
  - destruct (IH (Props.addKey keys key)) as (Hin & Hnd & extra & Hpre).
    assert (Hk : forall k, In k (Props.addKey keys key)
                           <-> In k keys \/ (k = key /\ Props.shownKey k = true)).
    { intros k. unfold Props.addKey. destruct (Props.shownKey key) eqn:S.
      - rewrite Set_add_In. split; intros [H|H]; auto.
        + subst k. auto.
        + destruct H as [-> _]. auto.
      - split; [auto|]. intros [H|[-> H]]; [exact H|congruence]. }
    split; [|split].
    + intros k. rewrite Hin, Hk. cbn [In]. intuition (subst; auto).
    + intros H. apply Hnd. unfold Props.addKey.
      destruct (Props.shownKey key); [now apply Set_add_NoDup|exact H].
    + rewrite Hpre. unfold Props.addKey. destruct (Props.shownKey key).
      * destruct (Set_add_prefix keys key) as (e & ->).
        exists (e ++ extra). now rewrite app_assoc.
      * now exists extra.
Qed.

Lemma addKeys_facts (data : list Table.row) :
  forall keys,
    (forall k, In k (fold_left Props.addKeys data keys)
               <-> In k keys
                   \/ ((exists row, In row data /\ In k (Object_keys row))
                       /\ Props.shownKey k = true))
    /\ (NoDup keys -> NoDup (fold_left Props.addKeys data keys))
    /\ (exists extra, fold_left Props.addKeys data keys = keys ++ extra).
Proof.
  induction data as [|row data IH]; intros keys; cbn [fold_left].
  - split; [|split].
    + intros k. split; [auto|]. intros [H|[(row & [] & _) _]]. exact H.
    + auto.
    + exists []. now rewrite app_nil_r.
  - destruct (IH (Props.addKeys keys row)) as (Hin & Hnd & extra & Hpre).
    destruct (addKey_facts (Object_keys row) keys) as (Hin1 & Hnd1 & e1 & Hpre1).
    fold (Props.addKeys keys row) in Hin1, Hnd1, Hpre1.
    split; [|split].
    + intros k. rewrite Hin, Hin1. split.
      * intros [[H|[H S]]|[(r & Hr & H) S]]; [auto| |].
        -- right. split; [|exact S]. exists row. split; [now left|exact H].
        -- right. split; [|exact S]. exists r. split; [now right|exact H].
      * intros [H|[(r & [<-|Hr] & H) S]]; [auto| |].
        -- left. right. auto.
        -- right. split; [|exact S]. now exists r.
    + intros H. apply Hnd, Hnd1, H.
    + rewrite Hpre, Hpre1. exists (e1 ++ extra). now rewrite app_assoc.
Qed.

Lemma columns_fold (data : list Table.row) :
  Table.columns data = fold_left Props.addKeys data [].
Proof. reflexivity. Qed.

Lemma columns_facts (data more : list Table.row) :
  NoDup (Table.columns data)
  /\ (forall key,
         In key (Table.columns data)
         <-> (exists row, In row data /\ In key (Object_keys row))
             /\ key <> lit "raw_lines" /\ key <> lit "line_number")
  /\ (exists extra,
         Table.columns (data ++ more) = Table.columns data ++ extra).
Proof.
  rewrite !columns_fold.
  destruct (addKeys_facts data []) as (Hin & Hnd & _).
  split; [apply Hnd; constructor|]. split.
  - intros key. rewrite Hin, shownKey_spec. cbn [In]. tauto.
  - rewrite fold_left_app.
    destruct (addKeys_facts more (fold_left Props.addKeys data [])) as (_ & _ & H).
    exact H.
Qed.

End Columns.

(** X10: the columns of the table.  No column is listed twice; a key is a
    column exactly when some row has it and it is neither [raw_lines] nor
    [line_number]; more rows only add columns after the ones there are;
    and no column makes the cell renderer take its [raw_lines] exit. *)
Theorem X10_columns_are_the_keys_of_the_rows (data more : list Table.row) :
  NoDup (Table.columns data)
  /\ (forall key,
         In key (Table.columns data)
         <-> (exists row, In row data /\ In key (Runtime.Object_keys row))
             /\ key <> JS.lit "raw_lines" /\ key <> JS.lit "line_number")
  /\ (exists extra,
         Table.columns (data ++ more) = Table.columns data ++ extra)
  /\ (forall column value,
         In column (Table.columns data) -> Table.cell column value <> None).
Proof.
  destruct (columns_facts data more) as (Hnd & Hin & Hpre).
  split; [exact Hnd|]. split; [exact Hin|]. split; [exact Hpre|].
  intros column value Hcol. apply Hin in Hcol as (_ & Hraw & _).
  unfold Table.cell.
  apply jsstring_eqb_neq in Hraw. rewrite Hraw. discriminate.
Qed.

(* ================================================================== *)
(** * The cells of the table                                            *)
(* ================================================================== *)

Section Cells.
Import JS Runtime.

Lemma testFrom_digitsRegex_later (s : jsstring) :
  forall c, testFrom Table.digitsRegex (Some c) s = false.
Proof.
  induction s as [|x s IH]; intros c; cbn; [reflexivity|apply IH].
Qed.

Lemma test_digitsRegex (s : jsstring) :
  RegExp_test Table.digitsRegex s = true <-> Props.allDigits s.
Proof.
  unfold RegExp_test, Props.allDigits. destruct s as [|c s].
  - split; [discriminate|]. intros [H _]. contradiction.
  - cbn [testFrom]. unfold Table.digitsRegex.
    rewrite matchFrom_Assert. cbn [holds].
    rewrite matchFrom_digits_end.
    fold Table.digitsRegex. rewrite testFrom_digitsRegex_later.
    split.
    + split_span isDigit (c :: s) fp r3 Hs Hfp.
      destruct fp as [|d fp]; [discriminate|].
      destruct r3; [|discriminate]. intros _.
      split; [discriminate|].
      rewrite Hs, app_nil_r. exact Hfp.
    + intros [_ H]. rewrite <- (app_nil_r (c :: s)).
      rewrite (span_run isDigit (c :: s) []) by (assumption || exact I).
      reflexivity.
Qed.

Lemma isAmount_spec (v : value) :
  DataTable.isAmount v = true
  <-> Terms.digitsDotDigits (Terms.stripped (ToString v)).
Proof. rewrite isAmount_decimalShape. apply decimalShape_spec. Qed.

Lemma amountCell_spec (column : jsstring) (v : value) :
  jsstring_eqb column (lit "amount") || DataTable.isAmount v = true
  <-> Props.amountCell column v.
Proof.
  unfold Props.amountCell.
  rewrite orb_true_iff, jsstring_eqb_spec, isAmount_spec. reflexivity.
Qed.

Lemma isLong_spec (v : value) :
  Table.isLong v = true <-> Props.longString v.
Proof.
  unfold Table.isLong, Props.longString. split.
  - intros H. apply andb_true_iff in H as [_ H].
    destruct v as [| |b|x|s]; try discriminate.
    exists s. split; [reflexivity|]. now apply Nat.ltb_lt.
  - intros (s & -> & H). apply andb_true_iff. split.
    + destruct s; [cbn in H; lia|reflexivity].
    + now apply Nat.ltb_lt.
Qed.

End Cells.

(** X11: the class and the content of a cell.  The class is [amount]
    exactly for a cell of the column [amount] or one whose text, without
    peso signs, commas and white space, is digits, a point, digits, and
    exactly these cells show the formatted amount, the others the value
    itself; among the others the class is [code] exactly when the text is
    made of digits only, else [long-text] exactly for a string of more
    than 30 characters, else [text]. *)
Theorem X11_cell_class_and_content (column : JS.jsstring) (value : JS.value) :
  let amount := Props.amountCell column value in
  let code := Props.allDigits (JS.ToString value) in
  let long := Props.longString value in
  (Table.className column value = JS.lit "amount" <-> amount)
  /\ (Table.className column value = JS.lit "code" <-> ~ amount /\ code)
  /\ (Table.className column value = JS.lit "long-text"
      <-> ~ amount /\ ~ code /\ long)
  /\ (Table.className column value = JS.lit "text"
      <-> ~ amount /\ ~ code /\ ~ long)
  /\ (amount ->
      Table.cellContent column value
      = JS.JStr (DataTable.formatAmount value))
  /\ (~ amount -> Table.cellContent column value = value).
Proof.
  intros amount code long. subst amount code long.
  unfold Table.className, Table.cellContent.
  pose proof (amountCell_spec column value) as Ha.
  pose proof (test_digitsRegex (JS.ToString value)) as Hc.
  pose proof (isLong_spec value) as Hl.
  destruct (JS.jsstring_eqb column (JS.lit "amount")
            || DataTable.isAmount value).
  - assert (A : Props.amountCell column value) by now apply Ha.
    split; [tauto|]. split; [|split; [|split; [|split]]];
      try (split; [intros H; vm_compute in H; discriminate H|tauto]).
    + reflexivity.
    + tauto.
  - assert (A : ~ Props.amountCell column value).
    { intros H. apply Ha in H. discriminate. }
    split; [|split; [|split; [|split; [|split]]]]; [| | | |tauto|reflexivity].
    + split; [|tauto].
      destruct (JS.RegExp_test Table.digitsRegex (JS.ToString value));
        [|destruct (Table.isLong value)];
        intros H; vm_compute in H; discriminate H.
    + destruct (JS.RegExp_test Table.digitsRegex (JS.ToString value)).
      * split; [|reflexivity]. intros _. split; [exact A|now apply Hc].
      * split; [|intros [_ H]; apply Hc in H; discriminate].
        destruct (Table.isLong value);
          intros H; vm_compute in H; discriminate H.
    + destruct (JS.RegExp_test Table.digitsRegex (JS.ToString value)).
      * split; [intros H; vm_compute in H; discriminate H|].
        intros (_ & H & _). destruct H. now apply Hc.
      * assert (C : ~ Props.allDigits (JS.ToString value)).
        { intros H. apply Hc in H. discriminate. }
        destruct (Table.isLong value).
        -- split; [|reflexivity]. intros _.
           split; [exact A|]. split; [exact C|now apply Hl].
        -- split; [intros H; vm_compute in H; discriminate H|].
           intros (_ & _ & H). apply Hl in H. discriminate.
    + destruct (JS.RegExp_test Table.digitsRegex (JS.ToString value)).
      * split; [intros H; vm_compute in H; discriminate H|].
        intros (_ & H & _). destruct H. now apply Hc.
      * assert (C : ~ Props.allDigits (JS.ToString value)).
        { intros H. apply Hc in H. discriminate. }
        destruct (Table.isLong value).
        -- split; [intros H; vm_compute in H; discriminate H|].
           intros (_ & _ & H). destruct H. now apply Hl.
        -- split; [|reflexivity]. intros _.
           split; [exact A|]. split; [exact C|].
           intros H. apply Hl in H. discriminate.
Qed.

(* ================================================================== *)
(** * Numbers written with digits are numbers                           *)
(* ================================================================== *)

Section NotNaN.
Import JS.

Lemma shr_1_nonneg (mrs : shr_record) :
  (0 <= shr_m mrs)%Z -> (0 <= shr_m (shr_1 mrs))%Z.
Proof.
  destruct mrs as [m r s]. cbn.
  destruct m as [|p|p]; [cbn; lia|destruct p; cbn; lia|lia].
Qed.

Lemma iter_shr_1_nonneg (p : positive) :
  forall mrs, (0 <= shr_m mrs)%Z -> (0 <= shr_m (iter_pos shr_1 p mrs))%Z.
Proof.
  induction p as [p IH|p IH|]; intros mrs H; cbn.
  - apply IH, IH, shr_1_nonneg, H.
  - apply IH, IH, H.
  - apply shr_1_nonneg, H.
Qed.

Lemma shr_fexp_nonneg (m e : Z) (l : location) :
  (0 <= m)%Z -> (0 <= shr_m (fst (shr_fexp prec emax m e l)))%Z.
Proof.
  intros H. unfold shr_fexp, shr.
  assert (H0 : (0 <= shr_m (shr_record_of_loc m l))%Z)
    by (destruct l as [|[]]; exact H).
  destruct (fexp prec emax (Zdigits2 m + e) - e)%Z; cbn [fst];
    [exact H0|now apply iter_shr_1_nonneg|exact H0].
Qed.

Lemma round_nearest_even_nonneg (m : Z) (l : location) :
  (0 <= m)%Z -> (0 <= round_nearest_even m l)%Z.
Proof.
  intros H. destruct l as [|[]]; cbn; [lia| |lia|lia].
  destruct (Z.even m); lia.
Qed.

Lemma binary_round_aux_not_nan (sx : bool) (mx ex : Z) (lx : location) :
  (0 <= mx)%Z -> binary_round_aux prec emax sx mx ex lx <> S754_nan.
Proof.
  intros H. unfold binary_round_aux.
  pose proof (shr_fexp_nonneg mx ex lx H) as H1.
  destruct (shr_fexp prec emax mx ex lx) as [mrs' e']. cbn [fst] in H1.
  pose proof (shr_fexp_nonneg _ e' loc_Exact
                (round_nearest_even_nonneg _ (loc_of_shr_record mrs') H1))
    as H2.
  destruct (shr_fexp prec emax
              (round_nearest_even (shr_m mrs') (loc_of_shr_record mrs'))
              e' loc_Exact) as [mrs'' e''].
  cbn [fst] in H2.
  destruct (shr_m mrs'') as [|m|m]; [discriminate| |lia].
  destruct (e'' <=? emax - prec)%Z; discriminate.
Qed.

Lemma binary_round_not_nan (sx : bool) (mx : positive) (ex : Z) :
  binary_round prec emax sx mx ex <> S754_nan.
Proof.
  unfold binary_round.
  destruct (shl_align mx ex (fexp prec emax (Z.pos (digits2_pos mx) + ex)))
    as [mz ez].
  apply binary_round_aux_not_nan. lia.
Qed.

Lemma binary_normalize_not_nan (m e : Z) (szero : bool) :
  binary_normalize prec emax m e szero <> S754_nan.
Proof.
  destruct m; cbn; [discriminate|apply binary_round_not_nan..].
Qed.

Lemma SFdiv_finite_not_nan (sx sy : bool) (mx my : positive) (ex ey : Z) :
  SFdiv prec emax (S754_finite sx mx ex) (S754_finite sy my ey) <> S754_nan.
Proof.
  unfold SFdiv, SFdiv_core_binary.
  set (s := (ex - ey
             - Z.min (fexp prec emax
                        (Zdigits2 (Z.pos mx) + ex - (Zdigits2 (Z.pos my) + ey)))
                     (ex - ey))%Z).
  set (m' := match s with
             | Z0 => Z.pos mx
             | Zpos _ => Z.shiftl (Z.pos mx) s
             | Zneg _ => 0%Z
             end).
  assert (Hm : (0 <= m')%Z).
  { subst m'. destruct s; [lia| |lia]. apply Z.shiftl_nonneg. lia. }
  pose proof (Z.div_pos m' (Z.pos my) Hm ltac:(lia)) as Hq.
  unfold Z.div in Hq.
  destruct (Z.div_eucl m' (Z.pos my)) as [q r].
  now apply binary_round_aux_not_nan.
Qed.

Lemma SFldexp_not_nan (x : spec_float) (e : Z) :
  x <> S754_nan -> SFldexp prec emax x e <> S754_nan.
Proof.
  destruct x; cbn; try (intros; assumption).
  intros _. apply binary_round_not_nan.
Qed.

Lemma SF2Prim_not_nan (x : spec_float) :
  x <> S754_nan -> is_nan (SF2Prim x) = false.
Proof.
  intros Hx. destruct x as [[]|[]| |s m e]; try reflexivity; [congruence|].
  destruct (is_nan (SF2Prim (S754_finite s m e))) eqn:E; [|reflexivity].
  exfalso. apply is_nan_spec in E. revert E. unfold SF2Prim, Z.ldexp.
  assert (H : forall k,
             Prim2SF (ldshiftexp (of_uint63 (Uint63Axioms.of_Z (Z.pos m))) k)
             <> S754_nan).
  { intros k. rewrite ldshiftexp_spec, of_uint63_spec.
    apply SFldexp_not_nan, binary_normalize_not_nan. }
  assert (Hopp : forall f, Prim2SF f <> S754_nan -> Prim2SF (- f) <> S754_nan).
  { intros f Hf. rewrite opp_spec. destruct (Prim2SF f); cbn; congruence. }
  destruct s; [apply Hopp|]; apply H.
Qed.

Lemma signedZero_not_nan (neg : bool) : is_nan (signedZero neg) = false.
Proof. destruct neg; reflexivity. Qed.

Lemma signedInfinity_not_nan (neg : bool) :
  is_nan (signedInfinity neg) = false.
Proof. destruct neg; reflexivity. Qed.

(** A decimal is never converted to NaN. *)
Lemma decimalToNumber_not_nan (neg : bool) (m e : Z) :
  is_nan (decimalToNumber neg m e) = false.
Proof.
  unfold decimalToNumber.
  destruct m as [|p|p]; try apply signedZero_not_nan.
  destruct (310 <? e + Z.of_nat (List.length (decimalOfZ (Z.pos p))))%Z;
    [apply signedInfinity_not_nan|].
  destruct (e + Z.of_nat (List.length (decimalOfZ (Z.pos p))) <? -330)%Z;
    [apply signedZero_not_nan|].
  destruct (0 <=? e)%Z; apply SF2Prim_not_nan.
  - apply binary_normalize_not_nan.
  - apply SFdiv_finite_not_nan.
Qed.

Lemma isDigit_not_whitespace (c : N) :
  isDigit c = true -> isWhiteSpace c = false.
Proof.
  intros H. pose proof (isDigit_not_stripped c H) as S.
  unfold Terms.isStripped in S.
  apply orb_false_iff in S as [_ S]. exact S.
Qed.

(** A text that begins with a digit is parsed to a number. *)
Lemma parseFloat_digit_first (d : N) (rest : jsstring) :
  isDigit d = true -> isNaN (parseFloat (d :: rest)) = false.
Proof.
  intros Hd. unfold parseFloat, isNaN.
  cbn [trimStart]. rewrite (isDigit_not_whitespace d Hd).
  apply isDigit_range in Hd.
  unfold takeSign.
  replace (d =? c_minus)%N with false
    by (symmetry; apply N.eqb_neq; unfold c_minus; lia).
  replace (d =? c_plus)%N with false
    by (symmetry; apply N.eqb_neq; unfold c_plus; lia).
  replace (stripPrefix (lit "Infinity") (d :: rest)) with (@None jsstring).
  2:{ change (lit "Infinity") with (73%N :: lit "nfinity").
      cbn [stripPrefix].
      replace (73 =? d)%N with false; [reflexivity|].
      symmetry. apply N.eqb_neq. lia. }
  cbn [span]. replace (isDigit d) with true
    by (symmetry; apply isDigit_range; exact Hd).
  destruct (span isDigit rest) as [ip s1].
  destruct (match s1 with
            | [] => ([], s1)
            | c :: s1' => if (c =? c_dot)%N then span isDigit s1' else ([], s1)
            end) as [fp s2].
  cbn [app]. apply decimalToNumber_not_nan.
Qed.

End NotNaN.

(* ================================================================== *)
(** * The summary of the table                                          *)
(* ================================================================== *)

Section TableSummary.
Import JS Runtime.

Lemma addRow_counted (state : number * nat) (r : Table.row) :
  Table.addRow state r
  = if Props.counted r
    then ((fst state + Props.parsedAmount r)%float, snd state + 1)
    else state.
Proof.
  destruct state as [t n]. unfold Table.addRow, Props.counted,
    Props.parsedAmount.
  destruct (ToBoolean (Table.amountField r)); cbn [andb fst snd];
    [|reflexivity].
  rewrite cleanValue_stripped.
  destruct (isNaN _); reflexivity.
Qed.

Lemma fold_addRow (data : list Table.row) :
  forall t n,
    fold_left Table.addRow data (t, n)
    = (fold_left (fun t r => (t + Props.parsedAmount r)%float)
         (filter Props.counted data) t,
       n + List.length (filter Props.counted data)).
Proof.
  induction data as [|r data IH]; intros t n; cbn [fold_left filter].
  - cbn. f_equal. lia.
  - rewrite addRow_counted. cbn [fst snd].
    destruct (Props.counted r); rewrite IH; cbn [fold_left List.length];
      f_equal; lia.
Qed.

(** What [isAmount] accepts is read as a number. *)
Lemma isAmount_parsed (v : value) :
  DataTable.isAmount v = true ->
  ToBoolean v = true
  /\ isNaN (parseFloat (Terms.stripped (ToString v))) = false.
Proof.
  intros H. split.
  - unfold DataTable.isAmount in H.
    destruct (ToBoolean v); [reflexivity|discriminate].
  - rewrite isAmount_decimalShape in H. apply decimalShape_spec in H.
    destruct H as (ip & fp & -> & Hip0 & _ & Hip & _).
    destruct ip as [|d ip]; [congruence|].
    cbn in Hip. apply andb_true_iff in Hip as [Hd _].
    now apply parseFloat_digit_first.
Qed.

End TableSummary.

(** X12: the summary of the table.  [totalRows] is the number of rows;
    [amountCount] is the number of rows whose amount is truthy and, without
    peso signs, commas and white space, is read as a number by
    [parseFloat]; [totalAmount] is the sum of these numbers in row order.
    Every row whose amount [isAmount] accepts is among the counted ones, a
    row with a falsy amount (missing, [null], [0], empty) never is, and no
    more rows are counted than there are.  Without an array there is no
    summary. *)
Theorem X12_table_summary_counts_the_amount_rows (data : list Table.row) :
  Table.summary (Some data)
  = Some {| Table.totalRows := List.length data;
            Table.amountCount := List.length (filter Props.counted data);
            Table.totalAmount :=
              fold_left (fun total row => (total + Props.parsedAmount row)%float)
                (filter Props.counted data) 0%float |}
  /\ List.length (filter Props.counted data) <= List.length data
  /\ (forall row,
         DataTable.isAmount (Table.amountField row) = true ->
         Props.counted row = true)
  /\ (forall row,
         JS.ToBoolean (Table.amountField row) = false ->
         Props.counted row = false)
  /\ Table.summary None = None.
Proof.
  split; [|split; [|split; [|split]]].
  - unfold Table.summary. rewrite fold_addRow. reflexivity.
  - apply filter_length_le.
  - intros row H. apply isAmount_parsed in H as [Hv Hn].
    unfold Props.counted, Props.parsedAmount. now rewrite Hv, Hn.
  - intros row H. unfold Props.counted. now rewrite H.
  - reflexivity.
Qed.

(* ================================================================== *)
(** * More on the rendering of amounts                                  *)
(* ================================================================== *)

Section Rendering.
Import JS.

Lemma formatAmount_try_stripped (a b : value) :
  ToBoolean a = true -> ToBoolean b = true ->
  Terms.stripped (ToString a) = Terms.stripped (ToString b) ->
  DataTable.formatAmount_try a = DataTable.formatAmount_try b.
Proof.
  intros Ha Hb E. unfold DataTable.formatAmount_try.
  rewrite Ha, Hb. cbn [negb]. rewrite !cleanValue_stripped, E. reflexivity.
Qed.

Lemma NumberFormat_limit (st : style) (d : nat) (x : number) :
  fractionDigitsLimit < d ->
  NumberFormat_enPH st d d x = Throw RangeError.
Proof.
  intros H. unfold NumberFormat_enPH.
  replace (fractionDigitsLimit <? d) with true
    by (symmetry; now apply Nat.ltb_lt).
  reflexivity.
Qed.

(** The digits of a formatted number come after a peso sign, or after a
    minus sign and a peso sign, in the currency style. *)
Lemma NumberFormat_currency_head (x : number) :
  exists rest,
    NumberFormat_enPH StyleCurrencyPHP 2 2 x = Normal (c_peso :: rest)
    \/ NumberFormat_enPH StyleCurrencyPHP 2 2 x
       = Normal (c_minus :: c_peso :: rest).
Proof.
  unfold NumberFormat_enPH. cbn [Nat.ltb Nat.leb orb fractionDigitsLimit].
  eexists. destruct (signOf (Prim2SF x)); [right|left]; reflexivity.
Qed.

Lemma digitsFuel_digits (fuel : nat) :
  forall n, forallb isDigit (digitsFuel fuel n) = true.
Proof.
  assert (Hd : forall k, (0 <= k <= 9)%Z ->
                         isDigit (c_zero + Z.to_N k) = true).
  { intros k Hk. apply isDigit_range. unfold c_zero. lia. }
  induction fuel as [|fuel IH]; intros n; cbn [digitsFuel]; [reflexivity|].
  destruct (n <? 10)%Z eqn:E.
  - apply Z.ltb_lt in E. cbn [forallb]. rewrite andb_true_r.
    destruct (Z.le_gt_cases 0 n) as [H0|H0].
    + apply Hd. lia.
    + replace (Z.to_N n) with 0%N by lia. reflexivity.
  - rewrite forallb_app, IH. cbn [forallb]. rewrite andb_true_r.
    apply Hd. pose proof (Z.mod_pos_bound n 10). lia.
Qed.

Lemma groupFrom_no_point (ds : jsstring) :
  forallb isDigit ds = true ->
  forall first n, String_includes (groupFrom first n ds) c_dot = false.
Proof.
  unfold String_includes.
  induction ds as [|c ds IH]; intros H first n; cbn [groupFrom];
    [reflexivity|].
  cbn in H. apply andb_true_iff in H as [Hc Hds].
  rewrite existsb_app. cbn [existsb]. rewrite (IH Hds).
  unfold is_char at 2. rewrite N.eqb_sym, (isDigit_not_dot c Hc).
  destruct (negb first && (n mod 3 =? 0)); reflexivity.
Qed.

(** With no fraction digits asked for, the layout has no point. *)
Lemma formatMagnitude_no_point (x : number) :
  String_includes (formatMagnitude x 0 0) c_dot = false.
Proof.
  assert (H : forall n, String_includes (layoutFixed n 0 0) c_dot = false).
  { intros n. unfold layoutFixed.
    change (fractionDigits 0 0 (n mod 10 ^ Z.of_nat 0)) with (@nil N).
    rewrite app_nil_r. unfold group.
    apply groupFrom_no_point, digitsFuel_digits. }
  unfold formatMagnitude.
  destruct (Prim2SF x) as [s|s| |s m e]; try apply H; [reflexivity|].
  destruct (shortestDecimal x m e) as [[s0 n] k]. apply H.
Qed.

End Rendering.

(** X13: [DataTable.formatAmount] only looks at the text of the value
    without its peso signs, commas and white space: two truthy values with
    the same text after that removal are rendered the same. *)
Theorem X13_rendering_ignores_peso_signs_commas_and_spaces
  (a b : JS.value)
  (Ha : JS.ToBoolean a = true) (Hb : JS.ToBoolean b = true)
  (Htext : Terms.stripped (JS.ToString a) = Terms.stripped (JS.ToString b)) :
  DataTable.formatAmount a = DataTable.formatAmount b.
Proof.
  unfold DataTable.formatAmount.
  now rewrite (formatAmount_try_stripped a b Ha Hb Htext).
Qed.

Lemma X13_witness :
  DataTable.formatAmount
    (JS.JStr (JS.c_peso :: JS.lit " 1,234.50"))
  = DataTable.formatAmount (JS.JStr (JS.lit "1234.50")).
Proof.
  apply X13_rendering_ignores_peso_signs_commas_and_spaces;
    vm_compute; reflexivity.
Defined.

Section RenderingFacts.
Import JS.

Lemma pesoMarked_zeroString : Props.pesoMarked DataTable.zeroString.
Proof. eexists. left. reflexivity. Qed.

Lemma pesoMarked_prefixed (st : style) (minFD maxFD : nat) (x : number) :
  Props.pesoMarked
    match
      match NumberFormat_enPH st minFD maxFD x with
      | Normal s => Normal (c_peso :: s)
      | Throw e => Throw e
      end
    with
    | Normal s => s
    | Throw _ => DataTable.zeroString
    end.
Proof.
  destruct (NumberFormat_enPH st minFD maxFD x).
  - eexists. left. reflexivity.
  - apply pesoMarked_zeroString.
Qed.

Lemma pesoMarked_currency (x : number) :
  Props.pesoMarked
    match NumberFormat_enPH StyleCurrencyPHP 2 2 x with
    | Normal s => s
    | Throw _ => DataTable.zeroString
    end.
Proof.
  destruct (NumberFormat_currency_head x) as (rest & [-> | ->]);
    eexists; [left|right]; reflexivity.
Qed.

Lemma digits_no_point (ds : jsstring) :
  forallb isDigit ds = true -> String_includes ds c_dot = false.
Proof.
  unfold String_includes.
  induction ds as [|c ds IH]; cbn [existsb forallb]; [reflexivity|].
  intros H. apply andb_true_iff in H as [Hc Hds].
  unfold is_char at 1. rewrite N.eqb_sym, (isDigit_not_dot c Hc).
  now apply IH.
Qed.

Lemma stripped_digits (ds : jsstring) :
  forallb isDigit ds = true -> Terms.stripped ds = ds.
Proof.
  apply filter_digits. intros c Hc. now rewrite (isDigit_not_stripped c Hc).
Qed.

End RenderingFacts.

(** X14: a rendered amount always carries the currency sign: whatever the
    value, both [formatAmount] functions return a text that begins with
    the peso sign, or with a minus sign and the peso sign.  Both places of
    the minus sign occur in [DataTable.formatAmount]: after the peso sign
    for an amount with one decimal place, before it for one with two. *)
Theorem X14_rendered_amounts_begin_with_the_peso_sign :
  (forall v : JS.value,
      Props.pesoMarked (DataTable.formatAmount v)
      /\ Props.pesoMarked (Summary.formatAmount v))
  /\ DataTable.formatAmount (JS.JStr (JS.lit "-5.1"))
     = JS.c_peso :: JS.lit "-5.1"
  /\ DataTable.formatAmount (JS.JStr (JS.lit "-5.12"))
     = JS.c_minus :: JS.c_peso :: JS.lit "5.12".
Proof.
  split; [|split; vm_compute; reflexivity].
  intros v. split.
  - unfold DataTable.formatAmount, DataTable.formatAmount_try.
    destruct (negb (JS.ToBoolean v)); [apply pesoMarked_zeroString|].
    destruct (JS.isNaN _); [apply pesoMarked_zeroString|].
    destruct (_ =? 1); [apply pesoMarked_prefixed|].
    destruct (_ =? 2); [apply pesoMarked_currency|].
    apply pesoMarked_prefixed.
  - unfold Summary.formatAmount, Summary.formatAmount_try.
    destruct (negb (JS.ToBoolean v)); [apply pesoMarked_zeroString|].
    apply pesoMarked_currency.
Qed.

(** X15: an amount written with more than 100 fraction digits is rendered
    as the zero amount by [DataTable.formatAmount]: the number formatter
    refuses the digit count and the [catch] clause answers. *)
Theorem X15_too_many_fraction_digits_render_as_zero
  (ip fp : JS.jsstring)
  (Hip0 : ip <> [])
  (Hip : forallb JS.isDigit ip = true) (Hfp : forallb JS.isDigit fp = true)
  (Hlen : JS.fractionDigitsLimit < List.length fp) :
  DataTable.formatAmount (JS.JStr (ip ++ JS.c_dot :: fp))
  = DataTable.zeroString.
Proof.
  unfold DataTable.formatAmount, DataTable.formatAmount_try.
  replace (JS.ToBoolean (JS.JStr (ip ++ JS.c_dot :: fp))) with true
    by (destruct ip; [congruence|reflexivity]).
  cbn [negb JS.ToString].
  rewrite cleanValue_stripped, stripped_amount_string by assumption.
  destruct (JS.isNaN _); [reflexivity|].
  rewrite includes_amount_string, split_amount_string by assumption.
  cbn [nth]. unfold JS.fractionDigitsLimit in Hlen.
  replace (List.length fp =? 1) with false
    by (symmetry; apply Nat.eqb_neq; lia).
  replace (List.length fp =? 2) with false
    by (symmetry; apply Nat.eqb_neq; lia).
  now rewrite NumberFormat_limit.
Qed.

Lemma X15_witness :
  DataTable.formatAmount (JS.JStr (JS.lit "1" ++ JS.c_dot :: repeat 55%N 101))
  = DataTable.zeroString.
Proof.
  apply X15_too_many_fraction_digits_render_as_zero.
  - discriminate.
  - reflexivity.
  - vm_compute. reflexivity.
  - vm_compute. lia.
Defined.

(** X16: an amount written without a decimal point, digits only, is
    rendered by [DataTable.formatAmount] without a decimal point: the
    branch for three or more decimal places also takes the amounts with
    none and formats them with no fraction digits. *)
Theorem X16_integer_amounts_render_without_decimals
  (ds : JS.jsstring)
  (Hds0 : ds <> []) (Hds : forallb JS.isDigit ds = true) :
  exists body,
    DataTable.formatAmount (JS.JStr ds) = JS.c_peso :: body
    /\ JS.String_includes body JS.c_dot = false.
Proof.
  unfold DataTable.formatAmount, DataTable.formatAmount_try.
  replace (JS.ToBoolean (JS.JStr ds)) with true
    by (destruct ds; [congruence|reflexivity]).
  cbn [negb JS.ToString].
  rewrite cleanValue_stripped, stripped_digits by assumption.
  assert (Hnan : JS.isNaN (JS.parseFloat ds) = false).
  { destruct ds as [|d rest]; [congruence|].
    cbn in Hds. apply andb_true_iff in Hds as [Hd _].
    now apply parseFloat_digit_first. }
  rewrite Hnan, (digits_no_point ds Hds).
  cbn [Nat.eqb]. unfold JS.NumberFormat_enPH.
  cbn [Nat.ltb Nat.leb orb JS.fractionDigitsLimit app].
  eexists. split; [reflexivity|].
  unfold JS.isNaN in Hnan.
  assert (Hx : Prim2SF (JS.parseFloat ds) <> S754_nan).
  { intros E. apply is_nan_spec in E. congruence. }
  unfold JS.String_includes. rewrite existsb_app.
  apply orb_false_iff. split.
  - destruct (JS.signOf _); reflexivity.
  - destruct (Prim2SF (JS.parseFloat ds)) eqn:E; try congruence;
      apply formatMagnitude_no_point.
Qed.

Lemma X16_witness :
  exists body,
    DataTable.formatAmount (JS.JStr (JS.lit "1234")) = JS.c_peso :: body
    /\ JS.String_includes body JS.c_dot = false.
Proof.
  apply X16_integer_amounts_render_without_decimals.
  - discriminate.
  - reflexivity.
Defined.

(* ================================================================== *)
(** * Sorting                                                           *)
(* ================================================================== *)

Section Sorting.
Import JS Runtime.

(** ** The sign of a difference *)

Lemma ltb_zero_spec (x : number) : (x <? 0)%float = Props.SFnegative (Prim2SF x).
Proof. rewrite ltb_spec. reflexivity. Qed.

Lemma binary_round_aux_sign (mx ex : Z) (lx : location) :
  Props.SFnegative (binary_round_aux prec emax false mx ex lx) = false.
Proof.
  unfold binary_round_aux.
  destruct (shr_fexp prec emax mx ex lx) as [mrs' e'].
  destruct (shr_fexp prec emax
              (round_nearest_even (shr_m mrs') (loc_of_shr_record mrs'))
              e' loc_Exact) as [mrs'' e''].
  destruct (shr_m mrs''); [reflexivity| |reflexivity].
  destruct (e'' <=? emax - prec)%Z; reflexivity.
Qed.

Lemma binary_normalize_sign (m e : Z) :
  (0 <= m)%Z -> Props.SFnegative (binary_normalize prec emax m e false) = false.
Proof.
  intros H. destruct m as [|p|p]; [reflexivity| |lia].
  cbn [binary_normalize]. unfold binary_round.
  destruct (shl_align p e (fexp prec emax (Z.pos (digits2_pos p) + e)))
    as [mz ez].
  apply binary_round_aux_sign.
Qed.

(** A difference and the opposite difference are not both negative. *)
Lemma SFsub_asym (a b : spec_float) :
  Props.SFnegative (SFsub prec emax a b) = true ->
  Props.SFnegative (SFsub prec emax b a) = false.
Proof.
  destruct a as [sa|sa| |sa ma ea], b as [sb|sb| |sb mb eb];
    try (destruct sa, sb; cbn; congruence);
    try (destruct sa; cbn; congruence);
    try (destruct sb; cbn; congruence);
    try (cbn; congruence).
  unfold SFsub. rewrite (Z.min_comm eb ea).
  set (ez := Z.min ea eb).
  set (A := cond_Zopp sa (Z.pos (fst (shl_align ma ea ez)))).
  set (B := cond_Zopp sb (Z.pos (fst (shl_align mb eb ez)))).
  intros H. apply binary_normalize_sign.
  destruct (Z.le_gt_cases 0 (A - B)) as [Hle|Hgt]; [|lia].
  rewrite (binary_normalize_sign _ _ Hle) in H. discriminate.
Qed.

Lemma sub_asym (x y : number) :
  (x - y <? 0)%float = true -> (y - x <? 0)%float = false.
Proof.
  rewrite !ltb_zero_spec, !sub_spec. apply SFsub_asym.
Qed.

(** ** Insertion sort *)

Section Comparator.

Context {A : Type} (comparefn : A -> A -> number).

Hypothesis comparefn_asym :
  forall a b,
    (comparefn a b <? 0)%float = true -> (comparefn b a <? 0)%float = false.

Lemma insertBy_perm (x : A) (l : list A) :
  Permutation (insertBy comparefn x l) (x :: l).
Proof.
  induction l as [|y l IH]; cbn; [reflexivity|].
  destruct (comparefn y x <? 0)%float; [|reflexivity].
  rewrite IH. apply perm_swap.
Qed.

Lemma Array_sort_perm (l : list A) : Permutation (Array_sort comparefn l) l.
Proof.
  induction l as [|x l IH]; cbn; [reflexivity|].
  fold (Array_sort comparefn l).
  rewrite insertBy_perm. now constructor.
Qed.

Lemma insertBy_sorted (x : A) (l : list A) :
  Sorted (Props.inOrder comparefn) l -> Sorted (Props.inOrder comparefn) (insertBy comparefn x l).
Proof.
  induction l as [|y l IH]; intros Hs; cbn.
  - repeat constructor.
  - destruct (comparefn y x <? 0)%float eqn:E.
    + inversion Hs as [|? ? Hl Hhd]; subst.
      constructor; [now apply IH|].
      destruct l as [|z l]; cbn.
      * constructor. now apply comparefn_asym.
      * destruct (comparefn z x <? 0)%float.
        -- inversion Hhd; subst. now constructor.
        -- constructor. now apply comparefn_asym.
    + constructor; [exact Hs|]. constructor. exact E.
Qed.

Lemma Array_sort_sorted (l : list A) : Sorted (Props.inOrder comparefn) (Array_sort comparefn l).
Proof.
  induction l as [|x l IH]; cbn; [constructor|].
  now apply insertBy_sorted.
Qed.

End Comparator.

Lemma Sorted_firstn {A : Type} (R : A -> A -> Prop) (n : nat) :
  forall l, Sorted R l -> Sorted R (firstn n l).
Proof.
  induction n as [|n IH]; intros l Hs; [constructor|].
  destruct l as [|x l]; [constructor|].
  inversion Hs as [|? ? Hl Hhd]; subst. cbn.
  constructor; [now apply IH|].
  destruct n; [constructor|].
  destruct l as [|y l]; [constructor|].
  inversion Hhd; subst. now constructor.
Qed.

End Sorting.

(* ================================================================== *)
(** * The rows of the payment table and of the cards                    *)
(* ================================================================== *)

Section TableRows.
Import JS Runtime Summary.

(** ** The specialised sort and enumeration are the general ones *)

Lemma insertItem_insertBy (x : item) (l : list item) :
  insertItem x l = insertBy comparefn x l.
Proof.
  induction l as [|y l IH]; cbn; [reflexivity|]. now rewrite IH.
Qed.

Lemma Summary_sort_general (l : list item) :
  Summary.Array_sort l = Runtime.Array_sort comparefn l.
Proof.
  induction l as [|x l IH]; cbn; [reflexivity|].
  fold (Summary.Array_sort l). fold (Runtime.Array_sort comparefn l).
  rewrite IH. apply insertItem_insertBy.
Qed.

Lemma Summary_comparefn_asym (a b : item) :
  (comparefn a b <? 0)%float = true -> (comparefn b a <? 0)%float = false.
Proof. apply sub_asym. Qed.

Lemma insertIndexed_perm {A : Type} (kv : jsstring * A) (l : props A) :
  Permutation (insertIndexed kv l) (kv :: l).
Proof.
  induction l as [|kv' l IH]; cbn; [reflexivity|].
  destruct (digitsToZ (fst kv) <? digitsToZ (fst kv'))%Z; [reflexivity|].
  rewrite IH. apply perm_swap.
Qed.

Lemma filter_partition_perm {A : Type} (f : A -> bool) (l : list A) :
  Permutation (filter f l ++ filter (fun x => negb (f x)) l) l.
Proof.
  induction l as [|x l IH]; cbn; [reflexivity|].
  destruct (f x); cbn.
  - now constructor.
  - rewrite <- Permutation_middle. now constructor.
Qed.

Lemma Object_entries_perm {A : Type} (o : props A) :
  Permutation (Runtime.Object_entries o) o.
Proof.
  unfold Runtime.Object_entries.
  rewrite <- (filter_partition_perm (fun kv => isArrayIndex (fst kv)) o) at 3.
  apply Permutation_app_tail.
  induction (filter (fun kv => isArrayIndex (fst kv)) o) as [|kv l IH];
    cbn; [reflexivity|].
  rewrite insertIndexed_perm. now constructor.
Qed.

Lemma insertIndex_general (kv : jsstring * bucket) (l : object) :
  insertIndex kv l = insertIndexed kv l.
Proof.
  induction l as [|kv' l IH]; cbn; [reflexivity|]. now rewrite IH.
Qed.

Lemma Summary_entries_general (o : object) :
  Summary.Object_entries o = Runtime.Object_entries o.
Proof.
  unfold Summary.Object_entries, Runtime.Object_entries. f_equal.
  induction (filter (fun kv => isArrayIndex (fst kv)) o) as [|kv l IH];
    cbn; [reflexivity|].
  rewrite IH. apply insertIndex_general.
Qed.

(** The rows are the properties of [totals], in some order. *)
Lemma paymentTotals_perm (entries : list entry) (sel : jsstring) :
  Permutation
    (items (paymentTotals (Some entries) sel))
    (map (Terms.rowOf (grandTotal (paymentTotals (Some entries) sel)))
       (fst (Terms.loopState (filteredEntries entries sel)))).
Proof.
  rewrite paymentTotals_Some. cbn [items grandTotal].
  rewrite Summary_sort_general, Array_sort_perm.
  apply Permutation_map.
  rewrite Summary_entries_general. apply Object_entries_perm.
Qed.

(** ** Counting *)

Lemma fold_left_count {A : Type} (f : A -> nat) (l : list A) :
  forall a, fold_left (fun sum x => sum + f x) l a = a + list_sum (map f l).
Proof.
  induction l as [|x l IH]; intros a; cbn [fold_left map].
  - cbn. lia.
  - rewrite IH. unfold list_sum. cbn [fold_right]. lia.
Qed.

Lemma list_sum_perm (l1 l2 : list nat) :
  Permutation l1 l2 -> list_sum l1 = list_sum l2.
Proof.
  induction 1; unfold list_sum in *; cbn [fold_right]; lia.
Qed.

Lemma update_absent (o : object) (key : jsstring) (f : bucket -> bucket) :
  hasOwn o key = false -> update o key f = o.
Proof.
  induction o as [|[k b] o IH]; cbn; [reflexivity|].
  intros H. apply orb_false_iff in H as [Hk Ho].
  rewrite Hk, (IH Ho). reflexivity.
Qed.

Lemma update_countSum (o : object) (key : jsstring) (a : number) :
  hasOwn o key = true ->
  Props.countSum
    (update o key
       (fun b => {| count := count b + 1;
                    bucket_amount := (bucket_amount b + a)%float |}))
  = Props.countSum o + 1.
Proof.
  unfold Props.countSum, list_sum.
  induction o as [|[k b] o IH]; cbn [hasOwn update]; [discriminate|].
  destruct (jsstring_eqb k key); cbn [orb].
  - intros _. cbn [map fold_right snd count]. lia.
  - intros H. cbn [map fold_right snd count]. rewrite (IH H). lia.
Qed.

Lemma hasOwn_In (o : object) (key : jsstring) :
  hasOwn o key = true <-> In key (map fst o).
Proof.
  induction o as [|[k b] o IH]; cbn; [split; [discriminate|tauto]|].
  rewrite orb_true_iff, jsstring_eqb_spec, IH. reflexivity.
Qed.

Lemma hasOwn_app_new (o : object) (key : jsstring) (b : bucket) :
  hasOwn (o ++ [(key, b)]) key = true.
Proof.
  apply hasOwn_In. rewrite map_app, in_app_iff. right. now left.
Qed.

(** One step of the loop: the own keys stay clear of the inherited names,
    and the counts grow by one for an entry that gets a bucket. *)
Lemma accumulate_counts (totals : object) (g : number) (e : entry) :
  (forall k, In k (map fst totals) -> inherited k = false) ->
  (forall k, In k (map fst (fst (accumulate (totals, g) e))) ->
             inherited k = false)
  /\ Props.countSum (fst (accumulate (totals, g) e))
     = Props.countSum totals + (if Props.bucketable e then 1 else 0).
Proof.
  intros Hclear. unfold accumulate, Props.bucketable. cbn [fst].
  destruct (inherited (typeOf e)) eqn:Hinh.
  - rewrite orb_true_r. cbn [negb].
    assert (Hown : hasOwn totals (typeOf e) = false).
    { destruct (hasOwn totals (typeOf e)) eqn:E; [|reflexivity].
      apply hasOwn_In, Hclear in E. congruence. }
    rewrite (update_absent _ _ _ Hown). split; [exact Hclear|lia].
  - rewrite orb_false_r. cbn [negb]. split.
    + intros k. rewrite keys_update.
      destruct (hasOwn totals (typeOf e)); cbn [negb]; [apply Hclear|].
      rewrite map_app, in_app_iff. intros [H|[<-|[]]]; [now apply Hclear|].
      exact Hinh.
    + destruct (hasOwn totals (typeOf e)) eqn:Hown; cbn [negb].
      * now apply update_countSum.
      * rewrite update_countSum by apply hasOwn_app_new.
        unfold Props.countSum. rewrite map_app, list_sum_app.
        unfold list_sum at 2. cbn [map fold_right snd count]. lia.
Qed.

Lemma fold_accumulate_counts (l : list entry) :
  forall (totals : object) (g : number),
    (forall k, In k (map fst totals) -> inherited k = false) ->
    (forall k, In k (map fst (fst (fold_left accumulate l (totals, g)))) ->
               inherited k = false)
    /\ Props.countSum (fst (fold_left accumulate l (totals, g)))
       = Props.countSum totals + List.length (filter Props.bucketable l).
Proof.
  induction l as [|e l IH]; intros totals g Hclear; cbn [fold_left filter].
  - split; [exact Hclear|cbn [fst List.length]; lia].
  - destruct (accumulate_counts totals g e Hclear) as [Hc Hs].
    destruct (accumulate (totals, g) e) as [totals' g']. cbn [fst] in Hc, Hs.
    destruct (IH totals' g' Hc) as [Hc' Hs'].
    split; [exact Hc'|]. rewrite Hs', Hs.
    destruct (Props.bucketable e); cbn [List.length]; lia.
Qed.

End TableRows.

(* ================================================================== *)
(** * The order of the sorted rows                                      *)
(* ================================================================== *)

Section FloatOrder.
Import JS Runtime.

(** ** The order of the numbers and the sign of a difference *)

Lemma digits2_pos_bounds (p : positive) :
  (2 ^ (Z.pos (digits2_pos p) - 1) <= Z.pos p < 2 ^ Z.pos (digits2_pos p))%Z.
Proof.
  induction p as [p IH|p IH|]; cbn [digits2_pos];
    [| |cbn; lia];
    rewrite Pos2Z.inj_succ;
    replace (Z.succ (Z.pos (digits2_pos p)) - 1)%Z
      with (Z.succ (Z.pos (digits2_pos p) - 1)) by lia;
    rewrite !Z.pow_succ_r by lia; lia.
Qed.

Lemma iter_xO_value (d m : positive) :
  Z.pos (Pos.iter xO m d) = (Z.pos m * 2 ^ Z.pos d)%Z.
Proof.
  induction d as [|d IH] using Pos.peano_ind.
  - cbn. lia.
  - rewrite Pos.iter_succ, Pos2Z.inj_succ, Z.pow_succ_r by lia.
    rewrite Pos2Z.inj_xO, IH. lia.
Qed.

Lemma shl_align_value (m : positive) (e e' : Z) :
  (e' <= e)%Z ->
  Z.pos (fst (shl_align m e e')) = (Z.pos m * 2 ^ (e - e'))%Z.
Proof.
  intros H. unfold shl_align.
  destruct (e' - e)%Z as [|d|d] eqn:E; cbn [fst].
  - replace (e - e')%Z with 0%Z by lia. lia.
  - lia.
  - rewrite iter_xO_value. f_equal. f_equal. lia.
Qed.

Lemma shl_align_exponent (m : positive) (e e' : Z) :
  (Z.min e e' <= snd (shl_align m e e'))%Z.
Proof.
  unfold shl_align. destruct (e' - e)%Z; cbn [snd]; lia.
Qed.

Lemma shr_1_value (mrs : shr_record) :
  (0 <= shr_m mrs)%Z -> shr_m (shr_1 mrs) = (shr_m mrs / 2)%Z.
Proof.
  destruct mrs as [m r s]. cbn [shr_m shr_1].
  destruct m as [|p|p]; [reflexivity| |lia]. intros _.
  destruct p as [p|p|]; cbn [shr_m].
  - rewrite Pos2Z.inj_xI. apply Z.div_unique with 1%Z; lia.
  - rewrite Pos2Z.inj_xO. apply Z.div_unique with 0%Z; lia.
  - reflexivity.
Qed.

Lemma iter_shr_1_value (n : positive) :
  forall mrs,
    (0 <= shr_m mrs)%Z ->
    shr_m (iter_pos shr_1 n mrs) = (shr_m mrs / 2 ^ Z.pos n)%Z.
Proof.
  induction n as [n IH|n IH|]; intros mrs H; cbn [iter_pos].
  - rewrite IH, IH, shr_1_value by
      (try apply iter_shr_1_nonneg; try apply shr_1_nonneg; exact H).
    rewrite !Z.div_div by (try apply Z.pow_pos_nonneg; lia).
    f_equal. rewrite Pos2Z.inj_xI, <- Z.pow_add_r, <- Z.pow_succ_r by lia.
    f_equal. lia.
  - rewrite IH, IH by (try apply iter_shr_1_nonneg; exact H).
    rewrite !Z.div_div by (try apply Z.pow_pos_nonneg; lia).
    f_equal. rewrite Pos2Z.inj_xO, <- Z.pow_add_r by lia.
    f_equal. lia.
  - rewrite shr_1_value by exact H. reflexivity.
Qed.

(** Rounding a positive mantissa whose exponent is not below [emin] leaves
    a positive mantissa. *)
Lemma shr_fexp_positive (p : positive) (e : Z) (l : location) :
  (emin <= e)%Z ->
  (0 < shr_m (fst (shr_fexp prec emax (Z.pos p) e l)))%Z
  /\ (emin <= snd (shr_fexp prec emax (Z.pos p) e l))%Z.
Proof.
  intros He. unfold shr_fexp, shr. cbn [Zdigits2].
  assert (H0 : shr_m (shr_record_of_loc (Z.pos p) l) = Z.pos p)
    by (destruct l as [|[]]; reflexivity).
  pose proof (digits2_pos_bounds p) as [Hlo _].
  destruct (fexp prec emax (Z.pos (digits2_pos p) + e) - e)%Z
    as [|n|n] eqn:En; cbn [fst snd]; rewrite ?H0; try (split; lia).
  unfold fexp in En.
  assert (Hn : (Z.pos n <= Z.pos (digits2_pos p) - 1)%Z)
    by (change prec with 53%Z in *; lia).
  rewrite iter_shr_1_value by (rewrite H0; lia). rewrite H0.
  split; [|lia].
  apply Z.div_str_pos. split; [apply Z.pow_pos_nonneg; lia|].
  apply Z.le_trans with (2 ^ (Z.pos (digits2_pos p) - 1))%Z; [|exact Hlo].
  apply Z.pow_le_mono_r; lia.
Qed.

Lemma round_nearest_even_positive (m : Z) (l : location) :
  (0 < m)%Z -> (0 < round_nearest_even m l)%Z.
Proof.
  intros H. destruct l as [|[]]; cbn; [lia| |lia|lia].
  destruct (Z.even m); lia.
Qed.

Lemma binary_round_aux_negative (p : positive) (e : Z) (l : location) :
  (emin <= e)%Z ->
  Props.SFnegative (binary_round_aux prec emax true (Z.pos p) e l) = true.
Proof.
  intros He. unfold binary_round_aux.
  destruct (shr_fexp_positive p e l He) as [H1 He'].
  destruct (shr_fexp prec emax (Z.pos p) e l) as [mrs' e'].
  cbn [fst snd] in H1, He'.
  pose proof (round_nearest_even_positive _ (loc_of_shr_record mrs') H1)
    as H2.
  destruct (round_nearest_even (shr_m mrs') (loc_of_shr_record mrs'))
    as [|q|q]; try lia.
  destruct (shr_fexp_positive q e' loc_Exact He') as [H3 _].
  destruct (shr_fexp prec emax (Z.pos q) e' loc_Exact) as [mrs'' e''].
  cbn [fst] in H3.
  destruct (shr_m mrs'') as [|m|m]; try lia.
  destruct (e'' <=? emax - prec)%Z; reflexivity.
Qed.

Lemma binary_normalize_negative (m e : Z) :
  (m < 0)%Z -> (emin <= e)%Z ->
  Props.SFnegative (binary_normalize prec emax m e false) = true.
Proof.
  intros Hm He. destruct m as [|p|p]; try lia.
  cbn [binary_normalize]. unfold binary_round.
  pose proof (shl_align_exponent p e
                (fexp prec emax (Z.pos (digits2_pos p) + e))) as Hz.
  destruct (shl_align p e (fexp prec emax (Z.pos (digits2_pos p) + e)))
    as [mz ez].
  cbn [snd] in Hz. apply binary_round_aux_negative.
  unfold fexp in Hz. lia.
Qed.

(** What a valid finite number satisfies: its exponent is not below
    [emin], its mantissa has at most [prec] bits, and exactly [prec] above
    [emin]. *)
Lemma bounded_canonical (m : positive) (e : Z) :
  bounded prec emax m e = true ->
  (emin <= e)%Z
  /\ (Z.pos m < 2 ^ prec)%Z
  /\ ((emin < e)%Z -> (2 ^ (prec - 1) <= Z.pos m)%Z).
Proof.
  unfold bounded, canonical_mantissa, fexp. intros H.
  apply andb_true_iff in H as [H _]. apply Z.eqb_eq in H.
  pose proof (digits2_pos_bounds m) as [Hlo Hhi].
  split; [lia|]. split.
  - apply Z.lt_le_trans with (2 ^ Z.pos (digits2_pos m))%Z; [exact Hhi|].
    apply Z.pow_le_mono_r; lia.
  - intros He.
    replace (prec - 1)%Z with (Z.pos (digits2_pos m) - 1)%Z by lia.
    exact Hlo.
Qed.

(** A larger exponent is a larger magnitude. *)
Lemma larger_exponent (m1 m2 : positive) (e1 e2 : Z) :
  bounded prec emax m1 e1 = true -> bounded prec emax m2 e2 = true ->
  (e1 < e2)%Z ->
  (Z.pos m1 < Z.pos m2 * 2 ^ (e2 - e1))%Z.
Proof.
  intros H1 H2 He.
  apply bounded_canonical in H1 as (Hm1 & Hhi & _).
  apply bounded_canonical in H2 as (_ & _ & Hlo).
  specialize (Hlo ltac:(lia)).
  assert (Hp : (2 <= 2 ^ (e2 - e1))%Z).
  { change 2%Z with (2 ^ 1)%Z at 1. apply Z.pow_le_mono_r; lia. }
  assert (E : (2 ^ prec = 2 ^ (prec - 1) * 2)%Z) by reflexivity.
  nia.
Qed.

(** When the difference [x - y] is not negative, [y <= x]. *)
Lemma SFsub_leb (x y : spec_float) :
  valid_binary x = true -> valid_binary y = true ->
  x <> S754_nan -> y <> S754_nan ->
  Props.SFnegative (SFsub prec emax x y) = false ->
  SFleb y x = true.
Proof.
  intros Vx Vy Nx Ny.
  destruct x as [sx|sx| |sx mx ex], y as [sy|sy| |sy my ey];
    try congruence;
    try (destruct sx, sy; cbn; congruence);
    try (destruct sx; cbn; congruence);
    try (destruct sy; cbn; congruence).
  cbn [valid_binary] in Vx, Vy. unfold SFsub.
  set (ez := Z.min ex ey).
  rewrite !shl_align_value by (subst ez; lia).
  set (A := cond_Zopp sx (Z.pos mx * 2 ^ (ex - ez))).
  set (B := cond_Zopp sy (Z.pos my * 2 ^ (ey - ez))).
  intros H.
  assert (Hez : (emin <= ez)%Z).
  { apply bounded_canonical in Vx as [? _].
    apply bounded_canonical in Vy as [? _]. subst ez. lia. }
  assert (HAB : (B <= A)%Z).
  { destruct (Z.le_gt_cases B A) as [Hle|Hgt]; [exact Hle|].
    rewrite binary_normalize_negative in H by lia. discriminate. }
  clear H.
  assert (Px : (0 < 2 ^ (ex - ez))%Z)
    by (apply Z.pow_pos_nonneg; subst ez; lia).
  assert (Py : (0 < 2 ^ (ey - ez))%Z)
    by (apply Z.pow_pos_nonneg; subst ez; lia).
  unfold SFleb, SFcompare.
  destruct sx, sy; cbn [cond_Zopp] in A, B; subst A B;
    try reflexivity; try nia.
  - (* both negative *)
    destruct (Z.compare_spec ey ex) as [E|E|E]; try reflexivity.
    + subst ey. replace (ex - ez)%Z with 0%Z in * by (subst ez; lia).
      rewrite Pos.compare_cont_spec. cbn [Pos.switch_Eq].
      destruct (Pos.compare_spec my mx) as [E'|E'|E']; try reflexivity.
      apply Pos2Z.pos_lt_pos in E'. cbn in HAB. lia.
    + exfalso.
      pose proof (larger_exponent my mx ey ex Vy Vx E) as Hl.
      replace (ey - ez)%Z with 0%Z in * by (subst ez; lia).
      replace (ex - ez)%Z with (ex - ey)%Z in * by (subst ez; lia).
      lia.
  - (* both positive *)
    destruct (Z.compare_spec ey ex) as [E|E|E]; try reflexivity.
    + subst ey. replace (ex - ez)%Z with 0%Z in * by (subst ez; lia).
      rewrite Pos.compare_cont_spec. cbn [Pos.switch_Eq].
      destruct (Pos.compare_spec my mx) as [E'|E'|E']; try reflexivity.
      apply Pos2Z.pos_lt_pos in E'. cbn in HAB. lia.
    + exfalso.
      pose proof (larger_exponent mx my ex ey Vx Vy E) as Hl.
      replace (ex - ez)%Z with 0%Z in * by (subst ez; lia).
      replace (ey - ez)%Z with (ey - ex)%Z in * by (subst ez; lia).
      lia.
Qed.

Lemma sub_leb (x y : number) :
  is_nan x = false -> is_nan y = false ->
  (x - y <? 0)%float = false -> (y <=? x)%float = true.
Proof.
  intros Nx Ny. rewrite ltb_zero_spec, sub_spec, leb_spec.
  apply SFsub_leb; try apply Prim2SF_valid.
  - intros E. apply is_nan_spec in E. congruence.
  - intros E. apply is_nan_spec in E. congruence.
Qed.

(** The place of a number in the order: its class, then exponent and
    mantissa. *)
Lemma SFleb_trans (x y z : spec_float) :
  SFleb x y = true -> SFleb y z = true -> SFleb x z = true.
Proof.
  unfold SFleb.
  destruct x as [[]|[]| |[] mx ex], y as [[]|[]| |[] my ey],
           z as [[]|[]| |[] mz ez];
    cbn [SFcompare]; try (intros; congruence);
    rewrite ?Pos.compare_cont_spec; cbn [Pos.switch_Eq];
    repeat match goal with
           | |- context [Z.compare ?a ?b] =>
               destruct (Z.compare_spec a b)
           end;
    try (intros; congruence); try (exfalso; lia);
    repeat match goal with
           | |- context [Pos.compare ?a ?b] =>
               destruct (Pos.compare_spec a b)
           end;
    cbn [CompOpp Pos.switch_Eq]; intros; try congruence; exfalso; lia.
Qed.

Lemma leb_trans (x y z : number) :
  (x <=? y)%float = true -> (y <=? z)%float = true ->
  (x <=? z)%float = true.
Proof. rewrite !leb_spec. apply SFleb_trans. Qed.

End FloatOrder.

Section Stability.
Import JS Runtime.

(** Two numbers equal to a third have a difference that is not
    negative. *)
Lemma SFeqb_sub (x y a : spec_float) :
  SFeqb x a = true -> SFeqb y a = true ->
  Props.SFnegative (SFsub prec emax x y) = false.
Proof.
  unfold SFeqb.
  destruct x as [sx|sx| |sx mx ex], a as [sa|sa| |sa ma ea];
    try discriminate;
    destruct y as [sy|sy| |sy my ey]; try discriminate;
    try (destruct sx, sy; reflexivity);
    try (destruct sx, sa; try discriminate; destruct sy; try discriminate;
         reflexivity).
  cbn [SFcompare].
  intros Hx Hy.
  assert (E : sx = sy /\ ex = ey /\ mx = my).
  { destruct sx, sa, sy; try discriminate;
      destruct (Z.compare_spec ex ea) as [Ex|Ex|Ex]; try discriminate;
      destruct (Z.compare_spec ey ea) as [Ey|Ey|Ey]; try discriminate;
      rewrite Pos.compare_cont_spec in Hx, Hy; cbn [Pos.switch_Eq] in Hx, Hy;
      destruct (Pos.compare_spec mx ma) as [Mx|Mx|Mx]; try discriminate;
      destruct (Pos.compare_spec my ma) as [My|My|My]; try discriminate;
      subst; auto. }
  destruct E as (-> & -> & ->). unfold SFsub.
  rewrite Z.sub_diag. reflexivity.
Qed.

Lemma eqb_sub (x y a : number) :
  (x =? a)%float = true -> (y =? a)%float = true ->
  (x - y <? 0)%float = false.
Proof.
  rewrite !eqb_spec, ltb_zero_spec, sub_spec. apply SFeqb_sub.
Qed.

Section StableComparator.

Context {A : Type} (comparefn : A -> A -> number) (same : A -> bool).

(** The elements that [same] selects are equal for the comparator. *)
Hypothesis same_equal :
  forall x y, same x = true -> same y = true ->
              (comparefn y x <? 0)%float = false.

Lemma insertBy_stable (x : A) (l : list A) :
  filter same (insertBy comparefn x l) = filter same (x :: l).
Proof.
  induction l as [|y l IH]; [reflexivity|]. cbn [insertBy].
  destruct (comparefn y x <? 0)%float eqn:E; [|reflexivity].
  cbn [filter] in *. rewrite IH.
  destruct (same x) eqn:Hx, (same y) eqn:Hy; try reflexivity.
  rewrite (same_equal x y Hx Hy) in E. discriminate.
Qed.

(** The sort is stable: elements that are equal keep their order. *)
Lemma Array_sort_stable (l : list A) :
  filter same (Array_sort comparefn l) = filter same l.
Proof.
  induction l as [|x l IH]; [reflexivity|].
  cbn [Array_sort fold_right]. fold (Array_sort comparefn l).
  rewrite insertBy_stable. cbn [filter]. now rewrite IH.
Qed.

End StableComparator.

Lemma Sorted_on {A : Type} (R R' : A -> A -> Prop) (l : list A) :
  (forall a b, In a l -> In b l -> R a b -> R' a b) ->
  Sorted R l -> Sorted R' l.
Proof.
  intros H Hs. induction Hs as [|a l Hs IH Hhd]; [constructor|].
  constructor.
  - apply IH. intros x y Hx Hy. apply H; now right.
  - destruct Hhd as [|b l Hab]; constructor.
    apply H; [now left|right; now left|exact Hab].
Qed.

(** In a list in descending order every later element is at most every
    earlier one. *)
Lemma descending_app {A : Type} (value : A -> number) (l1 l2 : list A) :
  Sorted (fun a b => (value b <=? value a)%float = true) (l1 ++ l2) ->
  forall a b, In a l1 -> In b l2 -> (value b <=? value a)%float = true.
Proof.
  intros Hs. apply Sorted_StronglySorted in Hs.
  - induction l1 as [|x l1 IH]; intros a b Ha Hb; [destruct Ha|].
    cbn [app] in Hs. apply StronglySorted_inv in Hs as [Hs Hall].
    destruct Ha as [<-|Ha]; [|now apply IH].
    rewrite Forall_forall in Hall. apply Hall, in_or_app. now right.
  - intros a b c Hab Hbc. now apply (leb_trans _ (value b)).
Qed.

End Stability.

(** X17: the rows of the payment table.  No two rows have the same payment
    type; the type of a row is never the name of a property that every
    object inherits, and the count of a row is the number of entries of
    the view with that type, at least one.  The count of the Total row is
    the number of entries of the view that got a bucket: all of them when
    no type is an inherited property name, fewer otherwise. *)
Theorem X17_payment_rows_and_the_total_count
  (entries : list Summary.entry) (selectedModel : JS.jsstring) :
  let view := Summary.filteredEntries entries selectedModel in
  let r := Summary.paymentTotals (Some entries) selectedModel in
  NoDup (map Summary.type (Summary.items r))
  /\ (forall row,
         In row (Summary.items r) ->
         Summary.inherited (Summary.type row) = false
         /\ Summary.item_count row
            = List.length (Terms.bucketed view (Summary.type row))
         /\ 1 <= Summary.item_count row)
  /\ Cards.grandTotalCount r
     = List.length (filter Props.bucketable view)
  /\ ((forall entry, In entry view -> Props.bucketable entry = true) ->
      Cards.grandTotalCount r = List.length view).
Proof.
  intros view r.
  pose proof (paymentTotals_perm entries selectedModel) as Hperm.
  fold view in Hperm. fold r in Hperm.
  destruct (fold_accumulate_counts view [] zero) as [Hclear Hsum];
    [intros k []|].
  fold (Terms.loopState view) in Hclear, Hsum.
  assert (Hcount : Cards.grandTotalCount r
                   = List.length (filter Props.bucketable view)).
  { unfold Cards.grandTotalCount. rewrite fold_left_count. cbn [Nat.add].
    rewrite (list_sum_perm _ _ (Permutation_map Summary.item_count Hperm)).
    rewrite map_map. cbn [Terms.rowOf Summary.item_count].
    exact Hsum. }
  split; [|split; [|split]].
  - apply (Permutation_NoDup (l := map fst (fst (Terms.loopState view)))).
    + rewrite (Permutation_map Summary.type Hperm), map_map.
      cbn [Terms.rowOf Summary.type]. reflexivity.
    + unfold Terms.loopState. apply fold_accumulate_NoDup. constructor.
  - intros row Hrow.
    assert (Hkey : Summary.inherited (Summary.type row) = false).
    { apply Hclear.
      pose proof (Permutation_in _ (Permutation_map Summary.type Hperm)
                    (in_map Summary.type _ _ Hrow)) as H.
      rewrite map_map in H. exact H. }
    split; [exact Hkey|].
    destruct (paymentTotals_row entries selectedModel (Summary.type row) Hkey)
      as [_ H].
    destruct (H row Hrow eq_refl) as [E Hne].
    fold view in E, Hne. split.
    + rewrite E at 1. reflexivity.
    + rewrite E. cbn [Summary.item_count].
      destruct (Terms.bucketed view (Summary.type row));
        [congruence|cbn; lia].
  - exact Hcount.
  - intros Hall. rewrite Hcount. f_equal.
    clear -Hall. induction view as [|e l IH]; [reflexivity|].
    cbn. rewrite (Hall e (or_introl eq_refl)). f_equal.
    apply IH. intros x Hx. apply Hall. now right.
Qed.

(** X18: the rows of the payment table are sorted by amount.  When no row
    has the amount NaN, the rows are the buckets of the view, each once,
    with the amounts in descending order: from a row to the next the
    amount does not grow; and the sort is stable: rows of the same amount
    stand in the order in which [Object.entries] lists their buckets. *)
Theorem X18_payment_rows_are_sorted_by_amount
  (entries : list Summary.entry) (selectedModel : JS.jsstring)
  (Hnumbers :
     forall row,
       In row (Summary.items (Summary.paymentTotals (Some entries)
                               selectedModel)) ->
       JS.isNaN (Summary.item_amount row) = false) :
  let view := Summary.filteredEntries entries selectedModel in
  let r := Summary.paymentTotals (Some entries) selectedModel in
  let buckets :=
    map (Terms.rowOf (Summary.grandTotal r))
        (Summary.Object_entries (fst (Terms.loopState view))) in
  Permutation (Summary.items r) buckets
  /\ Sorted
       (fun row next =>
          (Summary.item_amount next <=? Summary.item_amount row)%float
          = true)
       (Summary.items r)
  /\ (forall a : JS.number,
         filter (fun row => (Summary.item_amount row =? a)%float)
                (Summary.items r)
         = filter (fun row => (Summary.item_amount row =? a)%float)
                  buckets).
Proof.
  intros view r buckets.
  assert (Hitems : Summary.items r
                   = Runtime.Array_sort Summary.comparefn buckets).
  { subst r buckets. rewrite paymentTotals_Some.
    cbn [Summary.items Summary.grandTotal]. apply Summary_sort_general. }
  fold r in Hnumbers. split; [|split].
  - rewrite Hitems. apply Array_sort_perm.
  - apply (Sorted_on (Props.inOrder Summary.comparefn)).
    + intros a b Ha Hb. unfold Props.inOrder, Summary.comparefn.
      apply sub_leb; now apply Hnumbers.
    + rewrite Hitems.
      apply (Array_sort_sorted Summary.comparefn Summary_comparefn_asym).
  - intros a. rewrite Hitems. apply Array_sort_stable.
    intros x y Hx Hy. unfold Summary.comparefn. now apply (eqb_sub _ _ a).
Qed.

Lemma X18_witness :
  let entries :=
    [{| Summary.paymentType := JS.JStr (JS.lit "SM");
        Summary.amount := JS.JStr (JS.lit "5.5") |};
     {| Summary.paymentType := JS.JStr (JS.lit "BDO");
        Summary.amount := JS.JNum 10%float |};
     {| Summary.paymentType := JS.JStr (JS.lit "LBC");
        Summary.amount := JS.JStr (JS.lit "5.50") |}] in
  map Summary.type
      (Summary.items (Summary.paymentTotals (Some entries) (JS.lit "All")))
  = [JS.lit "BDO"; JS.lit "SM"; JS.lit "LBC"]
  /\ Sorted
       (fun row next =>
          (Summary.item_amount next <=? Summary.item_amount row)%float
          = true)
       (Summary.items (Summary.paymentTotals (Some entries) (JS.lit "All"))).
Proof.
  cbv zeta. split; [vm_compute; reflexivity|].
  refine (proj1 (proj2 (X18_payment_rows_are_sorted_by_amount _ _ _))).
  intros row Hrow. vm_compute in Hrow.
  destruct Hrow as [<-|[<-|[<-|[]]]]; vm_compute; reflexivity.
Defined.

(** X19: a summary card shows the first five entries of its data sorted by
    value.  Without data the card is empty.  When no value of the data is
    NaN, the card shows at most five entries, all of them when the data
    has no more; what is shown, followed by what is left out, is an
    arrangement of the entries of the data with the values in descending
    order, in which entries of the same value stand in the order in which
    [Object.entries] lists them; so no entry that is left out has a value
    above that of an entry that is shown. *)
Theorem X19_card_shows_the_first_five_of_the_sorted_entries
  (data : Runtime.props JS.number)
  (Hnumbers : forall kv, In kv data -> JS.isNaN (snd kv) = false) :
  let shown := Cards.sortedData (Some data) in
  Cards.sortedData None = []
  /\ List.length shown = Nat.min 5 (List.length data)
  /\ (forall kv, In kv shown -> In kv data)
  /\ exists rest,
       Permutation (shown ++ rest) data
       /\ Sorted
            (fun entry next => (snd next <=? snd entry)%float = true)
            (shown ++ rest)
       /\ (forall a : JS.number,
              filter (fun entry => (snd entry =? a)%float) (shown ++ rest)
              = filter (fun entry => (snd entry =? a)%float)
                       (Runtime.Object_entries data))
       /\ (forall entry out,
              In entry shown -> In out rest ->
              (snd out <=? snd entry)%float = true).
Proof.
  intros shown. subst shown. unfold Cards.sortedData.
  set (cmp := fun a b : JS.jsstring * JS.number => (snd b - snd a)%float).
  set (sorted := Runtime.Array_sort cmp (Runtime.Object_entries data)).
  assert (Hperm : Permutation sorted data).
  { subst sorted. rewrite Array_sort_perm. apply Object_entries_perm. }
  assert (Hnum : forall kv, In kv sorted -> JS.isNaN (snd kv) = false).
  { intros kv Hkv. apply Hnumbers. now apply (Permutation_in _ Hperm). }
  assert (Hsorted : Sorted
                      (fun entry next => (snd next <=? snd entry)%float = true)
                      sorted).
  { apply (Sorted_on (Props.inOrder cmp)).
    - intros a b Ha Hb. unfold Props.inOrder, cmp.
      apply sub_leb; now apply Hnum.
    - apply Array_sort_sorted. intros a b. apply sub_asym. }
  rewrite !slice_nonneg by lia.
  change (Z.to_nat (5 - 0)) with 5. change (Z.to_nat 0) with 0.
  cbn [skipn].
  split; [reflexivity|]. split; [|split].
  - rewrite length_firstn. f_equal. exact (Permutation_length Hperm).
  - intros kv Hkv. apply (Permutation_in _ Hperm).
    rewrite <- (firstn_skipn 5 sorted). apply in_or_app. now left.
  - exists (skipn 5 sorted). rewrite firstn_skipn.
    split; [exact Hperm|]. split; [exact Hsorted|]. split.
    + intros a. subst sorted. apply Array_sort_stable.
      intros x y Hx Hy. unfold cmp. now apply (eqb_sub _ _ a).
    + apply (descending_app snd). rewrite firstn_skipn. exact Hsorted.
Qed.

Lemma X19_witness :
  let data :=
    [(JS.lit "0917", 3%float); (JS.lit "0918", 12%float);
     (JS.lit "0919", 3%float); (JS.lit "0920", 7%float);
     (JS.lit "0921", 1%float); (JS.lit "0922", 9%float)] in
  map fst (Cards.sortedData (Some data))
  = [JS.lit "0918"; JS.lit "0922"; JS.lit "0920"; JS.lit "0917";
     JS.lit "0919"]
  /\ List.length (Cards.sortedData (Some data)) = 5.
Proof.
  cbv zeta. split; [vm_compute; reflexivity|].
  refine (proj1 (proj2
            (X19_card_shows_the_first_five_of_the_sorted_entries _ _))).
  intros kv Hkv.
  destruct Hkv as [<-|[<-|[<-|[<-|[<-|[<-|[]]]]]]]; vm_compute; reflexivity.
Defined.

Section AmountCells.
Import JS.

Lemma not_infinity_cases (x : number) :
  is_infinity x = false ->
  ToBoolean (JNum x) = false \/ is_finite x = true.
Proof.
  intros Hi. cbn [ToBoolean]. unfold is_finite. rewrite Hi, orb_false_r.
  destruct (is_nan x); [left|right]; [|reflexivity].
  now rewrite orb_true_r.
Qed.

End AmountCells.

(** X20: the amount cells of the payment table.  An amount that is not
    infinite is shown with exactly two decimal places, in the rows and in
    the Total row; an amount that is zero or NaN is shown as the zero
    amount. *)
Theorem X20_amount_cells_show_two_decimals :
  (forall row,
      is_infinity (Summary.item_amount row) = false ->
      Terms.decimalPlaces (Cards.amountCell row) = 2)
  /\ (forall r,
         is_infinity (Summary.grandTotal r) = false ->
         Terms.decimalPlaces (Cards.grandTotalAmountCell r) = 2)
  /\ (forall x,
         is_zero x = true \/ is_nan x = true ->
         Summary.formatAmount (JS.JNum x) = Summary.zeroString).
Proof.
  assert (H : forall x,
             is_infinity x = false ->
             Terms.decimalPlaces (Summary.formatAmount (JS.JNum x)) = 2).
  { intros x Hx. destruct (not_infinity_cases x Hx) as [Hf|Hf].
    - now rewrite (Summary_formatAmount_falsy _ Hf).
    - unfold Summary.formatAmount, Summary.formatAmount_try.
      destruct (negb (JS.ToBoolean (JS.JNum x))); [reflexivity|].
      destruct (NumberFormat_places JS.StyleCurrencyPHP x 2 Hf ltac:(lia))
        as (out & -> & Hout).
      exact (Hout []). }
  split; [|split].
  - intros row. apply H.
  - intros r. apply H.
  - intros x Hx. apply Summary_formatAmount_falsy. cbn [JS.ToBoolean].
    destruct Hx as [-> | ->]; [reflexivity|now rewrite orb_true_r].
Qed.

(* ================================================================== *)
(** * The badges of the payment types                                   *)
(* ================================================================== *)

Section Badges.
Import JS Runtime.

Lemma replace_Class_char (cls : N -> bool) (by_ : N) (s : jsstring) :
  forall prev,
    replaceFrom [Class cls] [by_] prev s 0
    = map (fun c => if cls c then by_ else c) s.
Proof.
  induction s as [|c s IH]; intros prev; [reflexivity|].
  cbn [replaceFrom map]. rewrite matchFrom_Class. cbn [matchFrom].
  destruct (cls c); cbn; rewrite IH; reflexivity.
Qed.

Lemma badgeClass_map (toLowerCase : jsstring -> jsstring) (type : jsstring) :
  Cards.badgeClass toLowerCase type
  = map (fun c => if in_range 97 122 c || in_range 48 57 c then c else 45%N)
      (toLowerCase type).
Proof.
  unfold Cards.badgeClass, String_replace, Cards.notLowerAlnum.
  change (lit "-") with [45%N]. rewrite replace_Class_char.
  apply map_ext. intros c.
  destruct (in_range 97 122 c || in_range 48 57 c); reflexivity.
Qed.

End Badges.

(** X21: the class of the badge of a payment type has one character for
    each code unit of the lower-cased type and is made of lower-case ASCII
    letters, digits and hyphens only, whatever the type; [toLowerCase]
    lowering ASCII letters, the sixteen payment models get the classes
    [all], [bayad-center], ... [bdo-new], [unknown], no two the same. *)
Theorem X21_badge_classes (toLowerCase : JS.jsstring -> JS.jsstring) :
  (forall type,
      List.length (Cards.badgeClass toLowerCase type)
      = List.length (toLowerCase type)
      /\ forallb Props.badgeChar (Cards.badgeClass toLowerCase type) = true)
  /\ (Props.lowersASCII toLowerCase ->
      map (Cards.badgeClass toLowerCase) Summary.PAYMENT_MODELS
      = map JS.lit
          ["all"; "bayad-center"; "bancnet"; "bdo"; "ecpay"; "sm"; "eprime";
           "lbc"; "metrobank"; "cebuana"; "primetap"; "alleasy"; "pnb";
           "unionbank"; "bdo-new"; "unknown"]%string
      /\ NoDup (map (Cards.badgeClass toLowerCase) Summary.PAYMENT_MODELS)).
Proof.
  split.
  - intros type. rewrite badgeClass_map, length_map. split; [reflexivity|].
    induction (toLowerCase type) as [|c s IH]; [reflexivity|].
    cbn [map forallb]. rewrite IH, andb_true_r.
    unfold Props.badgeChar.
    destruct (JS.in_range 97 122 c || JS.in_range 48 57 c) eqn:E.
    + now rewrite E.
    + rewrite orb_true_iff. right. reflexivity.
  - intros Hlower.
    assert (E : map (Cards.badgeClass toLowerCase) Summary.PAYMENT_MODELS
                = map (Cards.badgeClass (map Props.asciiLower))
                    Summary.PAYMENT_MODELS).
    { apply map_ext_in. intros type Hin.
      rewrite !badgeClass_map. f_equal. apply Hlower.
      revert type Hin. apply Forall_forall.
      repeat constructor. }
    rewrite E. split; [vm_compute; reflexivity|].
    vm_compute.
    repeat (constructor; [cbn [In]; intuition discriminate|]).
    constructor.
Qed.

(* ================================================================== *)
(** * The name of the report                                            *)
(* ================================================================== *)

Section ReportName.
Import JS Runtime.

Lemma split_nonempty (s : jsstring) (c : N) : String_split s c <> [].
Proof.
  destruct s as [|x s]; cbn; [discriminate|].
  destruct (x =? c)%N; [discriminate|].
  destruct (String_split s c); discriminate.
Qed.

Lemma split_absent (s : jsstring) (c : N) :
  String_includes s c = false -> String_split s c = [s].
Proof.
  unfold String_includes.
  induction s as [|x s IH]; cbn [existsb String_split]; [reflexivity|].
  intros H. apply orb_false_iff in H as [Hx Hs].
  unfold is_char in Hx. rewrite N.eqb_sym in Hx. rewrite Hx, (IH Hs).
  reflexivity.
Qed.

(** The pieces of a text cut at a separator are the pieces of what is
    before it, then the pieces of what is after it. *)
Lemma split_app (a b : jsstring) (c : N) :
  String_split (a ++ c :: b) c = String_split a c ++ String_split b c.
Proof.
  induction a as [|x a IH]; cbn [app String_split].
  - now rewrite N.eqb_refl.
  - destruct (x =? c)%N; [now rewrite IH|].
    rewrite IH. pose proof (split_nonempty a c) as Hne.
    destruct (String_split a c); [congruence|reflexivity].
Qed.

(** Joining the pieces gives the text back. *)
Lemma join_split (s : jsstring) (c : N) :
  Array_join (String_split s c) [c] = s.
Proof.
  induction s as [|x s IH]; cbn [String_split]; [reflexivity|].
  pose proof (split_nonempty s c) as Hne.
  destruct (x =? c)%N eqn:E.
  - apply N.eqb_eq in E. subst x.
    destruct (String_split s c) as [|p ps]; [congruence|].
    change (Array_join ([] :: p :: ps) [c])
      with ([] ++ [c] ++ Array_join (p :: ps) [c]).
    now rewrite IH.
  - destruct (String_split s c) as [|p ps]; [congruence|].
    rewrite <- IH. destruct ps; reflexivity.
Qed.

(** [slice(0, -1)]: all but the last element. *)
Lemma slice_all_but_last {A : Type} (l : list A) :
  slice l 0 (-1) = removelast l.
Proof.
  unfold slice, relativeIndex. cbn [Z.ltb Z.compare].
  rewrite Z.min_l by lia. cbn [Z.to_nat skipn].
  rewrite removelast_firstn_len. f_equal. lia.
Qed.

Lemma originalFileName_Some (name : jsstring) :
  name <> [] -> AppView.originalFileName (Some name) = name.
Proof. destruct name; [congruence|reflexivity]. Qed.

(** ** The header *)

Lemma splitFrom_nonempty (sep s : jsstring) (skip : nat) :
  splitFrom sep s skip <> [].
Proof.
  revert skip. induction s as [|c s IH]; intros skip; cbn; [discriminate|].
  destruct skip; [|apply IH].
  destruct (stripPrefix sep (c :: s)); [discriminate|].
  destruct (splitFrom sep s 0); discriminate.
Qed.

Lemma splitFrom_absent (sep s : jsstring) :
  String_includes_string s sep = false -> splitFrom sep s 0 = [s].
Proof.
  induction s as [|c s IH]; cbn [String_includes_string splitFrom];
    [reflexivity|].
  destruct (stripPrefix sep (c :: s)); [discriminate|].
  intros H. now rewrite (IH H).
Qed.

End ReportName.

(** X22: the base name of the report is the name of the uploaded file
    without its last extension: for a name [stem.ext], where [ext] has no
    point, it is [stem], whatever points [stem] has.  A name without any
    point has an empty base name, and so has the default name [report]
    that stands in when no file name is known. *)
Theorem X22_base_file_name_drops_the_last_extension :
  (forall stem ext : JS.jsstring,
      JS.String_includes ext JS.c_dot = false ->
      AppView.baseFileName (Some (stem ++ JS.c_dot :: ext)) = stem)
  /\ (forall name : JS.jsstring,
         JS.String_includes name JS.c_dot = false ->
         AppView.baseFileName (Some name) = [])
  /\ AppView.baseFileName None = []
  /\ AppView.baseFileName (Some []) = [].
Proof.
  split; [|split; [|split; reflexivity]].
  - intros stem ext Hext. unfold AppView.baseFileName.
    rewrite originalFileName_Some by (destruct stem; discriminate).
    rewrite slice_all_but_last, split_app, (split_absent ext _ Hext).
    rewrite removelast_last. apply join_split.
  - intros name Hname. unfold AppView.baseFileName.
    destruct name as [|c name]; [reflexivity|].
    rewrite originalFileName_Some by discriminate.
    rewrite slice_all_but_last, (split_absent _ _ Hname). reflexivity.
Qed.

Section Header.
Import JS Runtime.

Lemma replace_Chr_empty (c0 : N) (s : jsstring) :
  String_replace s [Chr c0] [] = filter (fun c => negb (is_char c0 c)) s.
Proof. unfold String_replace. apply (replace_Class_empty (is_char c0)). Qed.

Lemma filter_excludes (c0 : N) (s : jsstring) :
  String_includes (filter (fun c => negb (is_char c0 c)) s) c0 = false.
Proof.
  unfold String_includes. induction s as [|c s IH]; [reflexivity|].
  cbn [filter]. destruct (is_char c0 c) eqn:E; cbn [negb existsb].
  - exact IH.
  - now rewrite E, IH.
Qed.

(** The separator [filename=] begins with the letter [f]. *)
Lemma splitFrom_header (pre name : jsstring) :
  String_includes pre 102 = false ->
  splitFrom (lit "filename=") (pre ++ lit "filename=" ++ name) 0
  = pre :: splitFrom (lit "filename=") name 0.
Proof.
  unfold String_includes.
  induction pre as [|x pre IH]; cbn [existsb app].
  - intros _.
    change (lit "filename=" ++ name)
      with (102%N :: lit "ilename=" ++ name).
    cbn [splitFrom].
    replace (stripPrefix (lit "filename=") (102%N :: lit "ilename=" ++ name))
      with (Some name) by reflexivity.
    f_equal.
  - intros H. apply orb_false_iff in H as [Hx Hpre].
    cbn [splitFrom].
    replace (stripPrefix (lit "filename=")
               (x :: pre ++ lit "filename=" ++ name))
      with (@None jsstring).
    + now rewrite (IH Hpre).
    + change (lit "filename=") with (102%N :: lit "ilename=").
      cbn [stripPrefix]. unfold is_char in Hx. now rewrite Hx.
Qed.

End Header.

(** X23: the name the report is saved under.  With a response header that
    has [filename=] once, after some text without the letter [f] (as in
    [attachment; filename=...]), the name is what follows it, without its
    double quotes; a name taken from a header never has a double quote.  A
    header that is present but has no [filename=] makes the computation of
    the name fail with a TypeError.  Without a header, or with an empty
    one, the name is the base name, an underscore, the first 19 characters
    of the time stamp without their colons, and [.zip]. *)
Theorem X23_report_file_name
  (baseFileName toISOString : JS.jsstring) :
  (forall pre name : JS.jsstring,
      JS.String_includes pre 102 = false ->
      Runtime.String_includes_string name (JS.lit "filename=") = false ->
      AppView.filename (Some (pre ++ JS.lit "filename=" ++ name))
        baseFileName toISOString
      = JS.Normal (filter (fun c => negb (JS.is_char AppView.c_quote c)) name))
  /\ (forall header name : JS.jsstring,
         header <> [] ->
         AppView.filename (Some header) baseFileName toISOString
         = JS.Normal name ->
         JS.String_includes name AppView.c_quote = false)
  /\ (forall header : JS.jsstring,
         header <> [] ->
         Runtime.String_includes_string header (JS.lit "filename=") = false ->
         AppView.filename (Some header) baseFileName toISOString
         = JS.Throw JS.TypeError)
  /\ AppView.filename None baseFileName toISOString
     = JS.Normal
         (baseFileName ++ JS.lit "_"
          ++ filter (fun c => negb (JS.is_char AppView.c_colon c))
               (firstn 19 toISOString)
          ++ JS.lit ".zip")
  /\ AppView.filename (Some []) baseFileName toISOString
     = AppView.filename None baseFileName toISOString.
Proof.
  split; [|split; [|split; [|split]]].
  - intros pre name Hpre Hname. unfold AppView.filename.
    destruct (pre ++ JS.lit "filename=" ++ name) as [|c header] eqn:E.
    { destruct pre; discriminate. }
    rewrite <- E. unfold Runtime.String_split_string.
    change (JS.lit "filename=") with (102%N :: JS.lit "ilename=") at 1.
    cbv iota. rewrite splitFrom_header by assumption.
    rewrite (splitFrom_absent _ _ Hname). cbn [nth_error].
    now rewrite replace_Chr_empty.
  - intros header name Hne. unfold AppView.filename.
    destruct header as [|c header]; [congruence|].
    destruct (nth_error _ 1) as [piece|]; [|discriminate].
    intros [= <-]. rewrite replace_Chr_empty. apply filter_excludes.
  - intros header Hne Hno. unfold AppView.filename.
    destruct header as [|c header]; [congruence|].
    unfold Runtime.String_split_string.
    change (JS.lit "filename=") with (102%N :: JS.lit "ilename=") at 1.
    cbv iota. now rewrite (splitFrom_absent _ _ Hno).
  - unfold AppView.filename. do 3 f_equal.
    unfold JS.String_replace.
    rewrite (replace_Class_empty (JS.is_char AppView.c_colon)).
    rewrite slice_nonneg by lia. reflexivity.
  - reflexivity.
Qed.

(* ================================================================== *)
(** * The validation of an uploaded file                                *)
(* ================================================================== *)

Section Upload.
Import JS Runtime.

Lemma lastIndexFrom_absent (s : jsstring) (c : N) :
  String_includes s c = false ->
  forall i found, lastIndexFrom i s c found = found.
Proof.
  unfold String_includes.
  induction s as [|x s IH]; cbn [existsb lastIndexFrom]; [reflexivity|].
  intros H i found. apply orb_false_iff in H as [Hx Hs].
  unfold is_char in Hx. rewrite N.eqb_sym in Hx. rewrite Hx. now apply IH.
Qed.

Lemma lastIndexFrom_last (stem ext : jsstring) (c : N) :
  String_includes ext c = false ->
  forall i found,
    lastIndexFrom i (stem ++ c :: ext) c found
    = (i + Z.of_nat (List.length stem))%Z.
Proof.
  intros Hext. induction stem as [|x stem IH]; intros i found.
  - cbn [app lastIndexFrom List.length]. rewrite N.eqb_refl.
    rewrite (lastIndexFrom_absent ext c Hext). cbn. lia.
  - cbn [app lastIndexFrom]. rewrite IH. cbn [List.length]. lia.
Qed.

(** The type that is checked, for a file without a MIME type. *)
Lemma fileType_of_name (f : FileUpload.file) :
  FileUpload.type f = [] ->
  (forall stem ext,
      FileUpload.name f = stem ++ c_dot :: ext ->
      String_includes ext c_dot = false ->
      FileUpload.fileType f = c_dot :: ext)
  /\ (String_includes (FileUpload.name f) c_dot = false ->
      FileUpload.fileType f = FileUpload.name f).
Proof.
  intros Htype. unfold FileUpload.fileType. rewrite Htype. split.
  - intros stem ext -> Hext.
    unfold String_lastIndexOf.
    rewrite (lastIndexFrom_last stem ext c_dot Hext).
    unfold String_substring. rewrite length_app. cbn [List.length].
    replace (Z.to_nat _) with (List.length stem + 0) by lia.
    rewrite skipn_app, skipn_all2 by lia.
    replace (List.length stem + 0 - List.length stem) with 0 by lia.
    reflexivity.
  - intros Hname. unfold String_lastIndexOf.
    rewrite (lastIndexFrom_absent _ _ Hname).
    unfold String_substring. rewrite Z.min_l by lia. reflexivity.
Qed.

Lemma validTypes_ASCII :
  forallb Props.isASCII FileUpload.validTypes = true.
Proof. reflexivity. Qed.

End Upload.

(** X24: the outcomes of [validateFile].  Without a file it throws
    [No file selected]; with one it never returns [false]: it returns
    [true] exactly when the lower-cased type of the file contains one of
    the four accepted types, lower-cased, and the size is at most 10 MB,
    and otherwise throws, the message about the type first.  A handler
    passes to [onFileUpload] only a file that [validateFile] accepts. *)
Theorem X24_validateFile_outcomes
  (toLowerCase : JS.jsstring -> JS.jsstring) :
  let accepted f :=
    exists type,
      In type FileUpload.validTypes
      /\ Props.infix (toLowerCase type)
           (toLowerCase (FileUpload.fileType f)) in
  FileUpload.validateFile toLowerCase None
  = Runtime.Throws (JS.lit "No file selected")
  /\ (forall f,
         FileUpload.validateFile toLowerCase (Some f) = Runtime.Returns true
         <-> accepted f /\ (FileUpload.size f <= 10485760)%Z)
  /\ (forall f,
         ~ accepted f ->
         FileUpload.validateFile toLowerCase (Some f)
         = Runtime.Throws (JS.lit "Please upload a .txt or .csv file"))
  /\ (forall f,
         accepted f -> (10485760 < FileUpload.size f)%Z ->
         FileUpload.validateFile toLowerCase (Some f)
         = Runtime.Throws (JS.lit "File size must be less than 10MB"))
  /\ (forall files f,
         In (FileUpload.OnFileUpload f)
            (FileUpload.handleFileChange toLowerCase files)
         \/ In (FileUpload.OnFileUpload f)
               (FileUpload.handleDrop toLowerCase files) ->
         hd_error files = Some f
         /\ FileUpload.validateFile toLowerCase (Some f)
            = Runtime.Returns true).
Proof.
  intros accepted.
  assert (Hacc : forall f,
             existsb
               (fun type =>
                  Runtime.String_includes_string
                    (toLowerCase (FileUpload.fileType f)) (toLowerCase type))
               FileUpload.validTypes = true
             <-> accepted f).
  { intros f. subst accepted. cbv beta. rewrite existsb_exists.
    split; intros (type & Hin & H); exists type; (split; [exact Hin|]);
      now apply includes_spec. }
  assert (Hvalid : forall f,
             FileUpload.validateFile toLowerCase (Some f) = Runtime.Returns true
             <-> accepted f /\ (FileUpload.size f <= 10485760)%Z).
  { intros f. unfold FileUpload.validateFile. rewrite <- Hacc.
    destruct (existsb _ FileUpload.validTypes); cbn [negb].
    - unfold FileUpload.maxSize.
      destruct (Z.ltb_spec (10 * 1024 * 1024) (FileUpload.size f)).
      + split; [discriminate|]. intros [_ H']. lia.
      + split; [|reflexivity]. intros _. split; [reflexivity|lia].
    - split; [discriminate|]. intros [H' _]. discriminate. }
  split; [reflexivity|]. split; [exact Hvalid|]. split; [|split].
  - intros f Hno. unfold FileUpload.validateFile.
    destruct (existsb _ FileUpload.validTypes) eqn:E; [|reflexivity].
    destruct Hno. now apply Hacc.
  - intros f Hyes Hsize. unfold FileUpload.validateFile.
    apply Hacc in Hyes. rewrite Hyes. cbn [negb].
    unfold FileUpload.maxSize.
    destruct (Z.ltb_spec (10 * 1024 * 1024) (FileUpload.size f));
      [reflexivity|lia].
  - intros files f.
    unfold FileUpload.handleFileChange, FileUpload.handleDrop.
    assert (H : In (FileUpload.OnFileUpload f)
                   (FileUpload.tryUpload toLowerCase files) ->
                hd_error files = Some f
                /\ FileUpload.validateFile toLowerCase (Some f)
                   = Runtime.Returns true).
    { unfold FileUpload.tryUpload.
      destruct (hd_error files) as [f0|] eqn:Ef; [|intros [[=]|[]]].
      destruct (FileUpload.validateFile toLowerCase (Some f0)) as [ok|msg]
        eqn:Ev.
      - destruct ok; [|intros []].
        intros [[= ->]|[]]. split; [reflexivity|exact Ev].
      - intros [[=]|[]]. }
    rewrite in_app_iff. intros [[Hin|[[=]|[]]]|Hin]; now apply H.
Qed.

Section UploadNames.
Import JS Runtime.

Lemma asciiLower_point (c : N) :
  (Props.asciiLower c =? c_dot)%N = (c =? c_dot)%N.
Proof.
  unfold Props.asciiLower, in_range, c_dot.
  destruct (N.leb_spec 65 c); cbn [andb]; [|reflexivity].
  destruct (N.leb_spec c 90); [|reflexivity].
  destruct (N.eqb_spec (c + 32) 46), (N.eqb_spec c 46); try reflexivity; lia.
Qed.

Lemma lowered_without_point (s : jsstring) :
  String_includes (map Props.asciiLower s) c_dot = false ->
  String_includes s c_dot = false.
Proof.
  unfold String_includes.
  induction s as [|c s IH]; cbn [map existsb]; [reflexivity|].
  intros H. apply orb_false_iff in H as [Hc Hs].
  unfold is_char in *. rewrite N.eqb_sym, asciiLower_point in Hc.
  rewrite N.eqb_sym, Hc. now apply IH.
Qed.

Lemma includes_self (s : jsstring) : String_includes_string s s = true.
Proof.
  apply includes_spec. exists [], []. now rewrite app_nil_r.
Qed.

End UploadNames.

(** X25: the type that [validateFile] checks.  A file with a MIME type is
    judged by that type alone, whatever its name.  Without a MIME type the
    type is the name from its last point on, or the whole name when it has
    no point; so, [toLowerCase] lowering ASCII letters, a file without MIME
    type, of at most 10 MB, whose name ends in [.txt] or [.csv] in any
    letter case, is accepted. *)
Theorem X25_file_type_comes_from_the_name_without_a_MIME_type
  (toLowerCase : JS.jsstring -> JS.jsstring)
  (Hlower : Props.lowersASCII toLowerCase)
  (f : FileUpload.file) :
  (FileUpload.type f <> [] -> FileUpload.fileType f = FileUpload.type f)
  /\ (FileUpload.type f = [] ->
      forall stem ext,
        FileUpload.name f = stem ++ JS.c_dot :: ext ->
        JS.String_includes ext JS.c_dot = false ->
        FileUpload.fileType f = JS.c_dot :: ext)
  /\ (FileUpload.type f = [] ->
      JS.String_includes (FileUpload.name f) JS.c_dot = false ->
      FileUpload.fileType f = FileUpload.name f)
  /\ (FileUpload.type f = [] ->
      forall stem ext,
        FileUpload.name f = stem ++ JS.c_dot :: ext ->
        Props.isASCII ext = true ->
        map Props.asciiLower ext = JS.lit "txt"
        \/ map Props.asciiLower ext = JS.lit "csv" ->
        (FileUpload.size f <= 10485760)%Z ->
        FileUpload.validateFile toLowerCase (Some f) = Runtime.Returns true).
Proof.
  split; [|split; [|split]].
  - unfold FileUpload.fileType. destruct (FileUpload.type f); congruence.
  - intros Htype. apply (fileType_of_name f Htype).
  - intros Htype. apply (fileType_of_name f Htype).
  - intros Htype stem ext Hname Hascii Hext Hsize.
    assert (Hpoint : JS.String_includes ext JS.c_dot = false).
    { apply lowered_without_point. destruct Hext as [-> | ->]; reflexivity. }
    destruct (fileType_of_name f Htype) as [Hft _].
    specialize (Hft stem ext Hname Hpoint).
    unfold FileUpload.validateFile. rewrite Hft.
    rewrite (Hlower (JS.c_dot :: ext)) by exact Hascii.
    unfold FileUpload.maxSize.
    replace (10 * 1024 * 1024 <? FileUpload.size f)%Z with false
      by (symmetry; apply Z.ltb_ge; lia).
    cbn [map]. change (Props.asciiLower JS.c_dot) with JS.c_dot.
    unfold FileUpload.validTypes. cbn [map existsb].
    rewrite (Hlower (JS.lit ".txt") eq_refl), (Hlower (JS.lit ".csv") eq_refl).
    destruct Hext as [-> | ->].
    + change (map Props.asciiLower (JS.lit ".txt")) with (JS.lit ".txt").
      change (JS.c_dot :: JS.lit "txt") with (JS.lit ".txt").
      rewrite includes_self. reflexivity.
    + change (map Props.asciiLower (JS.lit ".csv")) with (JS.lit ".csv").
      change (JS.c_dot :: JS.lit "csv") with (JS.lit ".csv").
      rewrite includes_self, orb_true_r. reflexivity.
Qed.

Lemma X25_witness :
  FileUpload.validateFile (map Props.asciiLower)
    (Some {| FileUpload.type := [];
             FileUpload.name := JS.lit "Batch.2024.TXT";
             FileUpload.size := 2048 |})
  = Runtime.Returns true.
Proof.
  refine (proj2 (proj2 (proj2
            (X25_file_type_comes_from_the_name_without_a_MIME_type
               (map Props.asciiLower) _
               {| FileUpload.type := [];
                  FileUpload.name := JS.lit "Batch.2024.TXT";
                  FileUpload.size := 2048 |})))
            eq_refl (JS.lit "Batch.2024") (JS.lit "TXT") eq_refl eq_refl
            (or_introl eq_refl) _).
  - intros s _. reflexivity.
  - cbn. lia.
Defined.

(* ================================================================== *)
(** * Amounts of the table and amounts of the total                     *)
(* ================================================================== *)

Section TwoAmountTests.
Import JS.

Lemma tokenLength_long_fraction (prev : option N) (ip fp : jsstring) :
  forallb isDigit ip = true -> forallb isDigit fp = true ->
  4 < List.length fp ->
  Terms.tokenLength prev (ip ++ c_dot :: fp) = None.
Proof.
  intros Hip Hfp Hlen. unfold Terms.tokenLength.
  destruct (isWordOpt prev); [reflexivity|].
  rewrite (span_run isDigit ip (c_dot :: fp)) by (assumption || reflexivity).
  destruct ip as [|d ip]; [reflexivity|].
  rewrite N.eqb_refl.
  rewrite <- (app_nil_r fp) at 1.
  rewrite (span_run isDigit fp []) by (assumption || exact I).
  replace (List.length fp <=? 4) with false
    by (symmetry; apply Nat.leb_gt; lia).
  now rewrite andb_false_r.
Qed.

Lemma long_fraction_no_token (ip fp : jsstring) :
  forallb isDigit ip = true -> forallb isDigit fp = true ->
  4 < List.length fp ->
  forall prev, matchesFrom App.amountRegex prev (ip ++ c_dot :: fp) 0 = [].
Proof.
  intros Hip Hfp Hlen. induction ip as [|d ip IH]; intros prev.
  - cbn [app]. rewrite matchesFrom_amount_skip
      by (apply (tokenLength_long_fraction prev [] fp); auto).
    apply Scan_matchesFrom, no_point_Scan, digits_no_point, Hfp.
  - cbn in Hip. apply andb_true_iff in Hip as [Hd Hip'].
    cbn [app]. rewrite matchesFrom_amount_skip.
    + now apply IH.
    + apply (tokenLength_long_fraction prev (d :: ip) fp); auto.
      cbn. now rewrite Hd.
Qed.

Lemma whole_token (ip fp : jsstring) :
  ip <> [] -> fp <> [] ->
  forallb isDigit ip = true -> forallb isDigit fp = true ->
  List.length fp <= 4 ->
  App.amountTokens (ip ++ c_dot :: fp) = [ip ++ c_dot :: fp].
Proof.
  intros Hip0 Hfp0 Hip Hfp Hlen. apply amountTokens_Scan.
  rewrite <- (app_nil_r (ip ++ c_dot :: fp)) at 1.
  apply Terms.Scan_token; [|apply Terms.Scan_end].
  exists []. split; [reflexivity|]. split; [|split; reflexivity].
  exists ip, fp. repeat split; try assumption.
  destruct fp; [congruence|cbn; lia].
Qed.

End TwoAmountTests.

(** X26: the two amount tests agree up to four decimals.  A text made of
    digits, a point and digits is an amount for [isAmount]; for
    [calculateTotalAmount] the whole of it is one amount when it has at
    most four fraction digits, and it holds no amount at all when it has
    more. *)
Theorem X26_table_amounts_and_total_amounts_agree_up_to_four_decimals
  (ip fp : JS.jsstring)
  (Hip0 : ip <> []) (Hfp0 : fp <> [])
  (Hip : forallb JS.isDigit ip = true) (Hfp : forallb JS.isDigit fp = true) :
  DataTable.isAmount (JS.JStr (ip ++ JS.c_dot :: fp)) = true
  /\ (List.length fp <= 4 ->
      App.amountTokens (ip ++ JS.c_dot :: fp) = [ip ++ JS.c_dot :: fp])
  /\ (4 < List.length fp ->
      App.amountTokens (ip ++ JS.c_dot :: fp) = []
      /\ App.extractAmounts (ip ++ JS.c_dot :: fp) = []).
Proof.
  split; [|split].
  - rewrite isAmount_decimalShape. cbn [JS.ToString].
    rewrite stripped_amount_string by assumption.
    apply decimalShape_spec. exists ip, fp. repeat split; assumption.
  - intros Hlen. now apply whole_token.
  - intros Hlen.
    assert (H : App.amountTokens (ip ++ JS.c_dot :: fp) = []).
    { rewrite amountTokens_matchesFrom. now apply long_fraction_no_token. }
    split; [exact H|]. unfold App.extractAmounts. now rewrite H.
Qed.

Lemma X26_witness :
  DataTable.isAmount (JS.JStr (JS.lit "12" ++ JS.c_dot :: JS.lit "34567"))
  = true
  /\ App.extractAmounts (JS.lit "12" ++ JS.c_dot :: JS.lit "34567") = [].
Proof.
  destruct (X26_table_amounts_and_total_amounts_agree_up_to_four_decimals
              (JS.lit "12") (JS.lit "34567")) as (H1 & _ & H3);
    try discriminate; try reflexivity.
  split; [exact H1|]. apply H3. cbn. lia.
Defined.

(* ================================================================== *)
(** * The page controls                                                 *)
(* ================================================================== *)

Section PageControls.
Import JS Runtime.

Variable toLowerCase : jsstring -> jsstring.
Variable data : list Table.row.

(** What every reachable state satisfies. *)
Lemma handle_invariant (st : Table.state) (e : Table.event) :
  (1 <= Table.currentPage st)%Z ->
  (Table.currentPage st = 1
   \/ Table.currentPage st
      <= Table.totalPages (Table.shownRows toLowerCase data st))%Z ->
  let st' := Table.handle toLowerCase data st e in
  (1 <= Table.currentPage st')%Z
  /\ (Table.currentPage st' = 1
      \/ Table.currentPage st'
         <= Table.totalPages (Table.shownRows toLowerCase data st'))%Z.
Proof.
  intros H1 H2. destruct e as [b|value]; cbn [Table.handle].
  - set (tp := Table.totalPages (Table.shownRows toLowerCase data st)) in *.
    destruct (1 <? tp)%Z eqn:Htp; cbn [andb]; [|now split].
    apply Z.ltb_lt in Htp.
    destruct (Table.disabled b (Table.currentPage st) tp) eqn:Hd;
      cbn [negb]; [now split|].
    unfold Table.shownRows. cbn [Table.currentPage Table.searchTerm].
    fold (Table.shownRows toLowerCase data st). fold tp.
    destruct b; cbn [Table.disabled Table.clicked] in *;
      apply Z.eqb_neq in Hd; lia.
  - cbn [Table.currentPage]. split; [lia|now left].
Qed.

Lemma reachable_invariant (events : list Table.event) :
  forall st,
    (1 <= Table.currentPage st)%Z ->
    (Table.currentPage st = 1
     \/ Table.currentPage st
        <= Table.totalPages (Table.shownRows toLowerCase data st))%Z ->
    let st' := fold_left (Table.handle toLowerCase data) events st in
    (1 <= Table.currentPage st')%Z
    /\ (Table.currentPage st' = 1
        \/ Table.currentPage st'
           <= Table.totalPages (Table.shownRows toLowerCase data st'))%Z.
Proof.
  induction events as [|e events IH]; intros st H1 H2; cbn [fold_left].
  - now split.
  - destruct (handle_invariant st e H1 H2) as [H1' H2'].
    now apply IH.
Qed.

Lemma page_not_empty {A : Type} (l : list A) (p : Z) :
  (1 <= p <= Table.totalPages l)%Z -> Table.currentData l p <> [].
Proof.
  intros Hp.
  pose proof (Math_ceil_div_bounds (Z.of_nat (List.length l)) 50 eq_refl)
    as Hb.
  unfold Table.totalPages, Table.rowsPerPage in Hp.
  replace p with (Z.of_nat (S (Z.to_nat (p - 1)))) by lia.
  rewrite currentData_chunk. intros E.
  apply (f_equal (@List.length A)) in E.
  rewrite length_firstn, length_skipn in E. cbn [List.length] in E. lia.
Qed.

Lemma next_clicks (k : nat) :
  (Z.of_nat k < Table.totalPages data)%Z ->
  fold_left (Table.handle toLowerCase data)
            (repeat (Table.Click Table.Next) k) Table.initialState
  = {| Table.searchTerm := []; Table.currentPage := Z.of_nat (S k) |}.
Proof.
  induction k as [|k IH]; intros Hk; [reflexivity|].
  rewrite <- Nat.add_1_r at 1. rewrite repeat_app, fold_left_app.
  rewrite IH by lia. cbn [repeat fold_left Table.handle].
  unfold Table.shownRows. cbn [Table.searchTerm Table.currentPage].
  change (Table.filteredData toLowerCase (Some data) []) with data.
  replace (1 <? Table.totalPages data)%Z with true
    by (symmetry; apply Z.ltb_lt; lia).
  cbn [Table.disabled Table.clicked andb].
  replace (Z.of_nat (S k) =? Table.totalPages data)%Z with false
    by (symmetry; apply Z.eqb_neq; lia).
  cbn [negb]. f_equal. lia.
Qed.

End PageControls.

(** X27: the page buttons stay within the pages.  Whatever the user does,
    clicking First, Previous, Next and Last and changing the search box in
    any order, the current page is at least 1 and, unless it is the first
    one, at most [totalPages] of the rows that match the search; so the
    table never shows an empty page while some row matches.  And every
    page is reached: with the search box empty, [p - 1] clicks on Next lead
    to page [p], for every [p] from 1 to [totalPages]. *)
Theorem X27_page_buttons_stay_within_the_pages
  (toLowerCase : JS.jsstring -> JS.jsstring) (data : list Table.row)
  (events : list Table.event) :
  let st :=
    fold_left (Table.handle toLowerCase data) events Table.initialState in
  let rows := Table.shownRows toLowerCase data st in
  (1 <= Table.currentPage st)%Z
  /\ (Table.currentPage st = 1
      \/ Table.currentPage st <= Table.totalPages rows)%Z
  /\ (rows <> [] -> Table.currentData rows (Table.currentPage st) <> [])
  /\ (forall p : Z,
         (1 <= p <= Table.totalPages data)%Z ->
         Table.currentPage
           (fold_left (Table.handle toLowerCase data)
              (repeat (Table.Click Table.Next) (Z.to_nat (p - 1)))
              Table.initialState)
         = p).
Proof.
  intros st rows.
  destruct (reachable_invariant toLowerCase data events Table.initialState)
    as [H1 H2]; [cbn; lia|now left|].
  fold st in H1, H2. fold rows in H2.
  split; [exact H1|]. split; [exact H2|]. split.
  - intros Hrows. apply page_not_empty. split; [exact H1|].
    destruct H2 as [-> | H2]; [|exact H2].
    pose proof (Math_ceil_div_bounds (Z.of_nat (List.length rows)) 50
                  eq_refl) as Hb.
    assert (Hlen : 0 < List.length rows)
      by (clear Hb; destruct rows; [congruence|cbn [List.length]; lia]).
    unfold Table.totalPages, Table.rowsPerPage. lia.
  - intros p Hp. rewrite next_clicks by lia.
    cbn [Table.currentPage]. lia.
Qed.
